(** * xrankmirror: a shallow embedding of [xrankmirror.py]

    The script fetches a JSON list of mirrors, filters it by region and
    tier, and either lists regions, lists mirrors, or benchmarks every
    mirror with a timed HTTP download that follows redirects.

    - Python [str] is [string]; [float] is an IEEE 754 binary64 value,
      taken from the axiom-free specification [SpecFloat] (precision
      53, [emax] 1024), so arithmetic and comparisons round as CPython's do.
    - A mirror is a heap object; lists of mirrors are lists of references,
      so the in-place update [mirror["speed"] = ...] is visible through
      every list holding the mirror.
    - The network, [http.client] and the clock are an explicit [world];
      standard output and standard error are an event trace in the state.
    - Exceptions are explicit results; [sys.exit] is the exception
      [SystemExit], which [except Exception] does not catch. *)

From Stdlib Require Import ZArith Lia Bool Ascii SpecFloat.
From stdpp Require Import gmap strings list pretty sorting.

Local Open Scope Z_scope.

(** ** Python string operations used by the script *)

Module PyStr.

Definition eqb_ascii (a b : ascii) : bool := bool_decide (a = b).

(** [s.startswith(p)] *)
Fixpoint startswith (p s : string) : bool :=
  match p, s with
  | EmptyString, _ => true
  | String a p', String b s' => eqb_ascii a b && startswith p' s'
  | String _ _, EmptyString => false
  end.

(** [s[n:]] *)
Fixpoint drop (n : nat) (s : string) : string :=
  match n, s with
  | O, _ => s
  | S n', String _ s' => drop n' s'
  | S _, EmptyString => EmptyString
  end.

(** [s[:n]] *)
Fixpoint take (n : nat) (s : string) : string :=
  match n, s with
  | O, _ => EmptyString
  | S n', String a s' => String a (take n' s')
  | S _, EmptyString => EmptyString
  end.

(** [s.split(c, maxsplit=1)] when [c] occurs in [s]: the text before the
    first [c] and the text after it; [None] when [c] does not occur (the
    Python list then has the single element [s]). *)
Fixpoint split_once (c : ascii) (s : string) : option (string * string) :=
  match s with
  | EmptyString => None
  | String a s' =>
      if eqb_ascii a c then Some (EmptyString, s')
      else match split_once c s' with
           | Some (h, t) => Some (String a h, t)
           | None => None
           end
  end.

(** [s.split(c)]: every occurrence of [c] separates two tokens, empty
    tokens are kept, and the result is never the empty list. *)
Fixpoint split (c : ascii) (s : string) : list string :=
  match s with
  | EmptyString => [EmptyString]
  | String a s' =>
      if eqb_ascii a c then EmptyString :: split c s'
      else match split c s' with
           | tok :: rest => String a tok :: rest
           | [] => [String a EmptyString]
           end
  end.

(** [s.lstrip(chars)], [s.rstrip(chars)], [s.strip(chars)], with [chars]
    given as a membership test. *)
Fixpoint lstrip (f : ascii -> bool) (s : string) : string :=
  match s with
  | EmptyString => EmptyString
  | String a s' => if f a then lstrip f s' else s
  end.

Fixpoint rstrip (f : ascii -> bool) (s : string) : string :=
  match s with
  | EmptyString => EmptyString
  | String a s' =>
      match rstrip f s' with
      | EmptyString => if f a then EmptyString else String a EmptyString
      | r => String a r
      end
  end.

Definition strip (f : ascii -> bool) (s : string) : string :=
  rstrip f (lstrip f s).

Definition one_of (chars : string) (a : ascii) : bool :=
  bool_decide (a ∈ String.list_ascii_of_string chars).

Fixpoint replicate_char (n : nat) (a : ascii) : string :=
  match n with
  | O => EmptyString
  | S n' => String a (replicate_char n' a)
  end.

Definition spaces (n : nat) : string := replicate_char n " "%char.

(** Format specifications [:<w], [:>w] and [:^w] on a string. *)
Definition ljust (w : nat) (s : string) : string :=
  s +:+ spaces (w - String.length s).

Definition rjust (w : nat) (s : string) : string :=
  spaces (w - String.length s) +:+ s.

Definition center (w : nat) (s : string) : string :=
  let pad := (w - String.length s)%nat in
  let left := (pad / 2)%nat in
  spaces left +:+ s +:+ spaces (pad - left).

Definition nl : string := String (Ascii.ascii_of_nat 10) EmptyString.
Definition cr : string := String (Ascii.ascii_of_nat 13) EmptyString.

End PyStr.

(** ** Python floats: IEEE 754 binary64 *)

Module PyFloat.

Definition float : Type := spec_float.

Definition prec : Z := 53.
Definition emax : Z := 1024.

(** [float(z)] for an integer that is in range. *)
Definition of_int (z : Z) : float := binary_normalize prec emax z 0 false.

Definition sub : float -> float -> float := SFsub prec emax.
Definition div : float -> float -> float := SFdiv prec emax.
Definition abs : float -> float := SFabs.
Definition ltb : float -> float -> bool := SFltb.

Definition is_nan (x : float) : bool :=
  match x with S754_nan => true | _ => false end.

Definition is_zero (x : float) : bool :=
  match x with S754_zero _ => true | _ => false end.

Definition is_inf (x : float) : bool :=
  match x with S754_infinity _ => true | _ => false end.

(** A number, as opposed to an infinity or a NaN. *)
Definition is_finite (x : float) : bool :=
  match x with S754_zero _ | S754_finite _ _ _ => true | _ => false end.

(** [m * 2^e * 10] rounded to the nearest integer, ties to even: the
    number of tenths that a correctly rounded [%.1f] prints. *)
Definition tenths (m : positive) (e : Z) : Z :=
  let n := Z.pos m * 10 in
  if 0 <=? e then n * 2 ^ e
  else
    let d := 2 ^ (- e) in
    let q := n / d in
    let r := n mod d in
    match 2 * r ?= d with
    | Lt => q
    | Gt => q + 1
    | Eq => if Z.even q then q else q + 1
    end.

(** The text of [f"{x:.1f}"]. *)
Definition fixed1 (x : float) : string :=
  match x with
  | S754_nan => "nan"
  | S754_infinity s => if s then "-inf" else "inf"
  | S754_zero s => if s then "-0.0" else "0.0"
  | S754_finite s m e =>
      let n := tenths m e in
      (if s then "-" else "") +:+ pretty (n / 10) +:+ "." +:+ pretty (n mod 10)
  end.

End PyFloat.

Import PyFloat.

(** ** [format_speed] *)

(** The [for unit in ("", "K", "M", "G")] loop, on the units not yet tried. *)
Fixpoint format_speed_loop (units : list string) (speed : float) (suffix : string)
  : string :=
  match units with
  | [] => fixed1 speed +:+ "T" +:+ suffix
  | unit :: rest =>
      if ltb (abs speed) (of_int 1000)
      then PyStr.rjust 3 (fixed1 speed) +:+ unit +:+ suffix
      else format_speed_loop rest (div speed (of_int 1000)) suffix
  end.

Definition format_speed_with (speed : float) (suffix : string) : string :=
  format_speed_loop [""; "K"; "M"; "G"] speed suffix.

(** [format_speed(speed)] with the default [suffix="B/s"]. *)
Definition format_speed (speed : float) : string :=
  format_speed_with speed "B/s".

(** ** Data model *)

Definition PKG : string := "runit-2.2.0_2.x86_64.xbps".
Definition MAX_REDIRECTS : nat := 3.

(** A mirror object: the five fields of the decoded JSON object and the
    [speed] key. [speed] is [None] while the key is absent, [Some None] when
    it holds Python's [None], and [Some (Some x)] when it holds a float. *)
Record mirror := Mirror {
  base_url : string;
  region : string;
  location : string;
  tier : Z;
  enabled : bool;
  speed : option (option float)
}.

Global Instance mirror_inhabited : Inhabited mirror :=
  populate (Mirror "" "" "" 0 false None).

(** [mirror["speed"] = v] *)
Definition set_speed (v : option float) (m : mirror) : mirror :=
  Mirror (base_url m) (region m) (location m) (tier m) (enabled m) (Some v).

Definition loc : Type := nat.

Inductive event :=
| Stdout (text : string)
| Stderr (text : string).

(** Python exceptions. [SystemExit] derives from [BaseException] only; all
    the others derive from [Exception]. *)
Inductive exn :=
| SystemExit (msg : string)
| AttributeError
| ValueError
| TypeError
| KeyError
| ZeroDivisionError
| OverflowError
| UnboundLocalError
| InvalidURL
| NetworkError
| DecodeError.

Definition is_Exception (e : exn) : bool :=
  match e with SystemExit _ => false | _ => true end.

Inductive result (A : Type) :=
| Ret (a : A)
| Raise (e : exn).
Arguments Ret {A} a.
Arguments Raise {A} e.

(** ** The environment *)

Record response := Response {
  status : Z;
  header_location : option string;   (* [getheader('Location')] *)
  body : option (list Byte.byte)     (* [read()]; [None] when it raises *)
}.

Inductive reply :=
| Reply (r : response)
| Failure.                           (* [request] or [getresponse] raises *)

Record connection := Connection {
  https : bool;
  netloc : string;                   (* the text given to the constructor *)
  host : string                      (* the [host] attribute *)
}.

(** What the script does not contain: [http.client]'s parsing of
    [host[:port]] ([None] when the constructor raises [InvalidURL]), the
    servers' answer to the n-th request of the run, the n-th reading of
    [time.perf_counter], and [read().decode()] followed by [json.loads]
    ([None] when either raises). *)
Record world := World {
  parse_host : string -> option string;
  serve : nat -> connection -> string -> reply;
  clock : nat -> float;
  decode : list Byte.byte -> option (list mirror)
}.

Record state := State {
  heap : gmap loc mirror;
  out : list event;
  requests : nat;
  ticks : nat
}.

(** ** State and exceptions *)

Definition Eff (S A : Type) : Type := S -> result A * S.

Global Instance eff_ret {S} : MRet (Eff S) := fun A a s => (Ret a, s).
Global Instance eff_bind {S} : MBind (Eff S) := fun A B f c s =>
  match c s with
  | (Ret a, s') => f a s'
  | (Raise e, s') => (Raise e, s')
  end.

Definition raise {S A} (e : exn) : Eff S A := fun s => (Raise e, s).

Definition gets {S A} (f : S -> A) : Eff S A := fun s => (Ret (f s), s).

Definition modify {S} (f : S -> S) : Eff S unit := fun s => (Ret tt, f s).

(** Runs a computation on the program state inside a frame with locals. *)
Definition lift {L S A} (c : Eff S A) : Eff (L * S) A := fun ls =>
  let '(r, s') := c ls.2 in (r, (ls.1, s')).

Definition emit (e : event) : Eff state unit :=
  modify (fun s => State (heap s) (out s ++ [e]) (requests s) (ticks s)).

(** [print(text, end=e)] *)
Definition print_end (text e : string) : Eff state unit := emit (Stdout (text +:+ e)).

(** [print(text)] *)
Definition print (text : string) : Eff state unit := print_end text PyStr.nl.

(** [time.perf_counter()] *)
Definition perf_counter (w : world) : Eff state float := fun s =>
  (Ret (clock w (ticks s)), State (heap s) (out s) (requests s) (S (ticks s))).

(** [conn.request("GET", path)] followed by [conn.getresponse()] *)
Definition request (w : world) (c : connection) (path : string) : Eff state response :=
  fun s =>
    let s' := State (heap s) (out s) (S (requests s)) (ticks s) in
    match serve w (requests s) c path with
    | Reply r => (Ret r, s')
    | Failure => (Raise NetworkError, s')
    end.

(** The object a reference points to. Python has no dangling references;
    the default is there to make the lookup total. *)
Definition deref (l : loc) : Eff state mirror := gets (fun s => heap s !!! l).

Definition store (l : loc) (m : mirror) : Eff state unit :=
  modify (fun s => State (<[l := m]> (heap s)) (out s) (requests s) (ticks s)).

(** A new object, at an address not in use. *)
Definition alloc (m : mirror) : Eff state loc := fun s =>
  let l := fresh (dom (heap s)) in
  (Ret l, State (<[l := m]> (heap s)) (out s) (requests s) (ticks s)).

Fixpoint alloc_all (ms : list mirror) : Eff state (list loc) :=
  match ms with
  | [] => mret []
  | m :: rest => l ← alloc m; ls ← alloc_all rest; mret (l :: ls)
  end.

(** ** [create_connection] *)

(** A result that does not depend on the state. *)
Definition of_result {S A} (r : result A) : Eff S A := fun s => (r, s).

Definition HTTPConnection (w : world) (secure : bool) (h : string) : result connection :=
  match parse_host w h with
  | Some name => Ret (Connection secure h name)
  | None => Raise InvalidURL
  end.

(** The function neither reads nor writes the program state: building a
    connection object opens no socket. *)
Definition create_connection (w : world) (url : string) : result (connection * string) :=
  if PyStr.startswith "https://" url then
    match PyStr.split_once "/" (PyStr.drop 8 url) with
    | Some (h, path) =>
        match HTTPConnection w true h with
        | Ret conn => Ret (conn, path)
        | Raise e => Raise e
        end
    | None => Raise ValueError
    end
  else if PyStr.startswith "http://" url then
    match PyStr.split_once "/" (PyStr.drop 7 url) with
    | Some (h, path) =>
        match HTTPConnection w false h with
        | Ret conn => Ret (conn, path)
        | Raise e => Raise e
        end
    | None => Raise ValueError
    end
  else Raise (SystemExit ("Error: Invalid url " +:+ url)).

(** ** [fetch_mirrorlist] *)

Definition fetch_mirrorlist (w : world) (url : string) : Eff state (list loc) :=
  '(conn, path) ← of_result (create_connection w url);
  response ← request w conn ("/" +:+ path);
  if negb (status response =? 200) then
    raise (SystemExit ("Error: Unable to fetch mirror list. failed with status code "
                       +:+ pretty (status response)))
  else
    match body response with
    | None => raise NetworkError
    | Some raw =>
        match decode w raw with
        | None => raise DecodeError
        | Some records => alloc_all records
        end
    end.

(** A [for x in xs: body] loop whose body neither breaks nor returns. *)
Fixpoint for_each {S A} (xs : list A) (body : A -> Eff S unit) : Eff S unit :=
  match xs with
  | [] => mret tt
  | x :: rest => body x;; for_each rest body
  end.

(** ** [list_regions] *)

(** [list(set([mirror["region"] for mirror in mirrors]))] followed by
    [regions.sort()]. The order in which a Python set is listed is not
    specified; sorting distinct strings gives the same list from any order. *)
Definition sorted_regions (h : gmap loc mirror) (mirrors : list loc) : list string :=
  merge_sort String.le
    (elements (list_to_set ((fun l => region (h !!! l)) <$> mirrors) : gset string)).

(** The function returns the list when [display] is false and [None]
    after printing. *)
Definition list_regions (mirrors : list loc) (display : bool)
  : Eff state (option (list string)) :=
  h ← gets heap;
  let regions := sorted_regions h mirrors in
  if negb display then mret (Some regions)
  else
    match regions with
    | _ :: _ =>
        print "Available Regions:";;
        for_each regions (fun region => print (" - " +:+ region));;
        mret None
    | [] => print "No regions available.";; mret None
    end.

(** ** [list_mirrors] *)

Definition gap : string := "    ".

Definition list_mirrors_row (m : mirror) : string :=
  PyStr.rjust 50 (PyStr.take 50 (base_url m)) +:+ gap
  +:+ PyStr.ljust 4 (pretty (tier m)) +:+ gap
  +:+ PyStr.ljust 6 (region m) +:+ gap
  +:+ location m.

Definition list_mirrors (mirrors : list loc) : Eff state unit :=
  match mirrors with
  | [] => mret tt
  | _ :: _ =>
      print (PyStr.center 50 "repo" +:+ gap +:+ PyStr.ljust 4 "tier" +:+ gap
             +:+ PyStr.ljust 6 "region" +:+ gap +:+ PyStr.ljust 8 "location");;
      for_each mirrors (fun mirror => m ← deref mirror; print (list_mirrors_row m))
  end.

(** ** [rank_mirror] *)

(** The local variables of [rank_mirror] that are read after the redirect
    loop or by the exception handler; [None] while a name is unbound. The
    flag next to the response tells whether [close()] was called on it. *)
Record locals := Locals {
  conn : option connection;
  resp : option (response * bool)
}.

Definition set_conn {S} (c : connection) : Eff (locals * S) unit :=
  modify (fun ls => (Locals (Some c) (resp ls.1), ls.2)).

Definition set_resp {S} (r : response) (closed : bool) : Eff (locals * S) unit :=
  modify (fun ls => (Locals (conn ls.1) (Some (r, closed)), ls.2)).

Definition is_redirect (st : Z) : bool :=
  bool_decide (st ∈ [301; 302; 303; 307; 308]).

(** [for _ in range(n)] with the loop body of [rank_mirror]. [base_url] is
    [None] when a redirect carried no [Location] header; [startswith] on
    [None] raises [AttributeError]. *)
Fixpoint redirect_loop (w : world) (n : nat) (base_url : option string)
  : Eff (locals * state) unit :=
  match n with
  | O => mret tt
  | S n' =>
      '(c, path) ← match base_url with
                   | Some url => of_result (create_connection w url)
                   | None => raise AttributeError
                   end;
      set_conn c;;
      response ← lift (request w c ("/" +:+ path));
      set_resp response false;;
      if negb (is_redirect (status response)) then mret tt
      else
        let base_url := header_location response in
        set_resp response true;;
        redirect_loop w n' base_url
  end.

(** [n / t] for an [int] and a [float]: the integer is converted first. *)
Definition truediv {S} (n : Z) (t : float) : Eff S float :=
  let x := of_int n in
  if is_inf x then raise OverflowError
  else if is_zero t then raise ZeroDivisionError
  else mret (div x t).

(** [response.read()]: empty once the response is closed. *)
Definition read {S} (r : response) (closed : bool) : Eff S (list Byte.byte) :=
  if closed then mret []
  else match body r with
       | Some data => mret data
       | None => raise NetworkError
       end.

(** The body of the [try] statement. [sys.stderr] has no attribute
    [writelinse], so the statement on the non-200 path raises
    [AttributeError] before anything is written. *)
Definition rank_mirror_try (w : world) (mirror : loc) (pkg_path : string)
  : Eff (locals * state) float :=
  m ← lift (deref mirror);
  let base_url := PyStr.rstrip (PyStr.one_of "/") (base_url m) +:+ pkg_path in
  stime ← lift (perf_counter w);
  redirect_loop w MAX_REDIRECTS (Some base_url);;
  etime ← lift (perf_counter w);
  let ttime := sub etime stime in
  lc ← gets fst;
  match resp lc with
  | None => raise UnboundLocalError
  | Some (response, closed) =>
      data ← read response closed;
      let data_len := Z.of_nat (length data) in
      if negb (status response =? 200) then raise AttributeError
      else truediv data_len ttime
  end.

(** [try: ... except Exception: print(...); return None]. The handler reads
    [conn.host]; when [conn] was never bound that raises
    [UnboundLocalError] out of the function. *)
Definition rank_mirror (w : world) (mirror : loc) (pkg_path : string)
  : Eff state (option float) := fun s =>
  match rank_mirror_try w mirror pkg_path (Locals None None, s) with
  | (Ret speed, (_, s')) => (Ret (Some speed), s')
  | (Raise e, (lc, s')) =>
      if is_Exception e then
        match conn lc with
        | Some c => (print ("ERROR: " +:+ host c +:+ ": failed utterly");; mret None) s'
        | None => (Raise UnboundLocalError, s')
        end
      else (Raise e, s')
  end.

(** ** [benchmark_mirrors] *)

Definition progress (index total : nat) : string :=
  "Progress: " +:+ PyStr.rjust 3 (pretty (index + 1)%nat) +:+ "/"
  +:+ PyStr.ljust 3 (pretty total).

(** The [for index, mirror in enumerate(mirrors)] loop; [results] is the
    list built so far. *)
Fixpoint benchmark_loop (w : world) (pkg_path : string) (total index : nat)
    (mirrors results : list loc) : Eff state (list loc) :=
  match mirrors with
  | [] => mret results
  | mirror :: rest =>
      v ← rank_mirror w mirror pkg_path;
      m ← deref mirror;
      store mirror (set_speed v m);;
      m ← deref mirror;
      let results :=
        match speed m with
        | Some (Some _) => results ++ [mirror]
        | _ => results
        end in
      print_end (progress index total) PyStr.cr;;
      benchmark_loop w pkg_path total (S index) rest results
  end.

(** [itemgetter("speed")(mirror)] *)
Definition itemgetter_speed {S} (m : mirror) : Eff S (option float) :=
  match speed m with
  | Some v => mret v
  | None => raise KeyError
  end.

(** [a < b] on two keys that are floats. *)
Definition key_lt (a b : option float) : bool :=
  match a, b with
  | Some x, Some y => ltb x y
  | _, _ => false
  end.

Fixpoint insert_desc (x : option float * loc) (l : list (option float * loc))
  : list (option float * loc) :=
  match l with
  | [] => [x]
  | y :: l' => if key_lt x.1 y.1 then y :: insert_desc x l' else x :: y :: l'
  end.

(** [results.sort(key=itemgetter("speed"), reverse=True)]. The keys are
    computed first. The sort compares keys with [<] only, is stable, and
    keeps the order of equal keys under [reverse=True]; it is written here
    as an insertion sort, which gives the same list whenever [<] orders
    the keys. With two or more elements every key is compared at least
    once, and comparing [None] raises [TypeError]. *)
Definition sort_results (results : list loc) : Eff state (list loc) :=
  keyed ← mapM (fun l => m ← deref l; k ← itemgetter_speed m; mret (k, l)) results;
  if bool_decide (2 ≤ length keyed)%nat && existsb (fun kl => bool_decide (kl.1 = None)) keyed
  then raise TypeError
  else mret (snd <$> foldr insert_desc [] keyed).

Definition benchmark_row_text (m : mirror) (v : float) : string :=
  PyStr.rjust 50 (PyStr.take 50 (base_url m)) +:+ gap
  +:+ PyStr.ljust 4 (pretty (tier m)) +:+ gap
  +:+ PyStr.ljust 6 (region m) +:+ gap
  +:+ PyStr.ljust 28 (location m) +:+ gap
  +:+ format_speed v.

(** The f-string of a table row reads [mirror['speed']] last and passes it
    to [format_speed], whose [abs] raises [TypeError] on [None]. *)
Definition benchmark_row (m : mirror) : Eff state string :=
  match speed m with
  | None => raise KeyError
  | Some None => raise TypeError
  | Some (Some v) => mret (benchmark_row_text m v)
  end.

Definition benchmark_header : string :=
  PyStr.center 50 "repo" +:+ gap +:+ PyStr.ljust 4 "tier" +:+ gap
  +:+ PyStr.ljust 6 "region" +:+ gap +:+ PyStr.ljust 28 "location" +:+ gap
  +:+ "speed".

Definition benchmark_mirrors (w : world) (mirrors : list loc) : Eff state unit :=
  let total_mirrors := length mirrors in
  print ("Found " +:+ pretty total_mirrors +:+ " mirrors");;
  let pkg_path := "/current/" +:+ PKG in
  results ← benchmark_loop w pkg_path total_mirrors 0 mirrors [];
  print "";;
  results ← sort_results results;
  match results with
  | [] => print "No working mirrors available"
  | _ :: _ =>
      print benchmark_header;;
      for_each results (fun mirror =>
        m ← deref mirror; row ← benchmark_row m; print row)
  end.

(** ** [main] *)

(** The parsed command line. [--tier] has [choices=[1, 2]]. *)
Record args := Args {
  arg_version : bool;
  arg_list_regions : bool;
  arg_regions : string;
  arg_tier : option Z;
  arg_list_mirrors : bool
}.

Definition mirrorlist_url : string := "https://xmirror.voidlinux.org/v0/mirrors.json".

(** [for region in regions: if region not in available_regions: sys.exit(...)] *)
Fixpoint check_regions {S} (regions available : list string) : Eff S unit :=
  match regions with
  | [] => mret tt
  | region :: rest =>
      if bool_decide (region ∉ available)
      then raise (SystemExit ("Error: Region '" +:+ region +:+ "' not supported"))
      else check_regions rest available
  end.

(** The list comprehensions of [main], on the heap [h]. *)
Definition only_enabled (h : gmap loc mirror) (mirrors : list loc) : list loc :=
  filter (fun l => enabled (h !!! l) = true) mirrors.

Definition in_regions (h : gmap loc mirror) (regions : list string) (mirrors : list loc)
  : list loc :=
  filter (fun l => region (h !!! l) ∈ regions) mirrors.

Definition of_tier (h : gmap loc mirror) (t : Z) (mirrors : list loc) : list loc :=
  filter (fun l => tier (h !!! l) = t) mirrors.

(** [if args.tier:] is false for [None] and for [0]. *)
Definition tier_given (t : option Z) : option Z :=
  match t with
  | Some z => if z =? 0 then None else Some z
  | None => None
  end.

Definition main (w : world) (a : args) : Eff state unit :=
  mirrors ← fetch_mirrorlist w mirrorlist_url;
  mirrors ← gets (fun s => only_enabled (heap s) mirrors);
  if arg_list_regions a then
    list_regions mirrors true;; mret tt
  else
    let regions := PyStr.strip (PyStr.one_of " ,") (arg_regions a) in
    mirrors ←
      (if bool_decide (regions ≠ "") then
         let regions := PyStr.split "," regions in
         available_regions ← list_regions mirrors false;
         check_regions regions (default [] available_regions);;
         gets (fun s => in_regions (heap s) regions mirrors)
       else mret mirrors);
    mirrors ←
      match tier_given (arg_tier a) with
      | Some t => gets (fun s => of_tier (heap s) t mirrors)
      | None => mret mirrors
      end;
    if arg_list_mirrors a then list_mirrors mirrors
    else benchmark_mirrors w mirrors;; print "".

(** The process: exit status and everything written. [sys.exit(msg)] writes
    [msg] to standard error and exits with status 1; any other uncaught
    exception ends the process with status 1 after a traceback, whose
    text is not modelled. *)
Definition initial : state := State ∅ [] 0 0.

Inductive ending :=
| Exit (code : Z)
| Crash (e : exn).

Definition run (w : world) (a : args) : ending * list event :=
  match main w a initial with
  | (Ret _, s) => (Exit 0, out s)
  | (Raise (SystemExit msg), s) => (Exit 1, out s ++ [Stderr (msg +:+ PyStr.nl)])
  | (Raise e, s) => (Crash e, out s)
  end.

(** ** Specification vocabulary *)

(** The unit letters in the order [format_speed] tries them. *)
Definition units : list string := [""; "K"; "M"; "G"; "T"].

(** [speed] after [k] divisions by [1000.0]. *)
Definition scaled (k : nat) (speed : float) : float :=
  Nat.iter k (fun x => div x (of_int 1000)) speed.

Definition sign_text (x : float) : string :=
  match x with
  | S754_zero true | S754_finite true _ _ => "-"
  | _ => ""
  end.

(** The state after the events [evs] were written. *)
Definition printed (s : state) (evs : list event) : state :=
  State (heap s) (out s ++ evs) (requests s) (ticks s).

(** A line written by [print]. *)
Definition line (text : string) : event := Stdout (text +:+ PyStr.nl).

(** What [list_regions] prints for a list of regions. *)
Definition region_listing (regions : list string) : list event :=
  match regions with
  | [] => [line "No regions available."]
  | _ :: _ => line "Available Regions:" :: ((fun r => line (" - " +:+ r)) <$> regions)
  end.

(** The requested region codes, and whether [if regions:] holds. *)
Definition stripped (a : args) : string :=
  PyStr.strip (PyStr.one_of " ,") (arg_regions a).

Definition requested (a : args) : list string := PyStr.split "," (stripped a).

(** The first requested code that is not available, if there is one. *)
Definition first_unsupported (regions available : list string) : option string :=
  head (filter (fun r => r ∉ available) regions).

Definition region_error (r : string) : string :=
  "Error: Region '" +:+ r +:+ "' not supported".

(** What [main] does with the mirrors that passed the filters. *)
Definition dispatch (w : world) (a : args) (mirrors : list loc) : Eff state unit :=
  if arg_list_mirrors a then list_mirrors mirrors
  else benchmark_mirrors w mirrors;; print "".

(** The tier filter of [main] on the heap [h]. *)
Definition tiered (h : gmap loc mirror) (a : args) (mirrors : list loc) : list loc :=
  match tier_given (arg_tier a) with
  | Some t => of_tier h t mirrors
  | None => mirrors
  end.



(** ** Sample environments *)

Module Examples.

Definition bytes (n : nat) : list Byte.byte := replicate n Byte.x00.

Definition ok (n : nat) : reply := Reply (Response 200 None (Some (bytes n))).

Definition moved (st : Z) (target : string) : reply :=
  Reply (Response st (Some target) (Some (bytes 9))).

(** Servers that answer by host name, whatever the path. *)
Definition net (n : nat) (c : connection) (path : string) : reply :=
  if bool_decide (host c = "xmirror.voidlinux.org") then ok 0
  else if bool_decide (host c = "a.example") then moved 301 "https://a2.example/pkg"
  else if bool_decide (host c = "a2.example") then moved 301 "http://a3.example/pkg"
  else if bool_decide (host c = "a3.example") then ok 5
  else if bool_decide (host c = "b.example") then ok 20
  else if bool_decide (host c = "c.example") then ok 1
  else if bool_decide (host c = "d.example") then Reply (Response 404 None (Some (bytes 3)))
  else if bool_decide (host c = "loop.example") then moved 302 "https://loop.example/again"
  else Failure.

(** A clock that advances by one second at each of its first 64 readings. *)
Definition seconds (n : nat) : float := of_int (Z.of_nat (Nat.min n 64)).

Definition world_of (records : list mirror) : world :=
  World (fun h => Some h) net seconds (fun _ => Some records).

Definition mirror_a : mirror := Mirror "https://a.example/" "EU" "Frankfurt, Germany" 1 true None.
Definition mirror_b : mirror := Mirror "http://b.example/void" "AS" "Tokyo, Japan" 2 true None.
Definition mirror_c : mirror := Mirror "https://c.example/x//" "EU" "Paris, France" 2 true None.
Definition mirror_d : mirror := Mirror "https://d.example" "NA" "New York, USA" 1 true None.
Definition mirror_off : mirror := Mirror "https://off.example/" "SA" "Lima, Peru" 1 false None.
Definition mirror_loop : mirror := Mirror "https://loop.example/" "EU" "Oslo, Norway" 1 true None.
Definition mirror_down : mirror := Mirror "https://down.example/" "EU" "Rome, Italy" 1 true None.
Definition mirror_ftp : mirror := Mirror "ftp://y.example/" "EU" "Bern, Switzerland" 1 true None.

Definition mixed : list mirror := [mirror_a; mirror_b; mirror_c; mirror_d; mirror_off].
Definition no_asia : list mirror := [mirror_a; mirror_d; mirror_off].

Definition flags (list_regions : bool) (regions : string) (t : option Z)
    (list_mirrors : bool) : args :=
  Args false list_regions regions t list_mirrors.

(** The state and the references after a successful fetch. *)
Definition fetched (w : world) : list loc * state :=
  match fetch_mirrorlist w mirrorlist_url initial with
  | (Ret all, s1) => (all, s1)
  | (Raise _, s1) => ([], s1)
  end.

End Examples.

(** The URL that [rank_mirror] requests first. *)
Definition target_url (m : mirror) (pkg_path : string) : string :=
  PyStr.rstrip (PyStr.one_of "/") (base_url m) +:+ pkg_path.

(** The state after [k] more requests, or [k] more readings of the clock. *)
Definition after_requests (k : nat) (s : state) : state :=
  State (heap s) (out s) (k + requests s) (ticks s).

Definition after_ticks (k : nat) (s : state) : state :=
  State (heap s) (out s) (requests s) (k + ticks s).

(** The line that the exception handler of [rank_mirror] prints. *)
Definition failed_utterly (c : connection) : event :=
  line ("ERROR: " +:+ host c +:+ ": failed utterly").

Definition is_stdout (e : event) : Prop :=
  match e with Stdout _ => True | Stderr _ => False end.

(** The code after the redirect loop of [rank_mirror], on the locals [lc]
    and the elapsed time [ttime]. *)
Definition measure {S} (lc : locals) (ttime : float) : Eff S float :=
  match resp lc with
  | None => raise UnboundLocalError
  | Some (response, closed) =>
      data ← read response closed;
      let data_len := Z.of_nat (length data) in
      if negb (status response =? 200) then raise AttributeError
      else truediv data_len ttime
  end.

(** The [except Exception] clause of [rank_mirror], entered with the
    exception [e], the locals [lc] and the state [s]. *)
Definition handler (e : exn) (lc : locals) (s : state) : result (option float) * state :=
  if is_Exception e then
    match conn lc with
    | Some c => (Ret None, printed s [failed_utterly c])
    | None => (Raise UnboundLocalError, s)
    end
  else (Raise e, s).

(** The five fields that come from the JSON object. *)
Definition same_fields (m m' : mirror) : Prop :=
  base_url m = base_url m' ∧ region m = region m' ∧ location m = location m'
  ∧ tier m = tier m' ∧ enabled m = enabled m'.

(** The speed of a mirror that has one. *)
Definition measured (m : mirror) : option float :=
  match speed m with
  | Some (Some v) => Some v
  | _ => None
  end.

(** The state after one iteration of the loop of [benchmark_mirrors], in
    which [rank_mirror] returned [v] and left the state [s]. *)
Definition recorded (mirror : loc) (v : option float) (index total : nat) (s : state)
  : state :=
  State (<[mirror := set_speed v (heap s !!! mirror)]> (heap s))
        (out s ++ [Stdout (progress index total +:+ PyStr.cr)])
        (requests s) (ticks s).

(** [results] after an iteration in which [rank_mirror] returned [v]. *)
Definition appended (results : list loc) (mirror : loc) (v : option float) : list loc :=
  match v with
  | Some _ => results ++ [mirror]
  | None => results
  end.

(** A position for every float that is not a NaN, such that floats compare
    as their positions do in the lexicographic order: infinities at the
    ends, both zeros together in the middle. *)
Definition position (x : float) : Z * Z * Z :=
  match x with
  | S754_infinity true => (-2, 0, 0)
  | S754_finite true m e => (-1, - e, Z.neg m)
  | S754_zero _ | S754_nan => (0, 0, 0)
  | S754_finite false m e => (1, e, Z.pos m)
  | S754_infinity false => (2, 0, 0)
  end.

Definition lex_compare (a b : Z * Z * Z) : comparison :=
  match a.1.1 ?= b.1.1 with
  | Eq => match a.1.2 ?= b.1.2 with
          | Eq => a.2 ?= b.2
          | c => c
          end
  | c => c
  end.

Definition lex_lt (a b : Z * Z * Z) : Prop :=
  a.1.1 < b.1.1 ∨ (a.1.1 = b.1.1 ∧ (a.1.2 < b.1.2 ∨ (a.1.2 = b.1.2 ∧ a.2 < b.2))).

(** [y <= x] on floats. *)
Definition fle (y x : float) : Prop := SFleb y x = true.

(** A computation that leaves every mirror object as it is. *)
Definition keeps_heap {A} (c : Eff state A) : Prop :=
  ∀ s : state, heap (c s).2 = heap s.

(** What [benchmark_mirrors] does after its loop. *)
Definition ranked_table (results : list loc) : Eff state unit :=
  print "";;
  results ← sort_results results;
  match results with
  | [] => print "No working mirrors available"
  | _ :: _ =>
      print benchmark_header;;
      for_each results (fun mirror =>
        m ← deref mirror; row ← benchmark_row m; print row)
  end.

(** The list that [sort] works on: every result with its key. *)
Definition keyed_of (h : gmap loc mirror) (results : list loc)
  : list (option float * loc) :=
  (fun l => (measured (h !!! l), l)) <$> results.

(** A key that is a number. *)
Definition numeric (k : option float) : Prop :=
  ∃ v, k = Some v ∧ is_nan v = false.

(** The order of the sorted list on keyed entries: the left key is not
    less than the right one. *)
Definition keyed_ge (a b : option float * loc) : Prop := key_lt a.1 b.1 = false.

(** Mirror [a] has a speed, mirror [b] has one, and the speed of [b] is
    less than or equal to the speed of [a]. *)
Definition at_least_as_fast (h : gmap loc mirror) (a b : loc) : Prop :=
  ∃ x y, measured (h !!! a) = Some x ∧ measured (h !!! b) = Some y ∧ fle y x.

(** The lines of the ranked table. *)
Definition row_line (h : gmap loc mirror) (l : loc) : event :=
  match measured (h !!! l) with
  | Some v => line (benchmark_row_text (h !!! l) v)
  | None => line ""
  end.

Definition table_lines (h : gmap loc mirror) (ranked : list loc) : list event :=
  match ranked with
  | [] => [line "No working mirrors available"]
  | _ :: _ => line benchmark_header :: (row_line h <$> ranked)
  end.

(** ** Vocabulary for the remaining functions *)

(** The characters of a string. *)
Definition chars (s : string) : list ascii := String.list_ascii_of_string s.

(** The prefix that [create_connection] tests for. *)
Definition scheme (secure : bool) : string :=
  if secure then "https://" else "http://".

(** The header line of [list_mirrors]. *)
Definition list_mirrors_header : string :=
  PyStr.center 50 "repo" +:+ gap +:+ PyStr.ljust 4 "tier" +:+ gap
  +:+ PyStr.ljust 6 "region" +:+ gap +:+ PyStr.ljust 8 "location".

(** What [list_mirrors] prints for the mirrors [mirrors] on the heap [h]. *)
Definition mirror_listing (h : gmap loc mirror) (mirrors : list loc) : list event :=
  match mirrors with
  | [] => []
  | _ :: _ => line list_mirrors_header
              :: ((fun l => line (list_mirrors_row (h !!! l))) <$> mirrors)
  end.

(** A computation that only writes on standard output: it makes no request,
    does not read the clock and leaves the heap as it is. *)
Definition only_prints {A} (c : Eff state A) : Prop :=
  ∀ s : state, ∃ evs, (c s).2 = printed s evs ∧ Forall is_stdout evs.

(** The message of [fetch_mirrorlist] for a status other than 200. *)
Definition fetch_error (st : Z) : string :=
  "Error: Unable to fetch mirror list. failed with status code " +:+ pretty st.

(** The connection and the path of the request for the mirror list, when
    [http.client] gives the host the name [name]. *)
Definition mirrorlist_conn (name : string) : connection :=
  Connection true "xmirror.voidlinux.org" name.

Definition mirrorlist_path : string := "/v0/mirrors.json".

(** Two keys between which [<] holds in neither direction. *)
Definition tie (a b : option float) : Prop := key_lt a b = false ∧ key_lt b a = false.

(** The mirror [l] has a speed on the heap [h], and this speed and [k]
    are equal for the sort. *)
Definition ties_with (h : gmap loc mirror) (k : float) (l : loc) : Prop :=
  is_Some (measured (h !!! l)) ∧ tie (measured (h !!! l)) (Some k).

#[global] Instance ties_with_dec (h : gmap loc mirror) (k : float) (l : loc) :
  Decision (ties_with h k l).
Proof. unfold ties_with, tie. apply _. Defined.

(** The progress line of the mirror at position [index] of [total]. *)
Definition progress_line (index total : nat) : event :=
  Stdout (progress index total +:+ PyStr.cr).

(** What the loop of [benchmark_mirrors] writes from position [index] on,
    when the attempts themselves write [chunks], one chunk per mirror. *)
Fixpoint progress_report (total index : nat) (chunks : list (list event)) : list event :=
  match chunks with
  | [] => []
  | c :: cs => c ++ progress_line index total :: progress_report total (S index) cs
  end.

(** What the attempt on the mirror [l] wrote, by what the heap [h] holds
    for it afterwards: nothing when it has a speed, the line of the
    exception handler when it has none. *)
Definition attempt_report (h : gmap loc mirror) (l : loc) (c : list event) : Prop :=
  match measured (h !!! l) with
  | Some _ => c = []
  | None => ∃ conn, c = [failed_utterly conn]
  end.

(** The mirrors that have a speed on the heap [h]. *)
Definition working (h : gmap loc mirror) (mirrors : list loc) : list loc :=
  filter (fun l => is_Some (measured (h !!! l))) mirrors.

(** What a benchmark prints when no mirror is left to try. *)
Definition nothing_to_rank : list event :=
  [line "Found 0 mirrors"; line ""; line "No working mirrors available"].

Module MoreExamples.

(** An [http.client] that rejects one host name. *)
Definition strict_world (records : list mirror) : world :=
  World (fun h => if bool_decide (h = "bad.example:port") then None else Some h)
        Examples.net Examples.seconds (fun _ => Some records).

Definition mirror_bad_port : mirror :=
  Mirror "https://bad.example:port/" "EU" "Wien, Austria" 1 true None.

(** Servers of which one redirects without [Location], one redirects to a
    relative URL and one refuses the mirror list. *)
Definition net (n : nat) (c : connection) (path : string) : reply :=
  if bool_decide (host c = "xmirror.voidlinux.org") then Examples.ok 0
  else if bool_decide (host c = "nowhere.example")
       then Reply (Response 302 None (Some (Examples.bytes 2)))
  else if bool_decide (host c = "relative.example")
       then Reply (Response 301 (Some "/elsewhere/pkg") (Some (Examples.bytes 2)))
  else if bool_decide (host c = "quick.example") then Examples.ok 7
  else if bool_decide (host c = "gone.example")
       then Reply (Response 410 None (Some (Examples.bytes 4)))
  else if bool_decide (host c = "twin.example") then Examples.ok 7
  else if bool_decide (host c = "big.example") then Examples.ok 20
  else Failure.

Definition world_of (records : list mirror) : world :=
  World (fun h => Some h) net Examples.seconds (fun _ => Some records).

(** The same servers with a clock that stands still. *)
Definition frozen_world (records : list mirror) : world :=
  World (fun h => Some h) net (fun _ => of_int 1) (fun _ => Some records).

(** A mirror-list server that answers 503. *)
Definition unavailable : world :=
  World (fun h => Some h)
        (fun _ _ _ => Reply (Response 503 None (Some [])))
        Examples.seconds (fun _ => Some []).

Definition mirror_nowhere : mirror :=
  Mirror "https://nowhere.example/" "EU" "Lyon, France" 1 true None.
Definition mirror_relative : mirror :=
  Mirror "https://relative.example/" "EU" "Gent, Belgium" 1 true None.
Definition mirror_quick : mirror :=
  Mirror "http://quick.example/void/" "AS" "Seoul, South Korea" 2 true None.
Definition mirror_gone : mirror :=
  Mirror "http://gone.example" "NA" "Toronto, Canada" 2 true None.
Definition mirror_twin : mirror :=
  Mirror "https://twin.example/void" "AS" "Busan, South Korea" 2 true None.
Definition mirror_big : mirror :=
  Mirror "https://big.example/" "EU" "Porto, Portugal" 1 true None.

End MoreExamples.
(** * Properties *)

Section StringFacts.

Lemma length_append (s t : string) :
  String.length (s +:+ t) = (String.length s + String.length t)%nat.
Proof. induction s as [|a s IH]; simpl; [done | by rewrite IH]. Qed.

Lemma rjust_wide (w : nat) (s : string) :
  (w ≤ String.length s)%nat → PyStr.rjust w s = s.
Proof.
  intros Hw. unfold PyStr.rjust, PyStr.spaces.
  replace (w - String.length s)%nat with 0%nat by lia. done.
Qed.

Lemma pretty_N_go_length (x : N) (s : string) :
  (String.length s ≤ String.length (pretty_N_go x s))%nat.
Proof.
  revert s. induction (N.lt_wf_0 x) as [x _ IH]. intros s.
  destruct (decide (x = 0)%N) as [->|Hx].
  - by rewrite pretty_N_go_0.
  - rewrite pretty_N_go_step by lia.
    etrans; [| apply IH; apply N.div_lt; lia]. simpl. lia.
Qed.

Lemma pretty_N_nonempty (x : N) : (1 ≤ String.length (pretty x))%nat.
Proof.
  unfold pretty, pretty_N. case_decide; [simpl; lia |].
  rewrite pretty_N_go_step by lia.
  etrans; [| apply pretty_N_go_length]. simpl. lia.
Qed.

Lemma pretty_Z_nonempty (z : Z) : (1 ≤ String.length (pretty z))%nat.
Proof.
  destruct z as [|p|p]; unfold pretty, pretty_Z; simpl; [lia | |].
  - apply pretty_N_nonempty.
  - lia.
Qed.

End StringFacts.

Section FormatSpeed.

Lemma tenths_nonneg (m : positive) (e : Z) : 0 ≤ tenths m e.
Proof.
  unfold tenths. destruct (0 <=? e) eqn:He.
  - apply Z.leb_le in He. apply Z.mul_nonneg_nonneg; [lia |]. apply Z.pow_nonneg. lia.
  - apply Z.leb_gt in He.
    assert (0 < 2 ^ (- e)) by (apply Z.pow_pos_nonneg; lia).
    assert (0 ≤ Z.pos m * 10 / 2 ^ (- e)) by (apply Z.div_pos; lia).
    cbv zeta. repeat case_match; lia.
Qed.

Lemma fixed1_length (x : float) : (3 ≤ String.length (fixed1 x))%nat.
Proof.
  destruct x as [[]|[]| |s m e]; simpl; try lia.
  rewrite !length_append.
  pose proof (pretty_Z_nonempty (tenths m e / 10)).
  pose proof (pretty_Z_nonempty (tenths m e `mod` 10)).
  simpl. lia.
Qed.

Lemma fixed1_one_decimal (x : float) :
  is_finite x = true →
  ∃ n d : Z, 0 ≤ n ∧ 0 ≤ d ≤ 9 ∧
    fixed1 x = sign_text x +:+ pretty n +:+ "." +:+ pretty d.
Proof.
  destruct x as [s| | |s m e]; try done; intros _.
  - exists 0, 0. destruct s; repeat split; done || lia.
  - pose proof (tenths_nonneg m e).
    exists (tenths m e / 10), (tenths m e `mod` 10).
    split; [apply Z.div_pos; lia |].
    split; [pose proof (Z.mod_pos_bound (tenths m e) 10); lia |].
    by destruct s.
Qed.

Lemma format_speed_loop_scaled (us : list string) (speed : float) (suffix : string) :
  ∃ k : nat, (k ≤ length us)%nat ∧
    format_speed_loop us speed suffix
      = fixed1 (scaled k speed) +:+ (us ++ ["T"]) !!! k +:+ suffix ∧
    (∀ j : nat, (j < k)%nat → ltb (abs (scaled j speed)) (of_int 1000) = false) ∧
    ((k < length us)%nat → ltb (abs (scaled k speed)) (of_int 1000) = true).
Proof.
  revert speed. induction us as [|u us IH]; intros speed.
  - exists 0%nat. simpl. split; [lia |]. split; [done |]. split; intros; lia.
  - cbn [format_speed_loop]. destruct (ltb (abs speed) (of_int 1000)) eqn:Hlt.
    + exists 0%nat. rewrite rjust_wide by apply fixed1_length.
      split; [simpl; lia |]. split; [done |]. split; [intros; lia | done].
    + destruct (IH (div speed (of_int 1000))) as (k & Hk & Heq & Hbefore & Hat).
      exists (S k). split; [simpl; lia |]. split; [| split].
      * rewrite Heq. unfold scaled. by rewrite Nat.iter_succ_r.
      * intros [|j] Hj; [done |]. unfold scaled. rewrite Nat.iter_succ_r.
        apply Hbefore. lia.
      * intros Hlen. unfold scaled. rewrite Nat.iter_succ_r. apply Hat.
        simpl in Hlen. lia.
Qed.

(** C5. [format_speed] divides by 1000 until the magnitude is below 1000
    (at most four times), prints the value with one digit after the
    point, then the unit letter of that step and [B/s]; 999 gives
    ["999.0B/s"], 1000 gives ["1.0KB/s"], 1000000 gives ["1.0MB/s"]. *)
Theorem format_speed_scales :
  format_speed (of_int 999) = "999.0B/s" ∧
  format_speed (of_int 1000) = "1.0KB/s" ∧
  format_speed (of_int 1000000) = "1.0MB/s" ∧
  (∀ speed : float, ∃ k : nat, (k ≤ 4)%nat ∧
     format_speed speed = fixed1 (scaled k speed) +:+ units !!! k +:+ "B/s" ∧
     (∀ j : nat, (j < k)%nat → ltb (abs (scaled j speed)) (of_int 1000) = false) ∧
     ((k < 4)%nat → ltb (abs (scaled k speed)) (of_int 1000) = true)) ∧
  (∀ x : float, is_finite x = true →
     ∃ n d : Z, 0 ≤ n ∧ 0 ≤ d ≤ 9 ∧
       fixed1 x = sign_text x +:+ pretty n +:+ "." +:+ pretty d).
Proof.
  split; [by vm_compute |]. split; [by vm_compute |]. split; [by vm_compute |].
  split; [| apply fixed1_one_decimal].
  intros speed. apply (format_speed_loop_scaled [""; "K"; "M"; "G"] speed "B/s").
Qed.

Lemma format_speed_scales_witness :
  ∃ n d : Z, 0 ≤ n ∧ 0 ≤ d ≤ 9 ∧
    fixed1 (of_int 999) = sign_text (of_int 999) +:+ pretty n +:+ "." +:+ pretty d.
Proof.
  destruct format_speed_scales as (_ & _ & _ & _ & Hdigits).
  apply (Hdigits (of_int 999)). reflexivity.
Defined.

End FormatSpeed.

Section Effects.

Lemma printed_nil (s : state) : printed s [] = s.
Proof. destruct s. unfold printed. simpl. by rewrite app_nil_r. Qed.

Lemma printed_app (s : state) (e1 e2 : list event) :
  printed (printed s e1) e2 = printed s (e1 ++ e2).
Proof. unfold printed. simpl. by rewrite app_assoc. Qed.

Lemma print_printed (text : string) (s : state) :
  print text s = (Ret tt, printed s [line text]).
Proof. done. Qed.

Lemma for_each_print {A} (f : A → string) (xs : list A) (s : state) :
  for_each xs (fun x => print (f x)) s = (Ret tt, printed s ((fun x => line (f x)) <$> xs)).
Proof.
  revert s. induction xs as [|x xs IH]; intros s.
  - simpl. by rewrite printed_nil.
  - cbn [for_each]. unfold mbind, eff_bind. rewrite print_printed, IH, printed_app. done.
Qed.

End Effects.

Section Regions.

Lemma sorted_regions_sorted (h : gmap loc mirror) (mirrors : list loc) :
  StronglySorted String.le (sorted_regions h mirrors).
Proof. apply (StronglySorted_merge_sort String.le). Qed.

Lemma sorted_regions_NoDup (h : gmap loc mirror) (mirrors : list loc) :
  NoDup (sorted_regions h mirrors).
Proof.
  unfold sorted_regions. rewrite merge_sort_Permutation. apply NoDup_elements.
Qed.

Lemma elem_of_sorted_regions (h : gmap loc mirror) (mirrors : list loc) (r : string) :
  r ∈ sorted_regions h mirrors ↔ ∃ l, l ∈ mirrors ∧ region (h !!! l) = r.
Proof.
  unfold sorted_regions. rewrite merge_sort_Permutation, elem_of_elements,
    elem_of_list_to_set, list_elem_of_fmap.
  split; intros (l & H1 & H2); exists l; by split.
Qed.

Lemma list_regions_quiet (mirrors : list loc) (s : state) :
  list_regions mirrors false s = (Ret (Some (sorted_regions (heap s) mirrors)), s).
Proof. done. Qed.

Lemma list_regions_display (mirrors : list loc) (s : state) :
  list_regions mirrors true s
  = (Ret None, printed s (region_listing (sorted_regions (heap s) mirrors))).
Proof.
  unfold list_regions, mbind, eff_bind, gets. cbn [negb].
  destruct (sorted_regions (heap s) mirrors) as [|r rs] eqn:Hrs; [done |].
  rewrite print_printed, for_each_print. cbn [region_listing].
  unfold mret, eff_ret. by rewrite printed_app.
Qed.

Lemma elem_of_only_enabled (h : gmap loc mirror) (mirrors : list loc) (l : loc) :
  l ∈ only_enabled h mirrors ↔ l ∈ mirrors ∧ enabled (h !!! l) = true.
Proof. unfold only_enabled. rewrite list_elem_of_filter. tauto. Qed.

Lemma main_list_regions (w : world) (a : args) (s s1 : state) (all : list loc) :
  fetch_mirrorlist w mirrorlist_url s = (Ret all, s1) →
  arg_list_regions a = true →
  main w a s
  = (Ret tt, printed s1 (region_listing
       (sorted_regions (heap s1) (only_enabled (heap s1) all)))).
Proof.
  intros Hfetch Hflag. unfold main, mbind, eff_bind. rewrite Hfetch.
  unfold gets at 1. rewrite Hflag, list_regions_display. done.
Qed.

(** C8. The regions that [main] hands to the listing, and that
    [list_regions] returns for the validation of [--regions], are the
    [region] values of the enabled mirrors, each once, in ascending
    lexicographic order; the listing prints them one per line, or the
    "no regions" message when there is none. *)
Theorem regions_sorted_distinct (w : world) (a : args) (s s1 : state)
    (all : list loc) :
  fetch_mirrorlist w mirrorlist_url s = (Ret all, s1) →
  let mirrors := only_enabled (heap s1) all in
  let regions := sorted_regions (heap s1) mirrors in
  StronglySorted String.le regions ∧ NoDup regions ∧
  (∀ r : string, r ∈ regions ↔
     ∃ l : loc, l ∈ all ∧ enabled (heap s1 !!! l) = true ∧ region (heap s1 !!! l) = r) ∧
  list_regions mirrors false s1 = (Ret (Some regions), s1) ∧
  list_regions mirrors true s1 = (Ret None, printed s1 (region_listing regions)) ∧
  (regions = [] → region_listing regions = [line "No regions available."]) ∧
  (arg_list_regions a = true →
     main w a s = (Ret tt, printed s1 (region_listing regions))).
Proof.
  intros Hfetch mirrors regions.
  split; [apply sorted_regions_sorted |].
  split; [apply sorted_regions_NoDup |].
  split.
  { intros r. unfold regions. rewrite elem_of_sorted_regions.
    split.
    - intros (l & Hl & Hr). apply elem_of_only_enabled in Hl as [Hl Hen].
      by exists l.
    - intros (l & Hl & Hen & Hr). exists l. split; [| done].
      apply elem_of_only_enabled. done. }
  split; [apply list_regions_quiet |].
  split; [apply list_regions_display |].
  split; [by intros -> |].
  intros Hflag. by apply main_list_regions.
Qed.

Lemma regions_sorted_distinct_witness :
  main (Examples.world_of Examples.mixed) (Examples.flags true "" None false) initial
  = (Ret tt, printed (Examples.fetched (Examples.world_of Examples.mixed)).2
               [line "Available Regions:"; line " - AS"; line " - EU"; line " - NA"]).
Proof.
  destruct (regions_sorted_distinct
              (Examples.world_of Examples.mixed)
              (Examples.flags true "" None false)
              initial
              (Examples.fetched (Examples.world_of Examples.mixed)).2
              (Examples.fetched (Examples.world_of Examples.mixed)).1)
    as (_ & _ & _ & _ & _ & _ & Hmain).
  - vm_compute. reflexivity.
  - rewrite Hmain by reflexivity. vm_compute. reflexivity.
Defined.

End Regions.

Section Filters.

Lemma check_regions_first {S} (regions available : list string) (s : S) :
  check_regions regions available s
  = match first_unsupported regions available with
    | Some r => (Raise (SystemExit (region_error r)), s)
    | None => (Ret tt, s)
    end.
Proof.
  unfold first_unsupported.
  induction regions as [|r rs IH]; [done |].
  cbn [check_regions]. rewrite filter_cons.
  case_bool_decide as Hr; case_decide; try done.
Qed.

Lemma first_unsupported_Some (regions available : list string) (r : string) :
  first_unsupported regions available = Some r →
  r ∈ regions ∧ r ∉ available.
Proof.
  unfold first_unsupported. intros Hhd.
  apply head_Some_elem_of, list_elem_of_filter in Hhd. tauto.
Qed.

Lemma first_unsupported_None (regions available : list string) :
  first_unsupported regions available = None ↔ Forall (fun r => r ∈ available) regions.
Proof.
  unfold first_unsupported. rewrite head_None.
  induction regions as [|r rs IH].
  - split; [constructor | done].
  - rewrite filter_cons, Forall_cons. case_decide as Hr.
    + split; [done |]. intros [Hin _]. done.
    + rewrite IH. split; [| tauto]. intros Hrs. split; [| done].
      by destruct (decide (r ∈ available)).
Qed.

Lemma first_unsupported_is_Some (regions available : list string) (r : string) :
  r ∈ regions → r ∉ available →
  ∃ r0, first_unsupported regions available = Some r0.
Proof.
  intros Hin Hnot.
  destruct (first_unsupported regions available) as [r0|] eqn:Hfirst; [by exists r0 |].
  apply first_unsupported_None in Hfirst.
  rewrite Forall_forall in Hfirst. destruct Hnot. by apply Hfirst.
Qed.


(** [main] once the mirror list is fetched and [--list-regions] is not
    given: the region check, the two filters, and the dispatch. *)
Lemma main_filters (w : world) (a : args) (s s1 : state) (all : list loc) :
  fetch_mirrorlist w mirrorlist_url s = (Ret all, s1) →
  arg_list_regions a = false →
  let h := heap s1 in
  let mirrors := only_enabled h all in
  main w a s
  = if bool_decide (stripped a ≠ "") then
      match first_unsupported (requested a) (sorted_regions h mirrors) with
      | Some r => (Raise (SystemExit (region_error r)), s1)
      | None => dispatch w a (tiered h a (in_regions h (requested a) mirrors)) s1
      end
    else dispatch w a (tiered h a mirrors) s1.
Proof.
  intros Hfetch Hflag h mirrors.
  unfold main, mbind, eff_bind. rewrite Hfetch. unfold gets at 1. rewrite Hflag.
  fold (stripped a). fold (requested a).
  case_bool_decide as Hreq.
  - rewrite list_regions_quiet. cbn [default from_option id].
    rewrite check_regions_first.
    fold h mirrors.
    destruct (first_unsupported (requested a) (sorted_regions h mirrors)); [done |].
    unfold gets, tiered, dispatch, mret, eff_ret, mbind, eff_bind.
    by destruct (tier_given (arg_tier a)).
  - unfold gets, tiered, dispatch, mret, eff_ret, mbind, eff_bind.
    by destruct (tier_given (arg_tier a)).
Qed.



End Filters.

Section RegionFilter.

Lemma alloc_all_out (ms : list mirror) (s s1 : state) (r : result (list loc)) :
  alloc_all ms s = (r, s1) → out s1 = out s.
Proof.
  revert s s1 r. induction ms as [|m ms IH]; intros s s1 r.
  - by intros [= <- <-].
  - cbn [alloc_all]. unfold mbind, eff_bind. unfold alloc at 1.
    destruct (alloc_all ms _) as [[ls|e] s2] eqn:Hrest; intros [= <- <-];
      by apply IH in Hrest.
Qed.

Lemma fetch_mirrorlist_out (w : world) (url : string) (s s1 : state)
    (r : result (list loc)) :
  fetch_mirrorlist w url s = (r, s1) → out s1 = out s.
Proof.
  unfold fetch_mirrorlist, mbind, eff_bind, of_result, request.
  destruct (create_connection w url) as [[c path]|e]; [| by intros [= <- <-]].
  destruct (serve w (requests s) c _) as [rsp|]; [| by intros [= <- <-]].
  destruct (negb _); [by intros [= <- <-] |].
  destruct (body rsp) as [raw|]; [| by intros [= <- <-]].
  destruct (decode w raw) as [records|]; [| by intros [= <- <-]].
  intros Halloc. by apply alloc_all_out in Halloc.
Qed.

Lemma run_SystemExit (w : world) (a : args) (msg : string) (s' : state) :
  main w a initial = (Raise (SystemExit msg), s') →
  run w a = (Exit 1, out s' ++ [Stderr (msg +:+ PyStr.nl)]).
Proof. intros Hmain. unfold run. by rewrite Hmain. Qed.

(** C6, as amended. Unless [--list-regions] is given, a [--regions]
    argument holding a code that is not a region of an enabled mirror
    ends the process at once with a fatal error that names the first
    such code; nothing is printed and no mirror is contacted. *)
Theorem unsupported_region_is_fatal (w : world) (a : args) (s s1 : state)
    (all : list loc) (r : string) :
  fetch_mirrorlist w mirrorlist_url s = (Ret all, s1) →
  arg_list_regions a = false →
  stripped a ≠ "" →
  r ∈ requested a →
  r ∉ sorted_regions (heap s1) (only_enabled (heap s1) all) →
  ∃ r0 : string,
    first_unsupported (requested a)
      (sorted_regions (heap s1) (only_enabled (heap s1) all)) = Some r0 ∧
    r0 ∈ requested a ∧
    (r0 ∉ sorted_regions (heap s1) (only_enabled (heap s1) all)) ∧
    main w a s = (Raise (SystemExit (region_error r0)), s1) ∧
    (s = initial → run w a = (Exit 1, [Stderr (region_error r0 +:+ PyStr.nl)])).
Proof.
  intros Hfetch Hflag Hreq Hin Hnot.
  destruct (first_unsupported_is_Some _ _ _ Hin Hnot) as [r0 Hfirst].
  exists r0. split; [done |].
  destruct (first_unsupported_Some _ _ _ Hfirst) as [Hin0 Hnot0].
  split; [done |]. split; [done |].
  assert (main w a s = (Raise (SystemExit (region_error r0)), s1)) as Hmain.
  { rewrite (main_filters w a s s1 all Hfetch Hflag). cbv zeta.
    rewrite bool_decide_eq_true_2 by done. by rewrite Hfirst. }
  split; [done |]. intros ->.
  rewrite (run_SystemExit _ _ _ _ Hmain).
  apply fetch_mirrorlist_out in Hfetch. rewrite Hfetch. done.
Qed.

(** C7. With a region filter whose codes are all available and a tier
    filter, the mirrors handed to the listing or to the benchmark are the
    fetched mirrors, in their order, that are enabled, whose region is a
    requested code and whose tier is the requested one. *)
Theorem region_and_tier_intersect (w : world) (a : args) (s s1 : state)
    (all : list loc) (t : Z) :
  fetch_mirrorlist w mirrorlist_url s = (Ret all, s1) →
  arg_list_regions a = false →
  stripped a ≠ "" →
  Forall (fun r => r ∈ sorted_regions (heap s1) (only_enabled (heap s1) all))
    (requested a) →
  arg_tier a = Some t →
  t = 1 ∨ t = 2 →
  let h := heap s1 in
  let kept := filter (fun l => enabled (h !!! l) = true
                               ∧ region (h !!! l) ∈ requested a
                               ∧ tier (h !!! l) = t) all in
  main w a s = dispatch w a kept s1 ∧
  (∀ l : loc, l ∈ kept ↔
     l ∈ in_regions h (requested a) (only_enabled h all)
     ∧ l ∈ of_tier h t (only_enabled h all)).
Proof.
  intros Hfetch Hflag Hreq Hok Htier Ht. cbv zeta.
  pose proof (main_filters w a s s1 all Hfetch Hflag) as Hmain. cbv zeta in Hmain.
  set (h := heap s1) in *.
  assert (tiered h a (in_regions h (requested a) (only_enabled h all))
          = filter (fun l => enabled (h !!! l) = true
                             ∧ region (h !!! l) ∈ requested a
                             ∧ tier (h !!! l) = t) all) as Hkept.
  { unfold tiered, tier_given. rewrite Htier.
    assert ((t =? 0) = false) as -> by (apply Z.eqb_neq; lia).
    unfold of_tier, in_regions, only_enabled.
    rewrite !list_filter_filter. apply list_filter_iff. intros l. tauto. }
  split.
  - rewrite Hmain, bool_decide_eq_true_2 by done.
    apply first_unsupported_None in Hok. by rewrite Hok, Hkept.
  - intros l. unfold in_regions, of_tier, only_enabled.
    rewrite !list_elem_of_filter. tauto.
Qed.


Lemma unsupported_region_is_fatal_witness :
  run (Examples.world_of Examples.mixed) (Examples.flags false "EU,ZZ" None false)
  = (Exit 1, [Stderr (region_error "ZZ" +:+ PyStr.nl)]).
Proof.
  destruct (unsupported_region_is_fatal
              (Examples.world_of Examples.mixed)
              (Examples.flags false "EU,ZZ" None false)
              initial
              (Examples.fetched (Examples.world_of Examples.mixed)).2
              (Examples.fetched (Examples.world_of Examples.mixed)).1
              "ZZ")
    as (r0 & Hfirst & _ & _ & _ & Hrun).
  - vm_compute. reflexivity.
  - reflexivity.
  - vm_compute. discriminate.
  - compute_done.
  - compute_done.
  - vm_compute in Hfirst. injection Hfirst as <-. by apply Hrun.
Defined.

(** The input on which the claim C6 fails: with [--list-regions], the
    unavailable code [ZZ] is never examined and the process ends normally
    after listing the regions. *)
Lemma list_regions_skips_region_check :
  arg_regions (Examples.flags true "ZZ" None false) = "ZZ" ∧
  requested (Examples.flags true "ZZ" None false) = ["ZZ"] ∧
  sorted_regions (Examples.fetched (Examples.world_of Examples.mixed)).2.(heap)
    (only_enabled (Examples.fetched (Examples.world_of Examples.mixed)).2.(heap)
       (Examples.fetched (Examples.world_of Examples.mixed)).1) = ["AS"; "EU"; "NA"] ∧
  run (Examples.world_of Examples.mixed) (Examples.flags true "ZZ" None false)
  = (Exit 0, [line "Available Regions:"; line " - AS"; line " - EU"; line " - NA"]).
Proof. vm_compute. done. Qed.

Lemma region_and_tier_intersect_witness :
  main (Examples.world_of Examples.mixed) (Examples.flags false "EU,AS" (Some 2) true) initial
  = dispatch (Examples.world_of Examples.mixed) (Examples.flags false "EU,AS" (Some 2) true)
      [1%nat; 2%nat] (Examples.fetched (Examples.world_of Examples.mixed)).2.
Proof.
  destruct (region_and_tier_intersect
              (Examples.world_of Examples.mixed)
              (Examples.flags false "EU,AS" (Some 2) true)
              initial
              (Examples.fetched (Examples.world_of Examples.mixed)).2
              (Examples.fetched (Examples.world_of Examples.mixed)).1
              2)
    as [Hmain _].
  - vm_compute. reflexivity.
  - reflexivity.
  - vm_compute. discriminate.
  - compute_done.
  - reflexivity.
  - by right.
  - rewrite Hmain. vm_compute. reflexivity.
Defined.



End RegionFilter.

(** ** Floats: results that are never NaN *)

Section FloatRounding.

Lemma iter_pos_preserves {A} (P : A → Prop) (f : A → A) :
  (∀ x, P x → P (f x)) → ∀ (p : positive) (x : A), P x → P (SpecFloat.iter_pos f p x).
Proof.
  intros Hf p. induction p as [p IH|p IH|]; intros x Hx; cbn [SpecFloat.iter_pos]; auto.
Qed.

Lemma shr_1_nonneg (mrs : shr_record) : 0 ≤ shr_m mrs → 0 ≤ shr_m (shr_1 mrs).
Proof. destruct mrs as [[|[p|p|]|p] r s]; cbn; lia. Qed.

Lemma shr_nonneg (mrs : shr_record) (e n : Z) :
  0 ≤ shr_m mrs → 0 ≤ shr_m (shr mrs e n).1.
Proof.
  intros Hm. destruct n as [|p|p]; cbn [shr fst]; try done.
  by apply (iter_pos_preserves (fun x => 0 ≤ shr_m x)); [apply shr_1_nonneg |].
Qed.

Lemma shr_fexp_nonneg (m e : Z) (l : SpecFloat.location) :
  0 ≤ m → 0 ≤ shr_m (shr_fexp prec emax m e l).1.
Proof.
  intros Hm. unfold shr_fexp. apply shr_nonneg.
  by destruct l as [|[]].
Qed.

Lemma round_nearest_even_nonneg (m : Z) (l : SpecFloat.location) :
  0 ≤ m → 0 ≤ round_nearest_even m l.
Proof. intros Hm. destruct l as [|[]]; cbn; try done; [case_match |]; lia. Qed.

Lemma binary_round_aux_not_nan (sx : bool) (mx ex : Z) (lx : SpecFloat.location) :
  0 ≤ mx → is_nan (binary_round_aux prec emax sx mx ex lx) = false.
Proof.
  intros Hm. unfold binary_round_aux.
  pose proof (shr_fexp_nonneg mx ex lx Hm) as H1.
  destruct (shr_fexp prec emax mx ex lx) as [mrs' e']. cbn [fst] in H1.
  pose proof (shr_fexp_nonneg _ e' loc_Exact
                (round_nearest_even_nonneg _ (loc_of_shr_record mrs') H1)) as H2.
  destruct (shr_fexp prec emax _ e' loc_Exact) as [mrs'' e'']. cbn [fst] in H2.
  destruct (shr_m mrs'') as [|p|p]; [done | by case_match | lia].
Qed.

Lemma binary_normalize_not_nan (m e : Z) (sz : bool) :
  is_nan (binary_normalize prec emax m e sz) = false.
Proof.
  destruct m as [|p|p]; cbn [binary_normalize]; [done | |];
    unfold binary_round; case_match; by apply binary_round_aux_not_nan.
Qed.

Lemma of_int_not_nan (z : Z) : is_nan (of_int z) = false.
Proof. apply binary_normalize_not_nan. Qed.

Lemma sub_not_nan (x y : float) :
  is_finite x = true → is_finite y = true → is_nan (sub x y) = false.
Proof.
  destruct x as [sx| | |sx mx ex], y as [sy| | |sy my ey]; try done; intros _ _.
  - by destruct sx, sy.
  - cbn. apply binary_normalize_not_nan.
Qed.

Lemma div_not_nan (x y : float) :
  is_nan x = false → is_inf x = false →
  is_nan y = false → is_zero y = false →
  is_nan (div x y) = false.
Proof.
  destruct x as [sx| | |sx mx ex], y as [sy| | |sy my ey]; try done; intros _ _ _ _.
  unfold div, SFdiv.
  destruct (SFdiv_core_binary prec emax (Z.pos mx) ex (Z.pos my) ey) as [[mz ez] lz] eqn:Hcore.
  apply binary_round_aux_not_nan.
  unfold SFdiv_core_binary in Hcore.
  destruct (Z.div_eucl _ (Z.pos my)) as [q r] eqn:Hdiv.
  injection Hcore as <- _ _.
  match type of Hdiv with Z.div_eucl ?a _ = _ =>
    assert (0 ≤ a) as Ha by (case_match; [done | apply Z.shiftl_nonneg | done]; lia);
    pose proof (Z_div_mod a (Z.pos my) ltac:(lia)) as Hspec
  end.
  rewrite Hdiv in Hspec. nia.
Qed.

End FloatRounding.

(** ** Floats: the order of the numbers *)

Section FloatOrder.

Lemma compare_position (x y : float) :
  is_nan x = false → is_nan y = false →
  SFcompare x y = Some (lex_compare (position x) (position y)).
Proof.
  destruct x as [sx|sx| |sx mx ex], y as [sy|sy| |sy my ey]; try done; intros _ _;
    try (by destruct sx); try (by destruct sy); try (by destruct sx, sy).
  destruct sx, sy; try done. unfold lex_compare. cbn [SFcompare position fst snd].
  change (-1 ?= -1) with Eq. cbv iota.
  rewrite Z.compare_opp, (Z.compare_antisym ex ey).
  destruct (ex ?= ey); done.
Qed.

Lemma lex_compare_Lt (a b : Z * Z * Z) : lex_compare a b = Lt ↔ lex_lt a b.
Proof.
  unfold lex_compare, lex_lt.
  destruct (Z.compare_spec a.1.1 b.1.1), (Z.compare_spec a.1.2 b.1.2),
    (Z.compare_spec a.2 b.2); split; (done || lia).
Qed.

Lemma lex_compare_Gt (a b : Z * Z * Z) : lex_compare a b = Gt ↔ lex_lt b a.
Proof.
  unfold lex_compare, lex_lt.
  destruct (Z.compare_spec a.1.1 b.1.1), (Z.compare_spec a.1.2 b.1.2),
    (Z.compare_spec a.2 b.2); split; (done || lia).
Qed.

Lemma ltb_position (x y : float) :
  is_nan x = false → is_nan y = false →
  ltb x y = true ↔ lex_lt (position x) (position y).
Proof.
  intros Hx Hy. unfold ltb, SFltb. rewrite (compare_position x y Hx Hy).
  rewrite <- lex_compare_Lt. by destruct (lex_compare _ _).
Qed.

Lemma not_ltb_fle (x y : float) :
  is_nan x = false → is_nan y = false → ltb x y = false → fle y x.
Proof.
  intros Hx Hy Hlt. unfold fle, SFleb. rewrite (compare_position y x Hy Hx).
  destruct (lex_compare (position y) (position x)) eqn:Hc; try done.
  apply lex_compare_Gt, (ltb_position x y Hx Hy) in Hc. congruence.
Qed.

Lemma ltb_asym (x y : float) :
  is_nan x = false → is_nan y = false → ltb x y = true → ltb y x = false.
Proof.
  intros Hx Hy Hlt. apply (ltb_position x y Hx Hy) in Hlt.
  destruct (ltb y x) eqn:Hyx; [| done].
  apply (ltb_position y x Hy Hx) in Hyx. unfold lex_lt in *. lia.
Qed.

Lemma not_ltb_trans (x y z : float) :
  is_nan x = false → is_nan y = false → is_nan z = false →
  ltb x y = false → ltb y z = false → ltb x z = false.
Proof.
  intros Hx Hy Hz Hxy Hyz.
  destruct (ltb x z) eqn:Hxz; [| done].
  apply (ltb_position x z Hx Hz) in Hxz.
  assert (¬ lex_lt (position x) (position y)) as Hn1
    by (rewrite <- (ltb_position x y Hx Hy); congruence).
  assert (¬ lex_lt (position y) (position z)) as Hn2
    by (rewrite <- (ltb_position y z Hy Hz); congruence).
  unfold lex_lt in *. lia.
Qed.

End FloatOrder.

Section RankMirror.

Context (w : world).

Lemma redirect_loop_redirect (n : nat) (url : string) (lc : locals) (s : state)
    (c : connection) (path : string) (r : response) :
  create_connection w url = Ret (c, path) →
  serve w (requests s) c ("/" +:+ path) = Reply r →
  is_redirect (status r) = true →
  redirect_loop w (S n) (Some url) (lc, s)
  = redirect_loop w n (header_location r)
      (Locals (Some c) (Some (r, true)), after_requests 1 s).
Proof.
  intros Hconn Hserve Hred. cbn [redirect_loop].
  unfold mbind, eff_bind, of_result. rewrite Hconn.
  unfold set_conn, set_resp, modify, lift, request. cbn [fst snd conn resp].
  rewrite Hserve, Hred. done.
Qed.

Lemma redirect_loop_break (n : nat) (url : string) (lc : locals) (s : state)
    (c : connection) (path : string) (r : response) :
  create_connection w url = Ret (c, path) →
  serve w (requests s) c ("/" +:+ path) = Reply r →
  is_redirect (status r) = false →
  redirect_loop w (S n) (Some url) (lc, s)
  = (Ret tt, (Locals (Some c) (Some (r, false)), after_requests 1 s)).
Proof.
  intros Hconn Hserve Hred. cbn [redirect_loop].
  unfold mbind, eff_bind, of_result. rewrite Hconn.
  unfold set_conn, set_resp, modify, lift, request. cbn [fst snd conn resp].
  rewrite Hserve, Hred. done.
Qed.

Lemma redirect_loop_failure (n : nat) (url : string) (lc : locals) (s : state)
    (c : connection) (path : string) :
  create_connection w url = Ret (c, path) →
  serve w (requests s) c ("/" +:+ path) = Failure →
  redirect_loop w (S n) (Some url) (lc, s)
  = (Raise NetworkError, (Locals (Some c) (resp lc), after_requests 1 s)).
Proof.
  intros Hconn Hserve. cbn [redirect_loop].
  unfold mbind, eff_bind, of_result. rewrite Hconn.
  unfold set_conn, set_resp, modify, lift, request. cbn [fst snd conn resp].
  rewrite Hserve. done.
Qed.

(** [rank_mirror] as the two clock readings around the loop, then
    [measure], then the handler. *)
Lemma rank_mirror_try_unfold (mirror : loc) (pkg_path : string) (lc0 : locals) (s : state) :
  rank_mirror_try w mirror pkg_path (lc0, s)
  = match redirect_loop w MAX_REDIRECTS
            (Some (target_url (heap s !!! mirror) pkg_path)) (lc0, after_ticks 1 s) with
    | (Ret _, (lc, s2)) =>
        measure lc (sub (clock w (ticks s2)) (clock w (ticks s))) (lc, after_ticks 1 s2)
    | (Raise e, ls) => (Raise e, ls)
    end.
Proof.
  unfold rank_mirror_try, mbind, eff_bind, lift, deref, gets, perf_counter.
  cbn [fst snd]. fold (target_url (heap s !!! mirror) pkg_path).
  change (State (heap s) (out s) (requests s) (S (ticks s))) with (after_ticks 1 s).
  destruct (redirect_loop w MAX_REDIRECTS _ _) as [[[]|e] [lc s2]]; [| done].
  cbn [fst snd]. unfold measure, mbind, eff_bind. done.
Qed.

Lemma create_connection_fatal (url : string) (e : exn) :
  create_connection w url = Raise e → is_Exception e = false →
  e = SystemExit ("Error: Invalid url " +:+ url).
Proof.
  unfold create_connection, HTTPConnection.
  repeat case_match; intros He Hfatal; by simplify_eq.
Qed.

(** One iteration of the loop. *)
Lemma redirect_loop_S (n : nat) (url : option string) (lc : locals) (s : state) :
  redirect_loop w (S n) url (lc, s)
  = match url with
    | None => (Raise AttributeError, (lc, s))
    | Some u =>
        match create_connection w u with
        | Raise e => (Raise e, (lc, s))
        | Ret (c, path) =>
            match serve w (requests s) c ("/" +:+ path) with
            | Failure =>
                (Raise NetworkError, (Locals (Some c) (resp lc), after_requests 1 s))
            | Reply rsp =>
                if is_redirect (status rsp)
                then redirect_loop w n (header_location rsp)
                       (Locals (Some c) (Some (rsp, true)), after_requests 1 s)
                else (Ret tt, (Locals (Some c) (Some (rsp, false)), after_requests 1 s))
            end
        end
    end.
Proof.
  cbn [redirect_loop]. unfold mbind, eff_bind, of_result, raise.
  destruct url as [u|]; [| done].
  destruct (create_connection w u) as [[c path]|e]; [| done].
  unfold set_conn, set_resp, modify, lift, request. cbn [fst snd conn resp].
  destruct (serve w (requests s) c ("/" +:+ path)) as [rsp|]; [| done].
  by destruct (is_redirect (status rsp)).
Qed.

(** What the loop leaves behind, however it ends. *)
Lemma redirect_loop_inv (n : nat) (url : option string) (lc lc' : locals)
    (s s' : state) (r : result unit) :
  redirect_loop w n url (lc, s) = (r, (lc', s')) →
  heap s' = heap s ∧ out s' = out s ∧ ticks s' = ticks s ∧
  (requests s ≤ requests s' ≤ requests s + n)%nat ∧
  (is_Some (conn lc) → is_Some (conn lc')) ∧
  (∀ e, r = Raise e → is_Exception e = false →
        ∃ u, e = SystemExit ("Error: Invalid url " +:+ u)) ∧
  (r = Ret tt →
     (n = 0%nat ∧ lc' = lc ∧ s' = s) ∨
     ∃ c path rsp closed,
       conn lc' = Some c ∧ resp lc' = Some (rsp, closed) ∧
       (requests s < requests s')%nat ∧
       serve w (requests s' - 1) c path = Reply rsp ∧
       is_redirect (status rsp) = closed).
Proof.
  revert url lc s. induction n as [|n IH]; intros url lc s.
  { intros [= <- <- <-]. repeat split; try done; try lia. intros _. by left. }
  rewrite redirect_loop_S.
  destruct url as [u|]; cycle 1.
  { intros [= <- <- <-]. repeat split; try done; try lia. intros e [= <-]. done. }
  destruct (create_connection w u) as [[c path]|e0] eqn:Hconn; cycle 1.
  { intros [= <- <- <-]. repeat split; try done; try lia.
    intros e [= <-] He. exists u. by apply create_connection_fatal. }
  destruct (serve w (requests s) c ("/" +:+ path)) as [rsp|] eqn:Hserve; cycle 1.
  { intros [= <- <- <-]. cbn. repeat split; try done; try lia.
    intros e [= <-]. done. }
  destruct (is_redirect (status rsp)) eqn:Hred.
  - intros Hloop. apply IH in Hloop as (Hh & Ho & Ht & Hq & Hc & Hfatal & Hret).
    cbn in Hh, Ho, Ht, Hq, Hc.
    split; [done |]. split; [done |]. split; [done |]. split; [lia |].
    split; [intros _; by apply Hc |]. split; [done |].
    intros Hr. right. destruct (Hret Hr) as [(_ & -> & ->) | Hlast].
    + exists c, ("/" +:+ path), rsp, true. cbn.
      rewrite Nat.sub_0_r. split; [done |]. split; [done |]. split; [lia |]. done.
    + destruct Hlast as (c' & p' & rsp' & cl & ? & ? & Hlt & ? & ?).
      exists c', p', rsp', cl. cbn in Hlt.
      split; [done |]. split; [done |]. split; [lia |]. done.
  - intros [= <- <- <-]. cbn.
    split; [done |]. split; [done |]. split; [done |]. split; [lia |].
    split; [done |]. split; [done |].
    intros _. right. exists c, ("/" +:+ path), rsp, false. cbn.
    rewrite Nat.sub_0_r. split; [done |]. split; [done |]. split; [lia |]. done.
Qed.

Lemma is_redirect_not_200 (st : Z) : is_redirect st = true → (st =? 200) = false.
Proof.
  intros Hst. apply Z.eqb_neq. intros ->. vm_compute in Hst. done.
Qed.

Lemma redirect_loop_conn_bound (n : nat) (u : string) (lc lc' : locals) (s s' : state)
    (r : result unit) (c : connection) (path : string) :
  create_connection w u = Ret (c, path) →
  redirect_loop w (S n) (Some u) (lc, s) = (r, (lc', s')) →
  is_Some (conn lc').
Proof.
  intros Hconn. rewrite redirect_loop_S, Hconn.
  destruct (serve w (requests s) c ("/" +:+ path)) as [rsp|].
  - destruct (is_redirect (status rsp)).
    + intros Hloop. apply redirect_loop_inv in Hloop as (_ & _ & _ & _ & Hc & _).
      by apply Hc.
    + by intros [= <- <- <-].
  - by intros [= <- <- <-].
Qed.

Lemma redirect_loop_unbound (n : nat) (u : string) (lc : locals) (s : state) (e : exn) :
  create_connection w u = Raise e →
  redirect_loop w (S n) (Some u) (lc, s) = (Raise e, (lc, s)).
Proof. intros Hconn. by rewrite redirect_loop_S, Hconn. Qed.

Lemma measure_state {S} (lc : locals) (t : float) (ls ls' : S) (r : result float) :
  measure lc t ls = (r, ls') → ls' = ls.
Proof.
  unfold measure, read, truediv, mbind, eff_bind, raise, mret, eff_ret.
  repeat case_match; intros ?; by simplify_eq.
Qed.

Lemma measure_raise {S} (lc : locals) (t : float) (ls ls' : S) (e : exn) :
  measure lc t ls = (Raise e, ls') → is_Exception e = true.
Proof.
  unfold measure, read, truediv, mbind, eff_bind, raise, mret, eff_ret.
  repeat case_match; intros ?; by simplify_eq.
Qed.

Lemma measure_ret {S} (lc : locals) (t : float) (ls ls' : S) (v : float) :
  measure lc t ls = (Ret v, ls') →
  ∃ rsp closed, resp lc = Some (rsp, closed) ∧ status rsp = 200.
Proof.
  unfold measure, read, truediv, mbind, eff_bind, raise, mret, eff_ret.
  destruct (resp lc) as [[rsp closed]|]; [| done].
  intros Hm. exists rsp, closed. split; [done |].
  destruct (status rsp =? 200) eqn:Hst; [by apply Z.eqb_eq |].
  repeat case_match; by simplify_eq.
Qed.

Lemma rank_mirror_handler (mirror : loc) (pkg_path : string) (s : state) :
  rank_mirror w mirror pkg_path s
  = match rank_mirror_try w mirror pkg_path (Locals None None, s) with
    | (Ret speed, (_, s')) => (Ret (Some speed), s')
    | (Raise e, (lc, s')) => handler e lc s'
    end.
Proof.
  unfold rank_mirror, handler.
  destruct (rank_mirror_try _ _ _ _) as [[v|e] [lc s']]; [done |].
  destruct (is_Exception e); [| done]. by destruct (conn lc).
Qed.

Lemma rank_mirror_success (mirror : loc) (pkg_path : string) (s s' : state) (v : float) :
  rank_mirror w mirror pkg_path s = (Ret (Some v), s') →
  (requests s < requests s' ≤ requests s + MAX_REDIRECTS)%nat ∧
  ∃ c path rsp, serve w (requests s' - 1) c path = Reply rsp ∧ status rsp = 200.
Proof.
  rewrite rank_mirror_handler, rank_mirror_try_unfold.
  destruct (redirect_loop w MAX_REDIRECTS _ _) as [[[]|e] [lc s2]] eqn:Hloop; cycle 1.
  { unfold handler. repeat case_match; intros ?; by simplify_eq. }
  destruct (measure lc _ _) as [[v'|e] [lc3 s3]] eqn:Hm; cycle 1.
  { unfold handler. repeat case_match; intros ?; by simplify_eq. }
  intros [= -> ->].
  pose proof (measure_state _ _ _ _ _ Hm) as [= -> ->].
  apply measure_ret in Hm as (rsp & closed & Hresp & Hst).
  apply redirect_loop_inv in Hloop as (_ & _ & _ & Hq & _ & _ & Hret).
  cbn in Hq.
  destruct (Hret eq_refl) as [(? & _) | (c & path & rsp' & cl & _ & Hresp' & Hlt & Hserve & _)];
    [done |].
  rewrite Hresp in Hresp'. injection Hresp' as <- <-.
  cbn in Hlt |- *. split; [lia |]. by exists c, path, rsp.
Qed.

(** Every way [rank_mirror] can end. The heap is not touched, and the only
    thing ever written is the handler's line on standard output. *)
Lemma rank_mirror_outcome (mirror : loc) (pkg_path : string) (s : state) :
  ∃ s2 : state,
    heap s2 = heap s ∧ out s2 = out s ∧
    ((∃ v, rank_mirror w mirror pkg_path s = (Ret (Some v), s2))
     ∨ (∃ c, rank_mirror w mirror pkg_path s = (Ret None, printed s2 [failed_utterly c]))
     ∨ (∃ u, rank_mirror w mirror pkg_path s
             = (Raise (SystemExit ("Error: Invalid url " +:+ u)), s2))
     ∨ (rank_mirror w mirror pkg_path s = (Raise UnboundLocalError, s2)
        ∧ ∃ e, create_connection w (target_url (heap s !!! mirror) pkg_path) = Raise e
               ∧ is_Exception e = true)).
Proof.
  rewrite rank_mirror_handler, rank_mirror_try_unfold.
  destruct (redirect_loop w MAX_REDIRECTS _ _) as [[[]|e] [lc s2]] eqn:Hloop.
  - pose proof (redirect_loop_inv _ _ _ _ _ _ _ Hloop) as (Hh & Ho & _ & _ & _ & _ & Hret).
    destruct (Hret eq_refl) as [(? & _) | (c & _ & _ & _ & Hc & _)]; [done |].
    exists (after_ticks 1 s2). split; [done |]. split; [done |].
    destruct (measure lc _ _) as [[v|e] [lc3 s3]] eqn:Hm;
      pose proof (measure_state _ _ _ _ _ Hm) as [= -> ->].
    + left. by exists v.
    + right. left. exists c. unfold handler.
      by rewrite (measure_raise _ _ _ _ _ Hm), Hc.
  - pose proof (redirect_loop_inv _ _ _ _ _ _ _ Hloop) as (Hh & Ho & _ & _ & _ & Hfatal & _).
    exists s2. split; [done |]. split; [done |].
    unfold handler. destruct (is_Exception e) eqn:He.
    + destruct (conn lc) as [c|] eqn:Hc; [right; left; by exists c |].
      right. right. right. split; [done |].
      destruct (create_connection w (target_url (heap s !!! mirror) pkg_path))
        as [[c path]|e0] eqn:Hconn.
      * apply (redirect_loop_conn_bound _ _ _ _ _ _ _ _ _ Hconn) in Hloop.
        rewrite Hc in Hloop. by destruct Hloop.
      * unfold MAX_REDIRECTS in Hloop.
        rewrite (redirect_loop_unbound _ _ _ _ _ Hconn) in Hloop.
        injection Hloop as <- _ _. by exists e0.
    + destruct (Hfatal e eq_refl He) as [u ->]. right. right. left. by exists u.
Qed.

Lemma rank_mirror_frame (mirror : loc) (pkg_path : string) (s s1 : state)
    (r : result (option float)) :
  rank_mirror w mirror pkg_path s = (r, s1) →
  heap s1 = heap s ∧ ∃ evs, out s1 = out s ++ evs ∧ Forall is_stdout evs.
Proof.
  intros Hrank.
  destruct (rank_mirror_outcome mirror pkg_path s)
    as (s2 & Hh & Ho & [[v Hr] | [[c Hr] | [[u Hr] | [Hr _]]]]);
    rewrite Hr in Hrank; injection Hrank as <- <-.
  - split; [done |]. exists []. by rewrite app_nil_r.
  - split; [done |]. exists [failed_utterly c]. cbn. rewrite Ho.
    split; [done |]. by repeat constructor.
  - split; [done |]. exists []. by rewrite app_nil_r.
  - split; [done |]. exists []. by rewrite app_nil_r.
Qed.

Lemma measure_value {S} (lc : locals) (t : float) (ls ls' : S) (v : float) :
  measure lc t ls = (Ret v, ls') →
  ∃ n : Z, v = div (of_int n) t ∧ is_inf (of_int n) = false ∧ is_zero t = false.
Proof.
  unfold measure, read, truediv, mbind, eff_bind, raise, mret, eff_ret.
  repeat case_match; intros ?; simplify_eq; eauto.
Qed.

(** With a clock whose readings are numbers, a speed is never a NaN. *)
Lemma rank_mirror_not_nan (mirror : loc) (pkg_path : string) (s s' : state) (v : float) :
  (∀ n, is_finite (clock w n) = true) →
  rank_mirror w mirror pkg_path s = (Ret (Some v), s') →
  is_nan v = false.
Proof.
  intros Hclock. rewrite rank_mirror_handler, rank_mirror_try_unfold.
  destruct (redirect_loop w MAX_REDIRECTS _ _) as [[[]|e] [lc s2]] eqn:Hloop; cycle 1.
  { unfold handler. repeat case_match; intros ?; by simplify_eq. }
  destruct (measure lc _ _) as [[v'|e] [lc3 s3]] eqn:Hm; cycle 1.
  { unfold handler. repeat case_match; intros ?; by simplify_eq. }
  intros [= -> ->].
  apply measure_value in Hm as (n & -> & Hinf & Hzero).
  apply div_not_nan; [apply of_int_not_nan | done | | done].
  apply sub_not_nan; apply Hclock.
Qed.

End RankMirror.

(** C1. A mirror that answers with two redirects and then 200 is ranked
    with the length of the last body over the elapsed time, after three
    requests. When the first three answers are all redirects the loop ends
    at its bound, no fourth request is made, and the attempt fails. An
    attempt succeeds only if the last answer received has status 200; it
    makes at most [MAX_REDIRECTS] requests. *)
Theorem redirects_followed_up_to_bound (w : world) (mirror : loc) (pkg_path : string)
    (s : state) :
  let url0 := target_url (heap s !!! mirror) pkg_path in
  let ttime := sub (clock w (S (ticks s))) (clock w (ticks s)) in
  (∀ c0 p0 c1 p1 c2 p2 r0 r1 u1 u2 h2 data,
     create_connection w url0 = Ret (c0, p0) →
     serve w (requests s) c0 ("/" +:+ p0) = Reply r0 →
     is_redirect (status r0) = true → header_location r0 = Some u1 →
     create_connection w u1 = Ret (c1, p1) →
     serve w (1 + requests s) c1 ("/" +:+ p1) = Reply r1 →
     is_redirect (status r1) = true → header_location r1 = Some u2 →
     create_connection w u2 = Ret (c2, p2) →
     serve w (2 + requests s) c2 ("/" +:+ p2) = Reply (Response 200 h2 (Some data)) →
     is_inf (of_int (Z.of_nat (length data))) = false →
     is_zero ttime = false →
     rank_mirror w mirror pkg_path s
     = (Ret (Some (div (of_int (Z.of_nat (length data))) ttime)),
        after_ticks 2 (after_requests 3 s))) ∧
  (∀ c0 p0 c1 p1 c2 p2 r0 r1 r2 u1 u2,
     create_connection w url0 = Ret (c0, p0) →
     serve w (requests s) c0 ("/" +:+ p0) = Reply r0 →
     is_redirect (status r0) = true → header_location r0 = Some u1 →
     create_connection w u1 = Ret (c1, p1) →
     serve w (1 + requests s) c1 ("/" +:+ p1) = Reply r1 →
     is_redirect (status r1) = true → header_location r1 = Some u2 →
     create_connection w u2 = Ret (c2, p2) →
     serve w (2 + requests s) c2 ("/" +:+ p2) = Reply r2 →
     is_redirect (status r2) = true →
     rank_mirror w mirror pkg_path s
     = (Ret None, printed (after_ticks 2 (after_requests 3 s)) [failed_utterly c2])) ∧
  (∀ v s', rank_mirror w mirror pkg_path s = (Ret (Some v), s') →
     (requests s < requests s' ≤ requests s + MAX_REDIRECTS)%nat ∧
     ∃ c path rsp, serve w (requests s' - 1) c path = Reply rsp ∧ status rsp = 200).
Proof.
  intros url0 ttime. split; [| split].
  - intros c0 p0 c1 p1 c2 p2 r0 r1 u1 u2 h2 data
      Hc0 Hs0 Hr0 Hu1 Hc1 Hs1 Hr1 Hu2 Hc2 Hs2 Hinf Hzero.
    rewrite rank_mirror_handler, rank_mirror_try_unfold. unfold MAX_REDIRECTS.
    fold url0.
    rewrite (redirect_loop_redirect w _ _ _ (after_ticks 1 s) c0 p0 r0 Hc0 Hs0 Hr0), Hu1.
    rewrite (redirect_loop_redirect w _ _ _ (after_requests 1 (after_ticks 1 s)) c1 p1 r1 Hc1 Hs1 Hr1), Hu2.
    rewrite (redirect_loop_break w _ _ _ (after_requests 1 (after_requests 1 (after_ticks 1 s)))
               c2 p2 _ Hc2 Hs2 eq_refl).
    unfold measure, read, truediv, mbind, eff_bind, mret, eff_ret.
    cbn [resp body status Z.eqb Pos.eqb negb ticks after_requests after_ticks Nat.add].
    rewrite Hinf. fold ttime. rewrite Hzero. done.
  - intros c0 p0 c1 p1 c2 p2 r0 r1 r2 u1 u2
      Hc0 Hs0 Hr0 Hu1 Hc1 Hs1 Hr1 Hu2 Hc2 Hs2 Hr2.
    rewrite rank_mirror_handler, rank_mirror_try_unfold. unfold MAX_REDIRECTS.
    fold url0.
    rewrite (redirect_loop_redirect w _ _ _ (after_ticks 1 s) c0 p0 r0 Hc0 Hs0 Hr0), Hu1.
    rewrite (redirect_loop_redirect w _ _ _ (after_requests 1 (after_ticks 1 s)) c1 p1 r1 Hc1 Hs1 Hr1), Hu2.
    rewrite (redirect_loop_redirect w _ _ _ (after_requests 1 (after_requests 1 (after_ticks 1 s)))
               c2 p2 r2 Hc2 Hs2 Hr2).
    cbn [redirect_loop]. unfold mret, eff_ret.
    unfold measure, read, mbind, eff_bind, mret, eff_ret, raise.
    cbn [resp]. rewrite (is_redirect_not_200 _ Hr2). done.
  - intros v s'. apply rank_mirror_success.
Qed.

Lemma redirects_followed_up_to_bound_witness :
  rank_mirror (Examples.world_of [Examples.mirror_a; Examples.mirror_loop]) 0%nat
    ("/current/" +:+ PKG)
    (Examples.fetched (Examples.world_of [Examples.mirror_a; Examples.mirror_loop])).2
  = (Ret (Some (of_int 5)),
     after_ticks 2 (after_requests 3
       (Examples.fetched (Examples.world_of [Examples.mirror_a; Examples.mirror_loop])).2))
  ∧ rank_mirror (Examples.world_of [Examples.mirror_a; Examples.mirror_loop]) 1%nat
      ("/current/" +:+ PKG)
      (Examples.fetched (Examples.world_of [Examples.mirror_a; Examples.mirror_loop])).2
    = (Ret None,
       printed (after_ticks 2 (after_requests 3
         (Examples.fetched (Examples.world_of [Examples.mirror_a; Examples.mirror_loop])).2))
         [line "ERROR: loop.example: failed utterly"]).
Proof.
  split.
  - destruct (redirects_followed_up_to_bound
                (Examples.world_of [Examples.mirror_a; Examples.mirror_loop]) 0%nat
                ("/current/" +:+ PKG)
                (Examples.fetched
                   (Examples.world_of [Examples.mirror_a; Examples.mirror_loop])).2)
      as [Hchain _].
    rewrite (Hchain (Connection true "a.example" "a.example")
               "current/runit-2.2.0_2.x86_64.xbps"
               (Connection true "a2.example" "a2.example") "pkg"
               (Connection false "a3.example" "a3.example") "pkg"
               (Response 301 (Some "https://a2.example/pkg") (Some (Examples.bytes 9)))
               (Response 301 (Some "http://a3.example/pkg") (Some (Examples.bytes 9)))
               "https://a2.example/pkg" "http://a3.example/pkg" None (Examples.bytes 5));
      vm_compute; reflexivity.
  - destruct (redirects_followed_up_to_bound
                (Examples.world_of [Examples.mirror_a; Examples.mirror_loop]) 1%nat
                ("/current/" +:+ PKG)
                (Examples.fetched
                   (Examples.world_of [Examples.mirror_a; Examples.mirror_loop])).2)
      as (_ & Hbound & _).
    rewrite (Hbound (Connection true "loop.example" "loop.example")
               "current/runit-2.2.0_2.x86_64.xbps"
               (Connection true "loop.example" "loop.example") "again"
               (Connection true "loop.example" "loop.example") "again"
               (Response 302 (Some "https://loop.example/again") (Some (Examples.bytes 9)))
               (Response 302 (Some "https://loop.example/again") (Some (Examples.bytes 9)))
               (Response 302 (Some "https://loop.example/again") (Some (Examples.bytes 9)))
               "https://loop.example/again" "https://loop.example/again");
      vm_compute; reflexivity.
Defined.

Section BenchmarkLoop.

Context (w : world).

Lemma benchmark_loop_ret (pkg_path : string) (total index : nat) (mirror : loc)
    (rest results : list loc) (s s1 : state) (v : option float) :
  rank_mirror w mirror pkg_path s = (Ret v, s1) →
  benchmark_loop w pkg_path total index (mirror :: rest) results s
  = benchmark_loop w pkg_path total (S index) rest (appended results mirror v)
      (recorded mirror v index total s1).
Proof.
  intros Hrank. cbn [benchmark_loop]. unfold mbind, eff_bind. rewrite Hrank.
  unfold deref, store, gets, modify, print_end, emit. cbn [heap out requests ticks].
  rewrite lookup_total_insert_eq. cbn [set_speed speed].
  by destruct v.
Qed.

Lemma benchmark_loop_raise (pkg_path : string) (total index : nat) (mirror : loc)
    (rest results : list loc) (s s1 : state) (e : exn) :
  rank_mirror w mirror pkg_path s = (Raise e, s1) →
  benchmark_loop w pkg_path total index (mirror :: rest) results s = (Raise e, s1).
Proof.
  intros Hrank. cbn [benchmark_loop]. unfold mbind, eff_bind. by rewrite Hrank.
Qed.

Lemma same_fields_refl (m : mirror) : same_fields m m.
Proof. by repeat split. Qed.

Lemma same_fields_trans (m1 m2 m3 : mirror) :
  same_fields m1 m2 → same_fields m2 m3 → same_fields m1 m3.
Proof. unfold same_fields. intros (? & ? & ? & ? & ?) (? & ? & ? & ? & ?).
  repeat split; congruence. Qed.

Lemma same_fields_set_speed (v : option float) (m : mirror) :
  same_fields m (set_speed v m).
Proof. by repeat split. Qed.

Lemma measured_set_speed (v : option float) (m : mirror) :
  measured (set_speed v m) = v.
Proof. by destruct v. Qed.

(** The loop writes the [speed] of the mirrors it visits and nothing else
    on the heap, and nothing on standard error. *)
Lemma benchmark_loop_heap (pkg_path : string) (total : nat) (mirrors : list loc) :
  ∀ (index : nat) (results : list loc) (s s' : state) (r : result (list loc)),
    benchmark_loop w pkg_path total index mirrors results s = (r, s') →
    (∀ l, l ∉ mirrors → heap s' !! l = heap s !! l) ∧
    (∀ l m, heap s !! l = Some m → ∃ m', heap s' !! l = Some m' ∧ same_fields m m') ∧
    (∃ evs, out s' = out s ++ evs ∧ Forall is_stdout evs).
Proof.
  induction mirrors as [|mirror rest IH]; intros index results s s' r.
  { intros [= <- <-]. split; [done |]. split.
    - intros l m Hl. exists m. split; [done | apply same_fields_refl].
    - exists []. by rewrite app_nil_r. }
  destruct (rank_mirror w mirror pkg_path s) as [[v|e] s1] eqn:Hrank.
  - rewrite (benchmark_loop_ret _ _ _ _ _ _ _ _ _ Hrank). intros Hloop.
    apply rank_mirror_frame in Hrank as (Hh1 & evs1 & Ho1 & Hevs1).
    apply IH in Hloop as (Hother & Hsame & evs2 & Ho2 & Hevs2).
    cbn [recorded heap out] in Hother, Hsame, Ho2. rewrite Hh1 in Hother, Hsame.
    split; [| split].
    + intros l Hl. apply not_elem_of_cons in Hl as [Hne Hl].
      rewrite (Hother l Hl). by rewrite lookup_insert_ne.
    + intros l m Hl. destruct (decide (l = mirror)) as [->|Hne].
      * destruct (Hsame mirror (set_speed v (heap s !!! mirror))) as (m' & Hm' & Hf).
        { by rewrite lookup_insert_eq. }
        exists m'. split; [done |].
        rewrite (lookup_total_correct _ _ _ Hl) in Hf.
        by eapply same_fields_trans; [apply same_fields_set_speed |].
      * apply Hsame. by rewrite lookup_insert_ne.
    + exists (evs1 ++ Stdout (progress index total +:+ PyStr.cr) :: evs2).
      rewrite Ho2, Ho1, <- !app_assoc. split; [done |].
      apply Forall_app. split; [done |]. by constructor.
  - rewrite (benchmark_loop_raise _ _ _ _ _ _ _ _ _ Hrank). intros [= <- <-].
    apply rank_mirror_frame in Hrank as (Hh1 & evs1 & Ho1 & Hevs1).
    split; [by rewrite Hh1 |]. split.
    + intros l m Hl. exists m. rewrite Hh1. split; [done | apply same_fields_refl].
    + by exists evs1.
Qed.

(** When the loop completes on mirrors that are distinct objects, the
    results are the mirrors that have a speed, in the order of the list. *)
Lemma benchmark_loop_results (pkg_path : string) (total : nat) (mirrors : list loc) :
  ∀ (index : nat) (results results' : list loc) (s s' : state),
    NoDup mirrors →
    benchmark_loop w pkg_path total index mirrors results s = (Ret results', s') →
    results' = results ++ filter (fun l => is_Some (measured (heap s' !!! l))) mirrors ∧
    ((∀ n, is_finite (clock w n) = true) →
     ∀ l x, l ∈ mirrors → measured (heap s' !!! l) = Some x → is_nan x = false).
Proof.
  induction mirrors as [|mirror rest IH]; intros index results results' s s' Hnd.
  { intros [= <- <-]. split; [by rewrite app_nil_r |]. intros _ l x Hl.
    by apply not_elem_of_nil in Hl. }
  apply NoDup_cons in Hnd as [Hfresh Hnd].
  destruct (rank_mirror w mirror pkg_path s) as [[v|e] s1] eqn:Hrank; cycle 1.
  { by rewrite (benchmark_loop_raise _ _ _ _ _ _ _ _ _ Hrank). }
  rewrite (benchmark_loop_ret _ _ _ _ _ _ _ _ _ Hrank). intros Hloop.
  pose proof (benchmark_loop_heap _ _ _ _ _ _ _ _ Hloop) as (Hother & _ & _).
  specialize (Hother mirror Hfresh). cbn [recorded heap] in Hother.
  rewrite lookup_insert_eq in Hother.
  apply lookup_total_correct in Hother.
  destruct (IH _ _ _ _ _ Hnd Hloop) as [-> Hnan].
  split.
  - rewrite filter_cons, Hother, measured_set_speed.
    destruct v as [x|]; cbn [appended].
    + rewrite decide_True by done. by rewrite <- app_assoc.
    + rewrite decide_False; [done |]. by intros [? ?].
  - intros Hclock l x Hl Hx. apply elem_of_cons in Hl as [-> | Hl].
    + rewrite Hother, measured_set_speed in Hx. subst v.
      by eapply rank_mirror_not_nan.
    + by eapply Hnan.
Qed.

End BenchmarkLoop.

Section PerMirrorFailure.

(** C3. What the code does where the claim expects a warning on standard
    error: [rank_mirror] never writes to standard error. On a final status
    other than 200 the statement that should write the warning raises
    [AttributeError], the handler prints its line on standard output and
    the function returns [None]; so it is for the mirror that answers 404. *)
Theorem non_200_warning_not_on_stderr :
  (∀ (w : world) (mirror : loc) (pkg_path : string) (s : state),
     ∃ evs, out (rank_mirror w mirror pkg_path s).2 = out s ++ evs
            ∧ Forall is_stdout evs) ∧
  rank_mirror (Examples.world_of [Examples.mirror_d]) 0%nat ("/current/" +:+ PKG)
    (Examples.fetched (Examples.world_of [Examples.mirror_d])).2
  = (Ret None,
     printed (after_ticks 2 (after_requests 1
                (Examples.fetched (Examples.world_of [Examples.mirror_d])).2))
       [Stdout ("ERROR: d.example: failed utterly" +:+ PyStr.nl)]).
Proof.
  split.
  - intros w mirror pkg_path s.
    destruct (rank_mirror w mirror pkg_path s) as [r s1] eqn:Hrank.
    by apply rank_mirror_frame in Hrank as [_ Hout].
  - vm_compute. reflexivity.
Qed.

Lemma create_connection_no_scheme (w : world) (url : string) :
  PyStr.startswith "https://" url = false →
  PyStr.startswith "http://" url = false →
  create_connection w url = Raise (SystemExit ("Error: Invalid url " +:+ url)).
Proof. intros Hs Hp. unfold create_connection. by rewrite Hs, Hp. Qed.

(** C2, as amended. For a mirror whose own URL yields a connection object,
    [rank_mirror] ends in one of three ways: with a speed; with [None],
    after the handler printed its line on standard output, and the loop
    of [benchmark_mirrors] then goes on with the next mirror without adding
    this one to the results; or with the fatal error of a redirect target
    whose scheme is neither [http://] nor [https://]. A request that fails
    is the second case. A mirror whose own URL has neither scheme ends
    [rank_mirror] and the loop with the fatal error. *)
Theorem failure_is_per_mirror (w : world) (mirror : loc) (pkg_path : string)
    (s : state) :
  let url0 := target_url (heap s !!! mirror) pkg_path in
  (∀ (c : connection) (path : string),
     create_connection w url0 = Ret (c, path) →
     (serve w (requests s) c ("/" +:+ path) = Failure →
        rank_mirror w mirror pkg_path s
        = (Ret None, printed (after_requests 1 (after_ticks 1 s)) [failed_utterly c])) ∧
     ∃ s2 : state,
       heap s2 = heap s ∧ out s2 = out s ∧
       ((∃ v, rank_mirror w mirror pkg_path s = (Ret (Some v), s2))
        ∨ (∃ c', rank_mirror w mirror pkg_path s
                 = (Ret None, printed s2 [failed_utterly c'])
                 ∧ ∀ (total index : nat) (rest results : list loc),
                     benchmark_loop w pkg_path total index (mirror :: rest) results s
                     = benchmark_loop w pkg_path total (S index) rest results
                         (recorded mirror None index total
                            (printed s2 [failed_utterly c'])))
        ∨ (∃ u, rank_mirror w mirror pkg_path s
                = (Raise (SystemExit ("Error: Invalid url " +:+ u)), s2)))) ∧
  (PyStr.startswith "https://" url0 = false →
   PyStr.startswith "http://" url0 = false →
   rank_mirror w mirror pkg_path s
   = (Raise (SystemExit ("Error: Invalid url " +:+ url0)), after_ticks 1 s)
   ∧ ∀ (total index : nat) (rest results : list loc),
       benchmark_loop w pkg_path total index (mirror :: rest) results s
       = (Raise (SystemExit ("Error: Invalid url " +:+ url0)), after_ticks 1 s)).
Proof.
  intros url0. split.
  - intros c path Hconn. split.
    + intros Hserve. rewrite rank_mirror_handler, rank_mirror_try_unfold.
      unfold MAX_REDIRECTS. fold url0.
      by rewrite (redirect_loop_failure w _ _ _ (after_ticks 1 s) c path Hconn Hserve).
    + destruct (rank_mirror_outcome w mirror pkg_path s)
        as (s2 & Hh & Ho & [[v Hr] | [[c' Hr] | [[u Hr] | [_ (e & He & _)]]]]).
      * exists s2. split; [done |]. split; [done |]. left. by exists v.
      * exists s2. split; [done |]. split; [done |]. right. left. exists c'.
        split; [done |]. intros total index rest results.
        by rewrite (benchmark_loop_ret w _ _ _ _ _ _ _ _ _ Hr).
      * exists s2. split; [done |]. split; [done |]. right. right. by exists u.
      * fold url0 in He. congruence.
  - intros Hs Hp.
    assert (rank_mirror w mirror pkg_path s
            = (Raise (SystemExit ("Error: Invalid url " +:+ url0)), after_ticks 1 s))
      as Hrank.
    { rewrite rank_mirror_handler, rank_mirror_try_unfold. unfold MAX_REDIRECTS.
      fold url0.
      by rewrite (redirect_loop_unbound w _ _ _ _ _ (create_connection_no_scheme w _ Hs Hp)). }
    split; [done |]. intros total index rest results.
    by rewrite (benchmark_loop_raise w _ _ _ _ _ _ _ _ _ Hrank).
Qed.

Lemma failure_is_per_mirror_witness :
  rank_mirror (Examples.world_of [Examples.mirror_down]) 0%nat ("/current/" +:+ PKG)
    (Examples.fetched (Examples.world_of [Examples.mirror_down])).2
  = (Ret None,
     printed (after_requests 1 (after_ticks 1
                (Examples.fetched (Examples.world_of [Examples.mirror_down])).2))
       [failed_utterly (Connection true "down.example" "down.example")])
  ∧ rank_mirror (Examples.world_of [Examples.mirror_ftp]) 0%nat ("/current/" +:+ PKG)
      (Examples.fetched (Examples.world_of [Examples.mirror_ftp])).2
    = (Raise (SystemExit
                "Error: Invalid url ftp://y.example/current/runit-2.2.0_2.x86_64.xbps"),
       after_ticks 1 (Examples.fetched (Examples.world_of [Examples.mirror_ftp])).2).
Proof.
  split.
  - destruct (failure_is_per_mirror
                (Examples.world_of [Examples.mirror_down]) 0%nat ("/current/" +:+ PKG)
                (Examples.fetched (Examples.world_of [Examples.mirror_down])).2)
      as [Hcaught _].
    destruct (Hcaught (Connection true "down.example" "down.example")
                "current/runit-2.2.0_2.x86_64.xbps") as [Hfail _].
    + vm_compute. reflexivity.
    + apply Hfail. vm_compute. reflexivity.
  - destruct (failure_is_per_mirror
                (Examples.world_of [Examples.mirror_ftp]) 0%nat ("/current/" +:+ PKG)
                (Examples.fetched (Examples.world_of [Examples.mirror_ftp])).2)
      as [_ Hfatal].
    destruct Hfatal as [Hrank _].
    + vm_compute. reflexivity.
    + vm_compute. reflexivity.
    + rewrite Hrank. vm_compute. reflexivity.
Defined.

(** The input on which the claim C2 fails: the first mirror refuses the
    connection, and the error is printed on standard output, not on
    standard error; the second mirror has an [ftp://] URL, for which
    [create_connection] calls [sys.exit], and the run ends there: the third
    mirror is never tried and no table is printed. *)
Lemma invalid_scheme_aborts_benchmark :
  run (Examples.world_of [Examples.mirror_down; Examples.mirror_ftp; Examples.mirror_b])
      (Examples.flags false "" None false)
  = (Exit 1,
     [Stdout ("Found 3 mirrors" +:+ PyStr.nl);
      Stdout ("ERROR: down.example: failed utterly" +:+ PyStr.nl);
      Stdout (progress 0 3 +:+ PyStr.cr);
      Stderr ("Error: Invalid url ftp://y.example/current/runit-2.2.0_2.x86_64.xbps"
              +:+ PyStr.nl)]).
Proof. vm_compute. reflexivity. Qed.

End PerMirrorFailure.

Section Frame.

Lemma keeps_heap_ret {A} (a : A) : keeps_heap (mret a).
Proof. done. Qed.

Lemma keeps_heap_raise {A} (e : exn) : keeps_heap (raise (A := A) e).
Proof. done. Qed.

Lemma keeps_heap_gets {A} (f : state → A) : keeps_heap (gets f).
Proof. done. Qed.

Lemma keeps_heap_print_end (text e : string) : keeps_heap (print_end text e).
Proof. done. Qed.

Lemma keeps_heap_print (text : string) : keeps_heap (print text).
Proof. done. Qed.

Lemma keeps_heap_bind {A B} (c : Eff state A) (k : A → Eff state B) :
  keeps_heap c → (∀ a, keeps_heap (k a)) → keeps_heap (c ≫= k).
Proof.
  intros Hc Hk s. unfold mbind, eff_bind. specialize (Hc s).
  destruct (c s) as [[a|e] s1]; cbn [snd] in *; [| done].
  by rewrite Hk.
Qed.

Lemma keeps_heap_for_each {A} (xs : list A) (body : A → Eff state unit) :
  (∀ x, keeps_heap (body x)) → keeps_heap (for_each xs body).
Proof.
  intros Hbody. induction xs as [|x xs IH]; [done |].
  cbn [for_each]. apply keeps_heap_bind; [done | by intros _].
Qed.

Lemma keeps_heap_mapM {A B} (f : A → Eff state B) (xs : list A) :
  (∀ x, keeps_heap (f x)) → keeps_heap (mapM f xs).
Proof.
  intros Hf. induction xs as [|x xs IH]; [done |].
  cbn [mapM]. apply keeps_heap_bind; [done |]. intros b.
  apply keeps_heap_bind; [done |]. intros bs. done.
Qed.

Lemma keeps_heap_list_regions (mirrors : list loc) (display : bool) :
  keeps_heap (list_regions mirrors display).
Proof.
  intros s. destruct display.
  - by rewrite list_regions_display.
  - by rewrite list_regions_quiet.
Qed.

Lemma keeps_heap_list_mirrors (mirrors : list loc) : keeps_heap (list_mirrors mirrors).
Proof.
  unfold list_mirrors. destruct mirrors as [|l ls]; [done |].
  apply keeps_heap_bind; [done |]. intros _.
  apply keeps_heap_for_each. intros x.
  apply keeps_heap_bind; [done |]. intros m. done.
Qed.

Lemma keeps_heap_sort_results (results : list loc) : keeps_heap (sort_results results).
Proof.
  unfold sort_results. apply keeps_heap_bind.
  - apply keeps_heap_mapM. intros l.
    apply keeps_heap_bind; [done |]. intros m.
    apply keeps_heap_bind; [| done].
    unfold itemgetter_speed. by destruct (speed m).
  - intros keyed. by case_match.
Qed.

Lemma keeps_heap_ranked_table (results : list loc) : keeps_heap (ranked_table results).
Proof.
  apply keeps_heap_bind; [done |]. intros _.
  apply keeps_heap_bind; [apply keeps_heap_sort_results |]. intros sorted.
  destruct sorted as [|l ls]; [done |].
  apply keeps_heap_bind; [done |]. intros _.
  apply keeps_heap_for_each. intros x.
  apply keeps_heap_bind; [done |]. intros m.
  apply keeps_heap_bind; [| done].
  unfold benchmark_row. by repeat case_match.
Qed.

Lemma benchmark_mirrors_unfold (w : world) (mirrors : list loc) (s : state) :
  benchmark_mirrors w mirrors s
  = match benchmark_loop w ("/current/" +:+ PKG) (length mirrors) 0 mirrors []
            (printed s [line ("Found " +:+ pretty (length mirrors) +:+ " mirrors")]) with
    | (Ret results, s1) => ranked_table results s1
    | (Raise e, s1) => (Raise e, s1)
    end.
Proof. done. Qed.

Lemma benchmark_mirrors_frame (w : world) (mirrors : list loc) (s s' : state)
    (r : result unit) :
  benchmark_mirrors w mirrors s = (r, s') →
  ∀ l m, heap s !! l = Some m → ∃ m', heap s' !! l = Some m' ∧ same_fields m m'.
Proof.
  rewrite benchmark_mirrors_unfold.
  destruct (benchmark_loop w _ _ _ _ _ _) as [[results|e] s1] eqn:Hloop.
  - intros Htable l m Hl.
    apply benchmark_loop_heap in Hloop as (_ & Hsame & _).
    destruct (Hsame l m Hl) as (m' & Hm' & Hf). exists m'. split; [| done].
    pose proof (keeps_heap_ranked_table results s1) as Hkeep.
    rewrite Htable in Hkeep. cbn [snd] in Hkeep. by rewrite Hkeep.
  - intros [= <- <-] l m Hl.
    apply benchmark_loop_heap in Hloop as (_ & Hsame & _). by apply Hsame.
Qed.

Lemma dispatch_frame (w : world) (a : args) (mirrors : list loc) (s s' : state)
    (r : result unit) :
  dispatch w a mirrors s = (r, s') →
  ∀ l m, heap s !! l = Some m →
    ∃ m', heap s' !! l = Some m' ∧ same_fields m m'
          ∧ (arg_list_mirrors a = true → m' = m).
Proof.
  unfold dispatch. destruct (arg_list_mirrors a).
  - intros Hlist l m Hl. exists m.
    pose proof (keeps_heap_list_mirrors mirrors s) as Hkeep.
    rewrite Hlist in Hkeep. cbn [snd] in Hkeep. rewrite Hkeep.
    split; [done |]. split; [apply same_fields_refl | done].
  - unfold mbind, eff_bind.
    destruct (benchmark_mirrors w mirrors s) as [[[]|e] s1] eqn:Hbench.
    + rewrite print_printed. intros [= <- <-] l m Hl.
      destruct (benchmark_mirrors_frame _ _ _ _ _ Hbench l m Hl) as (m' & Hm' & Hf).
      exists m'. cbn [printed heap]. split; [done |]. split; [done |]. by intros [=].
    + intros [= <- <-] l m Hl.
      destruct (benchmark_mirrors_frame _ _ _ _ _ Hbench l m Hl) as (m' & Hm' & Hf).
      exists m'. split; [done |]. split; [done |]. by intros [=].
Qed.

(** C9. From the decoding of the mirror list to the end of [main], whatever
    the command line and the environment, every mirror object keeps its
    [base_url], [region], [location], [tier] and [enabled]; with
    [--list-regions] or [--list-mirrors] it does not change at all, so only
    the benchmark writes, and what it writes is [speed]. *)
Theorem only_speed_is_written (w : world) (a : args) (s s1 s' : state)
    (all : list loc) (r : result unit) :
  fetch_mirrorlist w mirrorlist_url s = (Ret all, s1) →
  main w a s = (r, s') →
  ∀ l m, heap s1 !! l = Some m →
    ∃ m', heap s' !! l = Some m' ∧ same_fields m m'
          ∧ (arg_list_regions a = true ∨ arg_list_mirrors a = true → m' = m).
Proof.
  intros Hfetch Hmain l m Hl.
  destruct (arg_list_regions a) eqn:Hflag.
  - rewrite (main_list_regions w a s s1 all Hfetch Hflag) in Hmain.
    injection Hmain as <- <-. exists m. cbn.
    split; [done |]. split; [apply same_fields_refl | done].
  - rewrite (main_filters w a s s1 all Hfetch Hflag) in Hmain. cbv zeta in Hmain.
    assert (∀ mirrors, dispatch w a mirrors s1 = (r, s') →
              ∃ m', heap s' !! l = Some m' ∧ same_fields m m'
                    ∧ (false = true ∨ arg_list_mirrors a = true → m' = m)) as Hdispatch.
    { intros mirrors Hd.
      destruct (dispatch_frame _ _ _ _ _ _ Hd l m Hl) as (m' & Hm' & Hf & Hsame).
      exists m'. split; [done |]. split; [done |]. by intros [? | ?]; [| apply Hsame]. }
    case_bool_decide; [| by eapply Hdispatch].
    destruct (first_unsupported _ _); [| by eapply Hdispatch].
    injection Hmain as <- <-. exists m.
    split; [done |]. split; [apply same_fields_refl | done].
Qed.

Lemma only_speed_is_written_witness :
  ∃ m', heap (main (Examples.world_of Examples.mixed)
                (Examples.flags false "" None false) initial).2 !! 0%nat = Some m'
        ∧ same_fields Examples.mirror_a m'
        ∧ (arg_list_regions (Examples.flags false "" None false) = true
           ∨ arg_list_mirrors (Examples.flags false "" None false) = true
           → m' = Examples.mirror_a).
Proof.
  apply (only_speed_is_written
           (Examples.world_of Examples.mixed) (Examples.flags false "" None false)
           initial
           (Examples.fetched (Examples.world_of Examples.mixed)).2
           (main (Examples.world_of Examples.mixed)
              (Examples.flags false "" None false) initial).2
           (Examples.fetched (Examples.world_of Examples.mixed)).1
           (main (Examples.world_of Examples.mixed)
              (Examples.flags false "" None false) initial).1).
  - vm_compute. reflexivity.
  - apply surjective_pairing.
  - vm_compute. reflexivity.
Defined.

End Frame.

Section Sorting.

Lemma insert_desc_Permutation (x : option float * loc) (l : list (option float * loc)) :
  insert_desc x l ≡ₚ x :: l.
Proof.
  induction l as [|y l IH]; [done |]. cbn [insert_desc].
  destruct (key_lt x.1 y.1); [| done].
  rewrite IH. apply Permutation_swap.
Qed.

Lemma sorted_desc_Permutation (l : list (option float * loc)) :
  foldr insert_desc [] l ≡ₚ l.
Proof.
  induction l as [|x l IH]; [done |]. cbn [foldr].
  by rewrite insert_desc_Permutation, IH.
Qed.

Lemma key_lt_asym (a b : option float) :
  numeric a → numeric b → key_lt a b = true → key_lt b a = false.
Proof. intros (x & -> & Hx) (y & -> & Hy). by apply ltb_asym. Qed.

Lemma key_not_lt_trans (a b c : option float) :
  numeric a → numeric b → numeric c →
  key_lt a b = false → key_lt b c = false → key_lt a c = false.
Proof. intros (x & -> & Hx) (y & -> & Hy) (z & -> & Hz). by apply not_ltb_trans. Qed.

Lemma insert_desc_sorted (x : option float * loc) (l : list (option float * loc)) :
  numeric x.1 → Forall (fun y => numeric y.1) l →
  StronglySorted keyed_ge l → StronglySorted keyed_ge (insert_desc x l).
Proof.
  intros Hx. induction l as [|y l IH]; intros Hnum Hsorted.
  { cbn. by repeat constructor. }
  apply Forall_cons in Hnum as [Hy Hnum].
  apply StronglySorted_cons in Hsorted as [Hyl Hsorted].
  cbn [insert_desc]. destruct (key_lt x.1 y.1) eqn:Hlt.
  - apply StronglySorted_cons. split; [| by apply IH].
    rewrite insert_desc_Permutation. apply Forall_cons. split; [| done].
    by apply key_lt_asym.
  - apply StronglySorted_cons. split; [| by apply StronglySorted_cons].
    apply Forall_cons. split; [done |].
    rewrite Forall_forall in Hyl, Hnum |- *. intros z Hz.
    by apply (key_not_lt_trans x.1 y.1 z.1); [| | apply Hnum | | apply Hyl].
Qed.

Lemma sorted_desc_sorted (l : list (option float * loc)) :
  Forall (fun y => numeric y.1) l → StronglySorted keyed_ge (foldr insert_desc [] l).
Proof.
  induction l as [|x l IH]; intros Hnum; [constructor |].
  apply Forall_cons in Hnum as [Hx Hnum]. cbn [foldr].
  apply insert_desc_sorted; [done | | by apply IH].
  by rewrite sorted_desc_Permutation.
Qed.

Lemma StronglySorted_with {A} (R : relation A) (P : A → Prop) (l : list A) :
  Forall P l → StronglySorted R l → StronglySorted (fun a b => R a b ∧ P a ∧ P b) l.
Proof.
  induction l as [|x l IH]; intros HP Hsorted; [constructor |].
  apply Forall_cons in HP as [Hx HP].
  apply StronglySorted_cons in Hsorted as [Hxl Hsorted].
  apply StronglySorted_cons. split; [| by apply IH].
  rewrite Forall_forall in Hxl, HP |- *. intros y Hy. auto.
Qed.

End Sorting.

Section RankedTable.

Lemma measured_Some (m : mirror) (v : float) :
  measured m = Some v → speed m = Some (Some v).
Proof. unfold measured. by repeat case_match; intros [= <-]. Qed.

Lemma key_computed (l : loc) (s : state) (v : float) :
  measured (heap s !!! l) = Some v →
  (m ← deref l; k ← itemgetter_speed m; mret (k, l)) s = (Ret (Some v, l), s).
Proof.
  intros Hv. unfold mbind, eff_bind, deref, gets, itemgetter_speed.
  by rewrite (measured_Some _ _ Hv).
Qed.

Lemma keys_computed (results : list loc) (s : state) :
  Forall (fun l => is_Some (measured (heap s !!! l))) results →
  mapM (fun l => m ← deref l; k ← itemgetter_speed m; mret (k, l)) results s
  = (Ret (keyed_of (heap s) results), s).
Proof.
  induction results as [|l results IH]; intros Hall; [done |].
  apply Forall_cons in Hall as [[v Hv] Hall].
  cbn [mapM]. unfold mbind at 1, eff_bind at 1. rewrite (key_computed l s v Hv).
  unfold mbind at 1, eff_bind at 1. rewrite (IH Hall).
  unfold keyed_of. cbn. by rewrite Hv.
Qed.

Lemma keys_present (h : gmap loc mirror) (results : list loc) :
  Forall (fun l => is_Some (measured (h !!! l))) results →
  existsb (fun kl : option float * loc => bool_decide (kl.1 = None)) (keyed_of h results)
  = false.
Proof.
  induction 1 as [|l results [v Hv] _ IH]; [done |].
  cbn. rewrite Hv. cbn. done.
Qed.

Lemma sort_results_measured (results : list loc) (s : state) :
  Forall (fun l => is_Some (measured (heap s !!! l))) results →
  sort_results results s
  = (Ret (snd <$> foldr insert_desc [] (keyed_of (heap s) results)), s).
Proof.
  intros Hall. unfold sort_results. unfold mbind at 1, eff_bind at 1.
  rewrite (keys_computed results s Hall), (keys_present _ _ Hall), andb_false_r.
  done.
Qed.

Lemma rows_printed (ranked : list loc) (s : state) :
  Forall (fun l => is_Some (measured (heap s !!! l))) ranked →
  for_each ranked (fun mirror => m ← deref mirror; row ← benchmark_row m; print row) s
  = (Ret tt, printed s (row_line (heap s) <$> ranked)).
Proof.
  revert s. induction ranked as [|l ranked IH]; intros s Hall.
  { cbn. by rewrite printed_nil. }
  apply Forall_cons in Hall as [[v Hv] Hall].
  cbn [for_each]. unfold mbind at 1, eff_bind at 1.
  unfold mbind at 1, eff_bind at 1, deref, gets.
  unfold mbind at 1, eff_bind at 1, benchmark_row.
  rewrite (measured_Some _ _ Hv). unfold mret, eff_ret. rewrite print_printed.
  rewrite (IH (printed s _)) by done. rewrite printed_app.
  cbn [fmap list_fmap printed heap]. unfold row_line at 2. by rewrite Hv.
Qed.

Lemma keyed_of_snd (h : gmap loc mirror) (results : list loc) :
  snd <$> keyed_of h results = results.
Proof.
  unfold keyed_of. rewrite <- list_fmap_compose. apply list_fmap_id.
Qed.

Lemma ranked_Permutation (h : gmap loc mirror) (results : list loc) :
  snd <$> foldr insert_desc [] (keyed_of h results) ≡ₚ results.
Proof. by rewrite sorted_desc_Permutation, keyed_of_snd. Qed.

(** The table, for results that all have a speed. *)
Lemma ranked_table_printed (results : list loc) (s : state) :
  Forall (fun l => is_Some (measured (heap s !!! l))) results →
  ranked_table results s
  = (Ret tt, printed s
       (line "" :: table_lines (heap s)
                     (snd <$> foldr insert_desc [] (keyed_of (heap s) results)))).
Proof.
  intros Hall. unfold ranked_table. unfold mbind at 1, eff_bind at 1.
  rewrite print_printed. unfold mbind at 1, eff_bind at 1.
  rewrite sort_results_measured by done. cbn [printed heap].
  assert (Forall (fun l => is_Some (measured (heap s !!! l)))
            (snd <$> foldr insert_desc [] (keyed_of (heap s) results))) as Hranked
    by (by rewrite ranked_Permutation).
  destruct (snd <$> foldr insert_desc [] (keyed_of (heap s) results)) as [|l ranked].
  - rewrite print_printed, printed_app. done.
  - unfold mbind, eff_bind. rewrite print_printed.
    rewrite rows_printed by done. rewrite !printed_app. done.
Qed.

Lemma ranked_sorted (h : gmap loc mirror) (results : list loc) :
  Forall (fun l => ∃ x, measured (h !!! l) = Some x ∧ is_nan x = false) results →
  StronglySorted (at_least_as_fast h)
    (snd <$> foldr insert_desc [] (keyed_of h results)).
Proof.
  intros Hall.
  assert (Forall (fun kl : option float * loc =>
                    numeric kl.1 ∧ kl.1 = measured (h !!! kl.2))
            (foldr insert_desc [] (keyed_of h results))) as Hkeys.
  { rewrite sorted_desc_Permutation. unfold keyed_of.
    apply Forall_fmap. eapply Forall_impl; [exact Hall |].
    intros l (x & Hx & Hnan). cbn. split; [| done]. exists x. by rewrite Hx. }
  assert (StronglySorted keyed_ge (foldr insert_desc [] (keyed_of h results))) as Hsorted.
  { apply sorted_desc_sorted. rewrite <- (sorted_desc_Permutation (keyed_of h results)).
    eapply Forall_impl; [exact Hkeys |]. by intros kl [? _]. }
  apply (StronglySorted_with _ _ _ Hkeys) in Hsorted.
  eapply (StronglySorted_fmap snd _ (at_least_as_fast h)); [| exact Hsorted].
  intros [ka a] [kb b] (Hge & [(x & Hx & Hxn) Ha] & [(y & Hy & Hyn) Hb]).
  cbn in *. subst ka kb. exists x, y. split; [done |]. split; [done |].
  unfold keyed_ge in Hge. cbn in Hge. by apply not_ltb_fle.
Qed.

Lemma ranked_5_20_1 (a b c : loc) :
  snd <$> foldr insert_desc []
            [(Some (of_int 5), a); (Some (of_int 20), b); (Some (of_int 1), c)]
  = [b; a; c].
Proof. reflexivity. Qed.

Lemma seconds_finite (n : nat) : is_finite (Examples.seconds n) = true.
Proof.
  unfold Examples.seconds.
  assert (Nat.min n 64 < 65)%nat as Hk by lia.
  revert Hk. generalize (Nat.min n 64). intros k Hk.
  assert (forallb (fun k => is_finite (of_int (Z.of_nat k))) (seq 0 65) = true) as Hall
    by (vm_compute; reflexivity).
  rewrite forallb_forall in Hall. apply Hall, in_seq. lia.
Qed.

(** The objects of a decoded list are distinct. *)
Lemma alloc_all_distinct (ms : list mirror) :
  ∀ (s s1 : state) (ls : list loc),
    alloc_all ms s = (Ret ls, s1) →
    NoDup ls ∧ (∀ l, l ∈ ls → heap s !! l = None)
    ∧ (∀ l, is_Some (heap s !! l) → is_Some (heap s1 !! l)).
Proof.
  induction ms as [|m ms IH]; intros s s1 ls.
  { intros [= <- <-]. split; [constructor |]. split; [| done].
    intros l Hl. by apply not_elem_of_nil in Hl. }
  cbn [alloc_all]. unfold mbind at 1, eff_bind at 1. unfold alloc at 1.
  unfold mbind, eff_bind.
  destruct (alloc_all ms _) as [[ls'|e] s2] eqn:Hrest; [| done].
  intros [= <- <-].
  apply IH in Hrest as (Hnd & Hnew & Hold). cbn [heap] in Hnew, Hold.
  set (l0 := fresh (dom (heap s))) in *.
  assert (heap s !! l0 = None) as Hl0 by (apply not_elem_of_dom, is_fresh).
  split; [| split].
  - apply NoDup_cons. split; [| done]. intros Hin.
    specialize (Hnew l0 Hin). by rewrite lookup_insert_eq in Hnew.
  - intros l Hl. apply elem_of_cons in Hl as [-> | Hl]; [done |].
    specialize (Hnew l Hl). destruct (decide (l = l0)) as [-> | Hne]; [done |].
    by rewrite lookup_insert_ne in Hnew.
  - intros l Hl. apply Hold. destruct (decide (l = l0)) as [-> | Hne].
    + by rewrite lookup_insert_eq.
    + by rewrite lookup_insert_ne.
Qed.

Lemma fetch_mirrorlist_distinct (w : world) (url : string) (s s1 : state)
    (all : list loc) :
  fetch_mirrorlist w url s = (Ret all, s1) → NoDup all.
Proof.
  unfold fetch_mirrorlist, mbind, eff_bind, of_result, request.
  destruct (create_connection w url) as [[c path]|e]; [| done].
  destruct (serve w (requests s) c _) as [rsp|]; [| done].
  destruct (negb _); [done |].
  destruct (body rsp) as [raw|]; [| done].
  destruct (decode w raw) as [records|]; [| done].
  intros Halloc. by apply alloc_all_distinct in Halloc as [? _].
Qed.

(** C4. When every mirror has been tried, [benchmark_mirrors] prints a
    table whose rows are the mirrors that have a speed, each once, from the
    fastest to the slowest; mirrors without a speed have no row. Mirrors
    with the speeds 5.0, 20.0 and 1.0 are printed in the order 20.0, 5.0,
    1.0. The mirrors are distinct objects and the clock reads numbers. *)
Theorem ranked_by_speed_descending (w : world) (mirrors results : list loc)
    (s s1 : state) :
  NoDup mirrors →
  (∀ n, is_finite (clock w n) = true) →
  benchmark_loop w ("/current/" +:+ PKG) (length mirrors) 0 mirrors []
    (printed s [line ("Found " +:+ pretty (length mirrors) +:+ " mirrors")])
  = (Ret results, s1) →
  (∃ ranked : list loc,
     benchmark_mirrors w mirrors s
     = (Ret tt, printed s1 (line "" :: table_lines (heap s1) ranked)) ∧
     ranked ≡ₚ filter (fun l => is_Some (measured (heap s1 !!! l))) mirrors ∧
     StronglySorted (at_least_as_fast (heap s1)) ranked) ∧
  (∀ (s0 : state) (a b c : loc),
     measured (heap s0 !!! a) = Some (of_int 5) →
     measured (heap s0 !!! b) = Some (of_int 20) →
     measured (heap s0 !!! c) = Some (of_int 1) →
     ranked_table [a; b; c] s0
     = (Ret tt, printed s0 [line ""; line benchmark_header;
                            row_line (heap s0) b; row_line (heap s0) a;
                            row_line (heap s0) c])).
Proof.
  intros Hnd Hclock Hloop. split.
  - destruct (benchmark_loop_results w _ _ _ _ _ _ _ _ Hnd Hloop) as [Hres Hnan].
    cbn [app] in Hres. specialize (Hnan Hclock).
    assert (Forall (fun l => is_Some (measured (heap s1 !!! l))) results) as Hall.
    { rewrite Hres. apply Forall_forall. intros l Hl.
      by apply list_elem_of_filter in Hl as [? _]. }
    exists (snd <$> foldr insert_desc [] (keyed_of (heap s1) results)).
    split; [| split].
    + rewrite benchmark_mirrors_unfold, Hloop. by apply ranked_table_printed.
    + by rewrite ranked_Permutation, Hres.
    + apply ranked_sorted. rewrite Hres. apply Forall_forall. intros l Hl.
      apply list_elem_of_filter in Hl as [[x Hx] Hl]. exists x. split; [done |].
      by apply (Hnan l x).
  - intros s0 a b c Ha Hb Hc.
    rewrite ranked_table_printed by (repeat constructor; by eexists).
    unfold keyed_of. cbn [fmap list_fmap]. rewrite Ha, Hb, Hc.
    by rewrite ranked_5_20_1.
Qed.

Lemma ranked_by_speed_descending_witness :
  (benchmark_mirrors
     (Examples.world_of [Examples.mirror_a; Examples.mirror_b; Examples.mirror_c])
     [0; 1; 2]%nat
     (Examples.fetched
        (Examples.world_of [Examples.mirror_a; Examples.mirror_b; Examples.mirror_c])).2).1
  = Ret tt.
Proof.
  destruct (ranked_by_speed_descending
              (Examples.world_of [Examples.mirror_a; Examples.mirror_b; Examples.mirror_c])
              [0; 1; 2]%nat [0; 1; 2]%nat
              (Examples.fetched
                 (Examples.world_of
                    [Examples.mirror_a; Examples.mirror_b; Examples.mirror_c])).2
              (benchmark_loop
                 (Examples.world_of [Examples.mirror_a; Examples.mirror_b; Examples.mirror_c])
                 ("/current/" +:+ PKG) 3 0 [0; 1; 2]%nat []
                 (printed
                    (Examples.fetched
                       (Examples.world_of
                          [Examples.mirror_a; Examples.mirror_b; Examples.mirror_c])).2
                    [line "Found 3 mirrors"])).2)
    as [(ranked & Hrun & _) _].
  - compute_done.
  - apply seconds_finite.
  - vm_compute. reflexivity.
  - by rewrite Hrun.
Defined.

End RankedTable.

(** * Further properties *)

Section Urls.

Lemma append_cons (a : ascii) (p s : string) : String a p +:+ s = String a (p +:+ s).
Proof. done. Qed.

Lemma append_nil (s : string) : "" +:+ s = s.
Proof. done. Qed.

Lemma startswith_app (p s : string) :
  PyStr.startswith p s = true → s = p +:+ PyStr.drop (String.length p) s.
Proof.
  revert s. induction p as [|a p IH]; intros [|b s]; cbn; try done.
  intros [Hab Hrest]%andb_true_iff.
  apply bool_decide_eq_true in Hab as ->.
  change (String b s = String b (p +:+ PyStr.drop (String.length p) s)).
  f_equal. by apply IH.
Qed.

Lemma startswith_prefix (p s : string) : PyStr.startswith p (p +:+ s) = true.
Proof.
  induction p as [|a p IH]; [done |]. rewrite append_cons. cbn.
  unfold PyStr.eqb_ascii. by rewrite bool_decide_eq_true_2, IH.
Qed.

Lemma drop_prefix (p s : string) : PyStr.drop (String.length p) (p +:+ s) = s.
Proof. induction p as [|a p IH]; [done |]. by rewrite append_cons. Qed.

Lemma split_once_Some (c : ascii) (s h t : string) :
  PyStr.split_once c s = Some (h, t) → s = h +:+ String c t ∧ c ∉ chars h.
Proof.
  revert h. induction s as [|a s IH]; intros h; cbn; [done |].
  unfold PyStr.eqb_ascii. case_bool_decide as Hac.
  - intros [= <- <-]. subst a. split; [done |]. apply not_elem_of_nil.
  - destruct (PyStr.split_once c s) as [[h' t']|]; [| done].
    intros [= <- <-]. destruct (IH h' eq_refl) as [-> Hnot].
    split; [done |]. cbn. apply not_elem_of_cons. split; [congruence | done].
Qed.

Lemma split_once_None (c : ascii) (s : string) :
  PyStr.split_once c s = None ↔ c ∉ chars s.
Proof.
  induction s as [|a s IH]; cbn.
  - split; [intros _; apply not_elem_of_nil | done].
  - unfold PyStr.eqb_ascii. rewrite not_elem_of_cons.
    case_bool_decide as Hac.
    + split; [done | intros [Hne _]; congruence].
    + destruct (PyStr.split_once c s) as [[h t]|].
      * split; [done |]. intros [_ Hs]. by apply IH in Hs.
      * split; [| done]. intros _. split; [congruence | by apply IH].
Qed.

Lemma split_once_first (c : ascii) (h t : string) :
  c ∉ chars h → PyStr.split_once c (h +:+ String c t) = Some (h, t).
Proof.
  induction h as [|a h IH].
  - intros _. rewrite append_nil. cbn. unfold PyStr.eqb_ascii.
    by rewrite bool_decide_eq_true_2.
  - intros [Hne Hh]%not_elem_of_cons. rewrite append_cons. cbn.
    unfold PyStr.eqb_ascii.
    rewrite bool_decide_eq_false_2 by congruence. by rewrite (IH Hh).
Qed.

Lemma not_https_of_http (s : string) : PyStr.startswith "https://" ("http://" +:+ s) = false.
Proof. done. Qed.

(** X1. [create_connection] splits a URL at the first slash after the
    scheme, and nothing is lost: a result gives back the URL as scheme,
    host text, slash and path, the host text has no slash and is the text
    handed to [http.client]; conversely every URL of that shape with a host
    that [http.client] accepts gives exactly those parts. *)
Theorem create_connection_splits_url (w : world) :
  (∀ (url : string) (c : connection) (path : string),
     create_connection w url = Ret (c, path) →
     url = scheme (https c) +:+ netloc c +:+ "/" +:+ path
     ∧ ("/"%char ∉ chars (netloc c))
     ∧ parse_host w (netloc c) = Some (host c)) ∧
  (∀ (secure : bool) (h path name : string),
     "/"%char ∉ chars h →
     parse_host w h = Some name →
     create_connection w (scheme secure +:+ h +:+ "/" +:+ path)
     = Ret (Connection secure h name, path)).
Proof.
  split.
  - intros url c path. unfold create_connection, HTTPConnection.
    destruct (PyStr.startswith "https://" url) eqn:Hs.
    + destruct (PyStr.split_once _ _) as [[h p]|] eqn:Hsplit; [| done].
      destruct (parse_host w h) as [name|] eqn:Hhost; [| done].
      intros [= <- <-]. cbn [https netloc host scheme].
      apply split_once_Some in Hsplit as [Hrest Hno].
      apply startswith_app in Hs. cbn [String.length] in Hs.
      split; [| done]. rewrite Hs at 1. by rewrite Hrest.
    + destruct (PyStr.startswith "http://" url) eqn:Hp; [| done].
      destruct (PyStr.split_once _ _) as [[h p]|] eqn:Hsplit; [| done].
      destruct (parse_host w h) as [name|] eqn:Hhost; [| done].
      intros [= <- <-]. cbn [https netloc host scheme].
      apply split_once_Some in Hsplit as [Hrest Hno].
      apply startswith_app in Hp. cbn [String.length] in Hp.
      split; [| done]. rewrite Hp at 1. by rewrite Hrest.
  - intros secure h path name Hno Hhost. unfold create_connection, HTTPConnection.
    change ("/" +:+ path) with (String "/"%char path).
    destruct secure; cbn [scheme].
    + rewrite startswith_prefix.
      change 8%nat with (String.length "https://"). rewrite drop_prefix.
      by rewrite (split_once_first _ _ _ Hno), Hhost.
    + rewrite not_https_of_http, startswith_prefix.
      change 7%nat with (String.length "http://"). rewrite drop_prefix.
      by rewrite (split_once_first _ _ _ Hno), Hhost.
Qed.

Lemma create_connection_splits_url_witness :
  create_connection (Examples.world_of []) "http://b.example/void/current/x"
  = Ret (Connection false "b.example" "b.example", "void/current/x").
Proof.
  destruct (create_connection_splits_url (Examples.world_of [])) as [_ Hbuild].
  apply (Hbuild false "b.example" "void/current/x" "b.example").
  - compute_done.
  - reflexivity.
Defined.

(** X2. The three ways [create_connection] fails: a URL that starts with
    neither scheme ends the process with the message that names it; a URL
    with a scheme but no slash after it (a host and nothing else) raises
    [ValueError] from the unpacking, which is an ordinary exception; a host
    text that [http.client] rejects raises [InvalidURL]. It fails in no
    other way. *)
Theorem create_connection_errors (w : world) (url : string) :
  (∀ e, create_connection w url = Raise e →
     (e = SystemExit ("Error: Invalid url " +:+ url)
      ∧ PyStr.startswith "https://" url = false
      ∧ PyStr.startswith "http://" url = false)
     ∨ (e = ValueError ∧ ∃ secure h, url = scheme secure +:+ h ∧ "/"%char ∉ chars h)
     ∨ (e = InvalidURL ∧ ∃ secure h path,
          url = scheme secure +:+ h +:+ "/" +:+ path ∧ parse_host w h = None)) ∧
  (∀ secure h, url = scheme secure +:+ h → "/"%char ∉ chars h →
     create_connection w url = Raise ValueError).
Proof.
  split.
  - intros e. unfold create_connection, HTTPConnection.
    destruct (PyStr.startswith "https://" url) eqn:Hs.
    + apply startswith_app in Hs. cbn [String.length] in Hs.
      destruct (PyStr.split_once _ _) as [[h p]|] eqn:Hsplit.
      * destruct (parse_host w h) as [name|] eqn:Hhost; [done |].
        intros [= <-]. right. right. split; [done |]. exists true, h, p.
        apply split_once_Some in Hsplit as [Hrest _].
        split; [| done]. rewrite Hs at 1. by rewrite Hrest.
      * intros [= <-]. right. left. split; [done |].
        exists true, (PyStr.drop 8 url). split; [done |]. by apply split_once_None.
    + destruct (PyStr.startswith "http://" url) eqn:Hp.
      * apply startswith_app in Hp. cbn [String.length] in Hp.
        destruct (PyStr.split_once _ _) as [[h p]|] eqn:Hsplit.
        -- destruct (parse_host w h) as [name|] eqn:Hhost; [done |].
           intros [= <-]. right. right. split; [done |]. exists false, h, p.
           apply split_once_Some in Hsplit as [Hrest _].
           split; [| done]. rewrite Hp at 1. by rewrite Hrest.
        -- intros [= <-]. right. left. split; [done |].
           exists false, (PyStr.drop 7 url). split; [done |]. by apply split_once_None.
      * intros [= <-]. by left.
  - intros secure h -> Hno. unfold create_connection.
    destruct secure; cbn [scheme].
    + rewrite startswith_prefix.
      change 8%nat with (String.length "https://"). rewrite drop_prefix.
      apply split_once_None in Hno. by rewrite Hno.
    + rewrite not_https_of_http, startswith_prefix.
      change 7%nat with (String.length "http://"). rewrite drop_prefix.
      apply split_once_None in Hno. by rewrite Hno.
Qed.

Lemma create_connection_errors_witness :
  create_connection (Examples.world_of []) "https://host.example" = Raise ValueError.
Proof.
  destruct (create_connection_errors (Examples.world_of []) "https://host.example")
    as [_ Hbare].
  apply (Hbare true "host.example").
  - reflexivity.
  - compute_done.
Defined.

End Urls.

Section Fetching.

Lemma alloc_all_records (ms : list mirror) :
  ∀ s : state, ∃ (ls : list loc) (s1 : state),
    alloc_all ms s = (Ret ls, s1)
    ∧ Forall2 (fun l m => heap s1 !! l = Some m) ls ms
    ∧ (∀ l m, heap s !! l = Some m → heap s1 !! l = Some m)
    ∧ out s1 = out s ∧ requests s1 = requests s ∧ ticks s1 = ticks s.
Proof.
  induction ms as [|m ms IH]; intros s.
  { exists [], s. by repeat split. }
  cbn [alloc_all]. unfold mbind at 1, eff_bind at 1. unfold alloc at 1.
  set (l0 := fresh (dom (heap s))).
  assert (heap s !! l0 = None) as Hl0 by (apply not_elem_of_dom, is_fresh).
  destruct (IH (State (<[l0:=m]> (heap s)) (out s) (requests s) (ticks s)))
    as (ls & s1 & Hrest & Hall & Hold & Ho & Hq & Ht).
  cbn [heap out requests ticks] in Hold, Ho, Hq, Ht.
  exists (l0 :: ls), s1. unfold mbind, eff_bind. rewrite Hrest.
  split; [done |]. split; [| split; [| done]].
  - constructor; [| done]. apply Hold. by rewrite lookup_insert_eq.
  - intros l m' Hl. apply Hold. rewrite lookup_insert_ne; [done |].
    intros <-. congruence.
Qed.

Lemma mirrorlist_url_parts (w : world) :
  create_connection w mirrorlist_url
  = match parse_host w "xmirror.voidlinux.org" with
    | Some name => Ret (mirrorlist_conn name, "v0/mirrors.json")
    | None => Raise InvalidURL
    end.
Proof.
  unfold create_connection, HTTPConnection.
  change (PyStr.startswith "https://" mirrorlist_url) with true. cbv iota.
  change (PyStr.split_once "/" (PyStr.drop 8 mirrorlist_url))
    with (Some ("xmirror.voidlinux.org", "v0/mirrors.json")).
  cbv beta iota. by destruct (parse_host w "xmirror.voidlinux.org").
Qed.

(** X3. [fetch_mirrorlist] asks [xmirror.voidlinux.org] over HTTPS for
    [/v0/mirrors.json], once. On status 200 with a body that decodes, it
    returns one new object per decoded record, in the order of the
    records: the objects are distinct, none of them existed before, the
    objects that existed are unchanged, and nothing is printed. *)
Theorem fetch_mirrorlist_allocates (w : world) (s : state) (name : string)
    (rsp : response) (raw : list Byte.byte) (records : list mirror) :
  parse_host w "xmirror.voidlinux.org" = Some name →
  serve w (requests s) (mirrorlist_conn name) mirrorlist_path = Reply rsp →
  status rsp = 200 →
  body rsp = Some raw →
  decode w raw = Some records →
  ∃ (all : list loc) (s1 : state),
    fetch_mirrorlist w mirrorlist_url s = (Ret all, s1)
    ∧ Forall2 (fun l m => heap s1 !! l = Some m) all records
    ∧ NoDup all
    ∧ (∀ l, l ∈ all → heap s !! l = None)
    ∧ (∀ l m, heap s !! l = Some m → heap s1 !! l = Some m)
    ∧ out s1 = out s ∧ requests s1 = S (requests s) ∧ ticks s1 = ticks s.
Proof.
  intros Hhost Hserve Hst Hbody Hdecode.
  unfold fetch_mirrorlist, mbind, eff_bind, of_result.
  rewrite mirrorlist_url_parts, Hhost. unfold request.
  change ("/" +:+ "v0/mirrors.json") with mirrorlist_path.
  rewrite Hserve, Hst, Hbody, Hdecode. cbn [Z.eqb Pos.eqb negb].
  destruct (alloc_all_records records
              (State (heap s) (out s) (S (requests s)) (ticks s)))
    as (all & s1 & Halloc & Hall & Hold & Ho & Hq & Ht).
  exists all, s1. rewrite Halloc.
  destruct (alloc_all_distinct _ _ _ _ Halloc) as (Hnd & Hnew & _).
  by repeat split.
Qed.

Lemma fetch_mirrorlist_allocates_witness :
  ∃ (all : list loc) (s1 : state),
    fetch_mirrorlist (Examples.world_of Examples.no_asia) mirrorlist_url initial
    = (Ret all, s1)
    ∧ Forall2 (fun l m => heap s1 !! l = Some m) all Examples.no_asia
    ∧ NoDup all
    ∧ (∀ l, l ∈ all → heap initial !! l = None)
    ∧ (∀ l m, heap initial !! l = Some m → heap s1 !! l = Some m)
    ∧ out s1 = out initial ∧ requests s1 = S (requests initial)
    ∧ ticks s1 = ticks initial.
Proof.
  apply (fetch_mirrorlist_allocates (Examples.world_of Examples.no_asia) initial
           "xmirror.voidlinux.org" (Response 200 None (Some (Examples.bytes 0)))
           (Examples.bytes 0) Examples.no_asia); reflexivity.
Defined.

Lemma fetch_mirrorlist_raise (w : world) (s s1 : state) (e : exn) :
  fetch_mirrorlist w mirrorlist_url s = (Raise e, s1) →
  heap s1 = heap s ∧ out s1 = out s.
Proof.
  unfold fetch_mirrorlist, mbind, eff_bind, of_result, request.
  destruct (create_connection w mirrorlist_url) as [[c path]|e0];
    [| by intros [= <- <-]].
  destruct (serve w (requests s) c _) as [rsp|]; [| by intros [= <- <-]].
  destruct (negb _); [by intros [= <- <-] |].
  destruct (body rsp) as [raw|]; [| by intros [= <- <-]].
  destruct (decode w raw) as [records|]; [| by intros [= <- <-]].
  destruct (alloc_all_records records
              (State (heap s) (out s) (S (requests s)) (ticks s)))
    as (all & s2 & Halloc & _).
  by rewrite Halloc.
Qed.

(** X4. When the mirror list cannot be fetched, [main] does nothing else,
    whatever the command line: it ends with the exception of
    [fetch_mirrorlist], no object exists and nothing was printed. A status
    other than 200 ends the process with status 1 and the message that
    gives the status code as the only output; a request that fails ends
    it with the uncaught exception. *)
Theorem mirror_list_failure_is_fatal (w : world) (a : args) :
  (∀ s e s1, fetch_mirrorlist w mirrorlist_url s = (Raise e, s1) →
     main w a s = (Raise e, s1) ∧ heap s1 = heap s ∧ out s1 = out s) ∧
  (∀ name rsp,
     parse_host w "xmirror.voidlinux.org" = Some name →
     serve w 0 (mirrorlist_conn name) mirrorlist_path = Reply rsp →
     status rsp ≠ 200 →
     run w a = (Exit 1, [Stderr (fetch_error (status rsp) +:+ PyStr.nl)])) ∧
  (∀ name,
     parse_host w "xmirror.voidlinux.org" = Some name →
     serve w 0 (mirrorlist_conn name) mirrorlist_path = Failure →
     run w a = (Crash NetworkError, [])).
Proof.
  assert (∀ s e s1, fetch_mirrorlist w mirrorlist_url s = (Raise e, s1) →
            main w a s = (Raise e, s1)) as Hmain.
  { intros s e s1 Hfetch. unfold main, mbind, eff_bind. by rewrite Hfetch. }
  split; [| split].
  - intros s e s1 Hfetch. split; [by apply Hmain |].
    by apply fetch_mirrorlist_raise in Hfetch.
  - intros name rsp Hhost Hserve Hst.
    assert (fetch_mirrorlist w mirrorlist_url initial
            = (Raise (SystemExit (fetch_error (status rsp))), State ∅ [] 1 0)) as Hfetch.
    { unfold fetch_mirrorlist, mbind, eff_bind, of_result.
      rewrite mirrorlist_url_parts, Hhost. unfold request.
      change ("/" +:+ "v0/mirrors.json") with mirrorlist_path.
      cbn [initial requests]. rewrite Hserve.
      apply Z.eqb_neq in Hst. by rewrite Hst. }
    unfold run. by rewrite (Hmain _ _ _ Hfetch).
  - intros name Hhost Hserve.
    assert (fetch_mirrorlist w mirrorlist_url initial
            = (Raise NetworkError, State ∅ [] 1 0)) as Hfetch.
    { unfold fetch_mirrorlist, mbind, eff_bind, of_result.
      rewrite mirrorlist_url_parts, Hhost. unfold request.
      change ("/" +:+ "v0/mirrors.json") with mirrorlist_path.
      cbn [initial requests]. by rewrite Hserve. }
    unfold run. by rewrite (Hmain _ _ _ Hfetch).
Qed.

Lemma mirror_list_failure_is_fatal_witness :
  run MoreExamples.unavailable (Examples.flags false "EU" (Some 1) true)
  = (Exit 1, [Stderr (fetch_error 503 +:+ PyStr.nl)]).
Proof.
  destruct (mirror_list_failure_is_fatal MoreExamples.unavailable
              (Examples.flags false "EU" (Some 1) true)) as (_ & Hstatus & _).
  apply (Hstatus "xmirror.voidlinux.org" (Response 503 None (Some []))).
  - reflexivity.
  - reflexivity.
  - discriminate.
Defined.

End Fetching.

Section Listing.

Lemma only_prints_ret {A} (a : A) : only_prints (mret a).
Proof. intros s. exists []. by rewrite printed_nil. Qed.

Lemma only_prints_raise {A} (e : exn) : only_prints (raise (A := A) e).
Proof. intros s. exists []. by rewrite printed_nil. Qed.

Lemma only_prints_gets {A} (f : state → A) : only_prints (gets f).
Proof. intros s. exists []. by rewrite printed_nil. Qed.

Lemma only_prints_print_end (text e : string) : only_prints (print_end text e).
Proof. intros s. exists [Stdout (text +:+ e)]. split; [done |]. by repeat constructor. Qed.

Lemma only_prints_bind {A B} (c : Eff state A) (k : A → Eff state B) :
  only_prints c → (∀ a, only_prints (k a)) → only_prints (c ≫= k).
Proof.
  intros Hc Hk s. unfold mbind, eff_bind.
  destruct (Hc s) as (evs1 & Hs1 & Hevs1).
  destruct (c s) as [[a|e] s1]; cbn [snd] in *; [| by exists evs1].
  destruct (Hk a s1) as (evs2 & Hs2 & Hevs2).
  exists (evs1 ++ evs2). rewrite Hs2, Hs1, printed_app.
  split; [done |]. by apply Forall_app.
Qed.

Lemma only_prints_for_each {A} (xs : list A) (body : A → Eff state unit) :
  (∀ x, only_prints (body x)) → only_prints (for_each xs body).
Proof.
  intros Hbody. induction xs as [|x xs IH]; [apply only_prints_ret |].
  cbn [for_each]. apply only_prints_bind; [done | by intros _].
Qed.

Lemma only_prints_mapM {A B} (f : A → Eff state B) (xs : list A) :
  (∀ x, only_prints (f x)) → only_prints (mapM f xs).
Proof.
  intros Hf. induction xs as [|x xs IH]; [apply only_prints_ret |].
  cbn [mapM]. apply only_prints_bind; [done |]. intros b.
  apply only_prints_bind; [done |]. intros bs. apply only_prints_ret.
Qed.

Lemma only_prints_ranked_table (results : list loc) : only_prints (ranked_table results).
Proof.
  apply only_prints_bind; [apply only_prints_print_end |]. intros _.
  apply only_prints_bind.
  { apply only_prints_bind.
    - apply only_prints_mapM. intros l.
      apply only_prints_bind; [apply only_prints_gets |]. intros m.
      apply only_prints_bind; [| intros k; apply only_prints_ret].
      unfold itemgetter_speed.
      destruct (speed m); [apply only_prints_ret | apply only_prints_raise].
    - intros keyed. case_match; [apply only_prints_raise | apply only_prints_ret]. }
  intros sorted. destruct sorted as [|l ls]; [apply only_prints_print_end |].
  apply only_prints_bind; [apply only_prints_print_end |]. intros _.
  apply only_prints_for_each. intros x.
  apply only_prints_bind; [apply only_prints_gets |]. intros m.
  apply only_prints_bind; [| intros row; apply only_prints_print_end].
  unfold benchmark_row.
  repeat case_match; apply only_prints_ret || apply only_prints_raise.
Qed.

Lemma rows_listed (mirrors : list loc) (s : state) :
  for_each mirrors (fun mirror => m ← deref mirror; print (list_mirrors_row m)) s
  = (Ret tt, printed s ((fun l => line (list_mirrors_row (heap s !!! l))) <$> mirrors)).
Proof.
  revert s. induction mirrors as [|l mirrors IH]; intros s.
  { cbn. by rewrite printed_nil. }
  cbn [for_each]. unfold mbind at 1, eff_bind at 1.
  unfold mbind at 1, eff_bind at 1, deref, gets. rewrite print_printed.
  rewrite (IH (printed s _)), printed_app. done.
Qed.

Lemma list_mirrors_printed (mirrors : list loc) (s : state) :
  list_mirrors mirrors s = (Ret tt, printed s (mirror_listing (heap s) mirrors)).
Proof.
  unfold list_mirrors, mirror_listing. destruct mirrors as [|l mirrors].
  { unfold mret, eff_ret. by rewrite printed_nil. }
  unfold mbind, eff_bind. fold list_mirrors_header. rewrite print_printed.
  fold (@mbind (Eff state) _). 
  pose proof (rows_listed (l :: mirrors) (printed s [line list_mirrors_header])) as Hrows.
  unfold mbind, eff_bind in Hrows. rewrite Hrows, printed_app. done.
Qed.






Lemma fetch_mirrorlist_cost (w : world) (url : string) (s s1 : state) (all : list loc) :
  fetch_mirrorlist w url s = (Ret all, s1) →
  requests s1 = S (requests s) ∧ ticks s1 = ticks s.
Proof.
  unfold fetch_mirrorlist, mbind, eff_bind, of_result, request.
  destruct (create_connection w url) as [[c path]|e]; [| done].
  destruct (serve w (requests s) c _) as [rsp|]; [| done].
  destruct (negb _); [done |].
  destruct (body rsp) as [raw|]; [| done].
  destruct (decode w raw) as [records|]; [| done].
  destruct (alloc_all_records records
              (State (heap s) (out s) (S (requests s)) (ticks s)))
    as (all' & s2 & Halloc & _ & _ & _ & Hq & Ht).
  rewrite Halloc. by intros [= <- <-].
Qed.

(** X6. With [--list-regions] or [--list-mirrors] no mirror is ever
    contacted: after the mirror list is fetched, [main] only writes on
    standard output. The run makes exactly one request, never reads the
    clock and leaves every mirror object as decoded, also when it ends on
    an unsupported region. *)
Theorem listing_contacts_no_mirror (w : world) (a : args) (s s1 s' : state)
    (all : list loc) (r : result unit) :
  fetch_mirrorlist w mirrorlist_url s = (Ret all, s1) →
  arg_list_regions a = true ∨ arg_list_mirrors a = true →
  main w a s = (r, s') →
  (∃ evs, s' = printed s1 evs ∧ Forall is_stdout evs)
  ∧ heap s' = heap s1
  ∧ requests s' = S (requests s)
  ∧ ticks s' = ticks s.
Proof.
  intros Hfetch Hmode Hmain.
  assert (∃ evs, s' = printed s1 evs ∧ Forall is_stdout evs) as (evs & -> & Hevs).
  { destruct (arg_list_regions a) eqn:Hflag.
    - rewrite (main_list_regions w a s s1 all Hfetch Hflag) in Hmain.
      injection Hmain as <- <-. eexists. split; [done |].
      destruct (sorted_regions _ _) as [|x xs]; cbn [region_listing].
      + by repeat constructor.
      + constructor; [done |]. apply Forall_fmap, Forall_true. done.
    - destruct Hmode as [? | Hlist]; [done |].
      rewrite (main_filters w a s s1 all Hfetch Hflag) in Hmain. cbv zeta in Hmain.
      assert (∀ mirrors, dispatch w a mirrors s1 = (r, s') →
                ∃ evs, s' = printed s1 evs ∧ Forall is_stdout evs) as Hdispatch.
      { intros mirrors. unfold dispatch. rewrite Hlist, list_mirrors_printed.
        intros [= <- <-]. eexists. split; [done |].
        destruct mirrors as [|x xs]; cbn [mirror_listing]; [constructor |].
        constructor; [done |]. apply Forall_fmap, Forall_true. done. }
      case_bool_decide; [| by eapply Hdispatch].
      destruct (first_unsupported _ _); [| by eapply Hdispatch].
      injection Hmain as <- <-. exists []. by rewrite printed_nil. }
  apply fetch_mirrorlist_cost in Hfetch as [Hq Ht].
  split; [by exists evs |]. by repeat split.
Qed.

Lemma listing_contacts_no_mirror_witness :
  requests (main (Examples.world_of Examples.mixed)
              (Examples.flags false "EU" None true) initial).2 = 1%nat
  ∧ ticks (main (Examples.world_of Examples.mixed)
             (Examples.flags false "EU" None true) initial).2 = 0%nat.
Proof.
  destruct (listing_contacts_no_mirror
              (Examples.world_of Examples.mixed) (Examples.flags false "EU" None true)
              initial
              (Examples.fetched (Examples.world_of Examples.mixed)).2
              (main (Examples.world_of Examples.mixed)
                 (Examples.flags false "EU" None true) initial).2
              (Examples.fetched (Examples.world_of Examples.mixed)).1
              (main (Examples.world_of Examples.mixed)
                 (Examples.flags false "EU" None true) initial).1)
    as (_ & _ & Hq & Ht).
  - vm_compute. reflexivity.
  - by right.
  - apply surjective_pairing.
  - by split.
Defined.

End Listing.

Section Attempts.

Context (w : world).

Lemma rank_mirror_cost (mirror : loc) (pkg_path : string) (s s1 : state)
    (r : result (option float)) :
  rank_mirror w mirror pkg_path s = (r, s1) →
  (requests s ≤ requests s1 ≤ requests s + MAX_REDIRECTS)%nat
  ∧ (ticks s < ticks s1 ≤ ticks s + 2)%nat.
Proof.
  rewrite rank_mirror_handler, rank_mirror_try_unfold.
  destruct (redirect_loop w MAX_REDIRECTS _ _) as [[[]|e] [lc s2]] eqn:Hloop;
    apply redirect_loop_inv in Hloop as (_ & _ & Ht & Hq & _); cbn in Ht, Hq.
  - destruct (measure lc _ _) as [[v|e] [lc3 s3]] eqn:Hm;
      pose proof (measure_state _ _ _ _ _ Hm) as [= -> ->].
    + intros [= <- <-]. cbn. lia.
    + unfold handler. repeat case_match; intros [= <- <-]; cbn; lia.
  - unfold handler. repeat case_match; intros [= <- <-]; cbn; lia.
Qed.

Lemma benchmark_loop_cost (pkg_path : string) (total : nat) (mirrors : list loc) :
  ∀ (index : nat) (results : list loc) (s s' : state) (r : result (list loc)),
    benchmark_loop w pkg_path total index mirrors results s = (r, s') →
    (requests s ≤ requests s' ≤ requests s + MAX_REDIRECTS * length mirrors)%nat
    ∧ (ticks s ≤ ticks s' ≤ ticks s + 2 * length mirrors)%nat
    ∧ (∀ results', r = Ret results' → (ticks s + length mirrors ≤ ticks s')%nat).
Proof.
  induction mirrors as [|mirror rest IH]; intros index results s s' r.
  { intros [= <- <-]. cbn. split; [lia |]. split; [lia |]. intros; lia. }
  destruct (rank_mirror w mirror pkg_path s) as [[v|e] s1] eqn:Hrank.
  - rewrite (benchmark_loop_ret w _ _ _ _ _ _ _ _ _ Hrank). intros Hloop.
    apply rank_mirror_cost in Hrank as [Hq1 Ht1].
    apply IH in Hloop as (Hq2 & Ht2 & Hdone). cbn [recorded requests ticks] in Hq2, Ht2, Hdone.
    unfold MAX_REDIRECTS in *. cbn [length].
    split; [lia |]. split; [lia |]. intros results' Hr.
    specialize (Hdone results' Hr). lia.
  - rewrite (benchmark_loop_raise w _ _ _ _ _ _ _ _ _ Hrank). intros [= <- <-].
    apply rank_mirror_cost in Hrank as [Hq1 Ht1].
    unfold MAX_REDIRECTS in *. cbn [length]. split; [lia |]. split; [lia |]. done.
Qed.

End Attempts.

(** X7. A benchmark of [n] mirrors makes at most [3 n] requests and reads
    the clock at most [2 n] times, whatever the servers answer and however
    the run ends; when it prints its table it has read the clock at least
    once per mirror. *)
Theorem benchmark_cost (w : world) (mirrors : list loc) (s s' : state) (r : result unit) :
  benchmark_mirrors w mirrors s = (r, s') →
  (requests s ≤ requests s' ≤ requests s + MAX_REDIRECTS * length mirrors)%nat
  ∧ (ticks s ≤ ticks s' ≤ ticks s + 2 * length mirrors)%nat
  ∧ (r = Ret tt → (ticks s + length mirrors ≤ ticks s')%nat).
Proof.
  rewrite benchmark_mirrors_unfold.
  destruct (benchmark_loop w _ _ _ _ _ _) as [[results|e] s1] eqn:Hloop;
    apply benchmark_loop_cost in Hloop as (Hq & Ht & Hdone);
    cbn [printed requests ticks] in Hq, Ht, Hdone.
  - intros Htable.
    destruct (only_prints_ranked_table results s1) as (evs & Hs' & _).
    rewrite Htable in Hs'. cbn [snd] in Hs'. subst s'. cbn [printed requests ticks].
    split; [done |]. split; [done |]. intros _. by eapply Hdone.
  - intros [= <- <-]. split; [done |]. split; [done |]. done.
Qed.

Lemma benchmark_cost_witness :
  (requests (Examples.fetched (Examples.world_of Examples.mixed)).2
   ≤ requests (benchmark_mirrors (Examples.world_of Examples.mixed) [0; 1; 2; 3]%nat
                 (Examples.fetched (Examples.world_of Examples.mixed)).2).2
   ≤ requests (Examples.fetched (Examples.world_of Examples.mixed)).2
     + MAX_REDIRECTS * 4)%nat.
Proof.
  destruct (benchmark_cost (Examples.world_of Examples.mixed) [0; 1; 2; 3]%nat
              (Examples.fetched (Examples.world_of Examples.mixed)).2
              (benchmark_mirrors (Examples.world_of Examples.mixed) [0; 1; 2; 3]%nat
                 (Examples.fetched (Examples.world_of Examples.mixed)).2).2
              (benchmark_mirrors (Examples.world_of Examples.mixed) [0; 1; 2; 3]%nat
                 (Examples.fetched (Examples.world_of Examples.mixed)).2).1)
    as (Hq & _ & _).
  - apply surjective_pairing.
  - exact Hq.
Defined.

(** X8. When building the first connection of a mirror raises an ordinary
    exception, as [http.client] does for a host text it rejects, the
    handler of [rank_mirror] reads [conn] before it was ever bound: the
    function raises [UnboundLocalError] instead of returning [None], and
    the loop of [benchmark_mirrors] ends with it, leaving the mirrors
    after this one untried. *)
Theorem rejected_host_ends_benchmark (w : world) (mirror : loc) (pkg_path : string)
    (s : state) (e : exn) :
  create_connection w (target_url (heap s !!! mirror) pkg_path) = Raise e →
  is_Exception e = true →
  rank_mirror w mirror pkg_path s = (Raise UnboundLocalError, after_ticks 1 s)
  ∧ ∀ (total index : nat) (rest results : list loc),
      benchmark_loop w pkg_path total index (mirror :: rest) results s
      = (Raise UnboundLocalError, after_ticks 1 s).
Proof.
  intros Hconn He.
  assert (rank_mirror w mirror pkg_path s = (Raise UnboundLocalError, after_ticks 1 s))
    as Hrank.
  { rewrite rank_mirror_handler, rank_mirror_try_unfold. unfold MAX_REDIRECTS.
    rewrite (redirect_loop_unbound w _ _ _ _ _ Hconn). unfold handler.
    by rewrite He. }
  split; [done |]. intros total index rest results.
  by rewrite (benchmark_loop_raise w _ _ _ _ _ _ _ _ _ Hrank).
Qed.

Lemma rejected_host_ends_benchmark_witness :
  rank_mirror (MoreExamples.strict_world [MoreExamples.mirror_bad_port]) 0%nat
    ("/current/" +:+ PKG)
    (Examples.fetched (MoreExamples.strict_world [MoreExamples.mirror_bad_port])).2
  = (Raise UnboundLocalError,
     after_ticks 1
       (Examples.fetched (MoreExamples.strict_world [MoreExamples.mirror_bad_port])).2)
  ∧ run (MoreExamples.strict_world [MoreExamples.mirror_bad_port; Examples.mirror_b])
        (Examples.flags false "" None false)
    = (Crash UnboundLocalError, [line "Found 2 mirrors"]).
Proof.
  split.
  - destruct (rejected_host_ends_benchmark
                (MoreExamples.strict_world [MoreExamples.mirror_bad_port]) 0%nat
                ("/current/" +:+ PKG)
                (Examples.fetched
                   (MoreExamples.strict_world [MoreExamples.mirror_bad_port])).2
                InvalidURL) as [Hrank _].
    + vm_compute. reflexivity.
    + reflexivity.
    + exact Hrank.
  - vm_compute. reflexivity.
Defined.

(** X9. A first answer that is a redirect without a usable target. Without
    a [Location] header, or with one that has a scheme but no slash after
    the host, the attempt is a failure of this mirror after one request,
    and the line printed names the host that sent the redirect. With a
    [Location] that starts with neither scheme, a relative one for
    instance, [create_connection] ends the process: the whole benchmark
    stops with the fatal error that names the target. *)
Theorem redirect_without_target (w : world) (mirror : loc) (pkg_path : string)
    (s : state) (c : connection) (path : string) (r0 : response) :
  create_connection w (target_url (heap s !!! mirror) pkg_path) = Ret (c, path) →
  serve w (requests s) c ("/" +:+ path) = Reply r0 →
  is_redirect (status r0) = true →
  (header_location r0 = None →
     rank_mirror w mirror pkg_path s
     = (Ret None, printed (after_requests 1 (after_ticks 1 s)) [failed_utterly c])) ∧
  (∀ secure h, header_location r0 = Some (scheme secure +:+ h) → "/"%char ∉ chars h →
     rank_mirror w mirror pkg_path s
     = (Ret None, printed (after_requests 1 (after_ticks 1 s)) [failed_utterly c])) ∧
  (∀ u, header_location r0 = Some u →
     PyStr.startswith "https://" u = false → PyStr.startswith "http://" u = false →
     rank_mirror w mirror pkg_path s
     = (Raise (SystemExit ("Error: Invalid url " +:+ u)),
        after_requests 1 (after_ticks 1 s))
     ∧ ∀ (total index : nat) (rest results : list loc),
         benchmark_loop w pkg_path total index (mirror :: rest) results s
         = (Raise (SystemExit ("Error: Invalid url " +:+ u)),
            after_requests 1 (after_ticks 1 s))).
Proof.
  intros Hconn Hserve Hred.
  assert (∀ e, redirect_loop w 2 (header_location r0)
                 (Locals (Some c) (Some (r0, true)), after_requests 1 (after_ticks 1 s))
               = (Raise e,
                  (Locals (Some c) (Some (r0, true)), after_requests 1 (after_ticks 1 s))) →
               rank_mirror w mirror pkg_path s
               = handler e (Locals (Some c) (Some (r0, true)))
                   (after_requests 1 (after_ticks 1 s))) as Hstep.
  { intros e Hloop. rewrite rank_mirror_handler, rank_mirror_try_unfold.
    unfold MAX_REDIRECTS.
    rewrite (redirect_loop_redirect w _ _ _ (after_ticks 1 s) c path r0 Hconn Hserve Hred).
    by rewrite Hloop. }
  split; [| split].
  - intros Hloc. rewrite (Hstep AttributeError); [done |].
    by rewrite redirect_loop_S, Hloc.
  - intros secure h Hloc Hno. rewrite (Hstep ValueError); [done |].
    rewrite redirect_loop_S, Hloc.
    destruct (create_connection_errors w (scheme secure +:+ h)) as [_ Hbare].
    by rewrite (Hbare secure h eq_refl Hno).
  - intros u Hloc Hs Hp.
    assert (rank_mirror w mirror pkg_path s
            = (Raise (SystemExit ("Error: Invalid url " +:+ u)),
               after_requests 1 (after_ticks 1 s))) as Hrank.
    { rewrite (Hstep (SystemExit ("Error: Invalid url " +:+ u))); [done |].
      rewrite redirect_loop_S, Hloc.
      unfold create_connection. by rewrite Hs, Hp. }
    split; [done |]. intros total index rest results.
    by rewrite (benchmark_loop_raise w _ _ _ _ _ _ _ _ _ Hrank).
Qed.

Lemma redirect_without_target_witness :
  rank_mirror (MoreExamples.world_of [MoreExamples.mirror_nowhere]) 0%nat
    ("/current/" +:+ PKG)
    (Examples.fetched (MoreExamples.world_of [MoreExamples.mirror_nowhere])).2
  = (Ret None,
     printed (after_requests 1 (after_ticks 1
        (Examples.fetched (MoreExamples.world_of [MoreExamples.mirror_nowhere])).2))
       [line "ERROR: nowhere.example: failed utterly"])
  ∧ rank_mirror (MoreExamples.world_of [MoreExamples.mirror_relative]) 0%nat
      ("/current/" +:+ PKG)
      (Examples.fetched (MoreExamples.world_of [MoreExamples.mirror_relative])).2
    = (Raise (SystemExit "Error: Invalid url /elsewhere/pkg"),
       after_requests 1 (after_ticks 1
         (Examples.fetched (MoreExamples.world_of [MoreExamples.mirror_relative])).2)).
Proof.
  split.
  - destruct (redirect_without_target
                (MoreExamples.world_of [MoreExamples.mirror_nowhere]) 0%nat
                ("/current/" +:+ PKG)
                (Examples.fetched (MoreExamples.world_of [MoreExamples.mirror_nowhere])).2
                (Connection true "nowhere.example" "nowhere.example")
                "current/runit-2.2.0_2.x86_64.xbps"
                (Response 302 None (Some (Examples.bytes 2))))
      as (Hnone & _ & _).
    + vm_compute. reflexivity.
    + vm_compute. reflexivity.
    + reflexivity.
    + apply Hnone. reflexivity.
  - destruct (redirect_without_target
                (MoreExamples.world_of [MoreExamples.mirror_relative]) 0%nat
                ("/current/" +:+ PKG)
                (Examples.fetched (MoreExamples.world_of [MoreExamples.mirror_relative])).2
                (Connection true "relative.example" "relative.example")
                "current/runit-2.2.0_2.x86_64.xbps"
                (Response 301 (Some "/elsewhere/pkg") (Some (Examples.bytes 2))))
      as (_ & _ & Hfatal).
    + vm_compute. reflexivity.
    + vm_compute. reflexivity.
    + reflexivity.
    + destruct (Hfatal "/elsewhere/pkg") as [Hrank _]; reflexivity || exact Hrank.
Defined.

(** X10. A first answer that is not a redirect settles the attempt after
    one request and two readings of the clock. With status 200, a body
    that can be read and a non-zero elapsed time, the speed is the length
    of the body over the elapsed time and nothing is printed. With status
    200 and the same reading of the clock twice, the division by zero is
    caught and the mirror fails. With any other status, or a body that
    cannot be read, the mirror fails. *)
Theorem direct_answer (w : world) (mirror : loc) (pkg_path : string) (s : state)
    (c : connection) (path : string) (r0 : response) :
  let ttime := sub (clock w (S (ticks s))) (clock w (ticks s)) in
  let failed := (Ret None, printed (after_ticks 2 (after_requests 1 s)) [failed_utterly c]) in
  create_connection w (target_url (heap s !!! mirror) pkg_path) = Ret (c, path) →
  serve w (requests s) c ("/" +:+ path) = Reply r0 →
  is_redirect (status r0) = false →
  (∀ data, status r0 = 200 → body r0 = Some data →
     is_inf (of_int (Z.of_nat (length data))) = false →
     (is_zero ttime = false →
        rank_mirror w mirror pkg_path s
        = (Ret (Some (div (of_int (Z.of_nat (length data))) ttime)),
           after_ticks 2 (after_requests 1 s)))
     ∧ (is_zero ttime = true → rank_mirror w mirror pkg_path s = failed)) ∧
  (status r0 ≠ 200 → rank_mirror w mirror pkg_path s = failed) ∧
  (body r0 = None → rank_mirror w mirror pkg_path s = failed).
Proof.
  intros ttime failed Hconn Hserve Hred.
  assert (rank_mirror w mirror pkg_path s
          = match measure (Locals (Some c) (Some (r0, false))) ttime
                    (Locals (Some c) (Some (r0, false)),
                     after_ticks 1 (after_requests 1 (after_ticks 1 s))) with
            | (Ret speed, (_, s')) => (Ret (Some speed), s')
            | (Raise e, (lc, s')) => handler e lc s'
            end) as ->.
  { rewrite rank_mirror_handler, rank_mirror_try_unfold. unfold MAX_REDIRECTS.
    by rewrite (redirect_loop_break w _ _ _ (after_ticks 1 s) c path r0 Hconn Hserve Hred). }
  unfold measure, read, truediv, mbind, eff_bind, mret, eff_ret, raise. cbn [resp].
  split; [| split].
  - intros data Hst Hbody Hinf. rewrite Hbody, Hst, Hinf. cbn [Z.eqb Pos.eqb negb].
    split; intros Hzero; rewrite Hzero; done.
  - intros Hst. apply Z.eqb_neq in Hst. rewrite Hst. cbn [negb].
    by destruct (body r0).
  - intros Hbody. by rewrite Hbody.
Qed.

Lemma direct_answer_witness :
  rank_mirror (MoreExamples.world_of [MoreExamples.mirror_quick]) 0%nat
    ("/current/" +:+ PKG)
    (Examples.fetched (MoreExamples.world_of [MoreExamples.mirror_quick])).2
  = (Ret (Some (of_int 7)),
     after_ticks 2 (after_requests 1
       (Examples.fetched (MoreExamples.world_of [MoreExamples.mirror_quick])).2))
  ∧ rank_mirror (MoreExamples.frozen_world [MoreExamples.mirror_quick]) 0%nat
      ("/current/" +:+ PKG)
      (Examples.fetched (MoreExamples.frozen_world [MoreExamples.mirror_quick])).2
    = (Ret None,
       printed (after_ticks 2 (after_requests 1
          (Examples.fetched (MoreExamples.frozen_world [MoreExamples.mirror_quick])).2))
         [line "ERROR: quick.example: failed utterly"]).
Proof.
  split.
  - destruct (direct_answer
                (MoreExamples.world_of [MoreExamples.mirror_quick]) 0%nat
                ("/current/" +:+ PKG)
                (Examples.fetched (MoreExamples.world_of [MoreExamples.mirror_quick])).2
                (Connection false "quick.example" "quick.example")
                "void/current/runit-2.2.0_2.x86_64.xbps"
                (Response 200 None (Some (Examples.bytes 7))))
      as (Hok & _ & _).
    + vm_compute. reflexivity.
    + vm_compute. reflexivity.
    + reflexivity.
    + destruct (Hok (Examples.bytes 7) eq_refl eq_refl eq_refl) as [Hspeed _].
      rewrite Hspeed by (vm_compute; reflexivity). vm_compute. reflexivity.
  - destruct (direct_answer
                (MoreExamples.frozen_world [MoreExamples.mirror_quick]) 0%nat
                ("/current/" +:+ PKG)
                (Examples.fetched (MoreExamples.frozen_world [MoreExamples.mirror_quick])).2
                (Connection false "quick.example" "quick.example")
                "void/current/runit-2.2.0_2.x86_64.xbps"
                (Response 200 None (Some (Examples.bytes 7))))
      as (Hok & _ & _).
    + vm_compute. reflexivity.
    + vm_compute. reflexivity.
    + reflexivity.
    + destruct (Hok (Examples.bytes 7) eq_refl eq_refl eq_refl) as [_ Hzero].
      rewrite Hzero by (vm_compute; reflexivity). vm_compute. reflexivity.
Defined.

Section Success.

Context (w : world).

Lemma measure_read {S} (lc : locals) (t : float) (ls ls' : S) (v : float) :
  measure lc t ls = (Ret v, ls') →
  ∃ rsp closed data,
    resp lc = Some (rsp, closed) ∧ status rsp = 200
    ∧ (if closed then data = [] else body rsp = Some data)
    ∧ v = div (of_int (Z.of_nat (length data))) t
    ∧ is_zero t = false.
Proof.
  unfold measure, read, truediv, mbind, eff_bind, raise, mret, eff_ret.
  destruct (resp lc) as [[rsp closed]|]; [| done].
  destruct closed.
  - destruct (status rsp =? 200) eqn:Hst; [| done]. cbn [negb].
    repeat case_match; intros ?; simplify_eq.
    exists rsp, true, []. apply Z.eqb_eq in Hst. by repeat split.
  - destruct (body rsp) as [data|] eqn:Hbody; [| done].
    destruct (status rsp =? 200) eqn:Hst; [| done]. cbn [negb].
    repeat case_match; intros ?; simplify_eq.
    exists rsp, false, data. apply Z.eqb_eq in Hst. by repeat split.
Qed.

(** X11. Every speed that [rank_mirror] returns is the length of the body
    of the last answer received, which has status 200, divided by the
    difference of two successive readings of the clock, which is not zero;
    the attempt read the clock exactly twice, printed nothing and changed
    no object. *)
Theorem speed_is_length_over_elapsed (mirror : loc) (pkg_path : string)
    (s s' : state) (v : float) :
  rank_mirror w mirror pkg_path s = (Ret (Some v), s') →
  ∃ (c : connection) (path : string) (rsp : response) (data : list Byte.byte),
    serve w (requests s' - 1) c path = Reply rsp
    ∧ status rsp = 200
    ∧ body rsp = Some data
    ∧ v = div (of_int (Z.of_nat (length data)))
              (sub (clock w (S (ticks s))) (clock w (ticks s)))
    ∧ is_zero (sub (clock w (S (ticks s))) (clock w (ticks s))) = false
    ∧ ticks s' = (2 + ticks s)%nat
    ∧ heap s' = heap s ∧ out s' = out s.
Proof.
  rewrite rank_mirror_handler, rank_mirror_try_unfold.
  destruct (redirect_loop w MAX_REDIRECTS _ _) as [[[]|e] [lc s2]] eqn:Hloop; cycle 1.
  { unfold handler. repeat case_match; intros ?; by simplify_eq. }
  destruct (measure lc _ _) as [[v'|e] [lc3 s3]] eqn:Hm; cycle 1.
  { unfold handler. repeat case_match; intros ?; by simplify_eq. }
  intros [= -> ->].
  pose proof (measure_state _ _ _ _ _ Hm) as [= -> ->].
  apply measure_read in Hm as (rsp & closed & data & Hresp & Hst & Hdata & Hv & Hzero).
  apply redirect_loop_inv in Hloop as (Hh & Ho & Ht & _ & _ & _ & Hret).
  cbn in Hh, Ho, Ht.
  destruct (Hret eq_refl)
    as [(? & _) | (c & path & rsp' & cl & _ & Hresp' & _ & Hserve & Hcl)]; [done |].
  rewrite Hresp in Hresp'. injection Hresp' as <- <-.
  assert (closed = false) as ->.
  { rewrite <- Hcl. destruct (is_redirect (status rsp)) eqn:Hred; [| done].
    apply is_redirect_not_200 in Hred. apply Z.eqb_neq in Hred. done. }
  rewrite Ht in Hv, Hzero.
  exists c, path, rsp, data. cbn [after_ticks requests ticks heap out].
  rewrite Ht. by repeat split.
Qed.

End Success.

Lemma speed_is_length_over_elapsed_witness :
  ∃ (c : connection) (path : string) (rsp : response) (data : list Byte.byte),
    serve (Examples.world_of Examples.mixed)
      (requests (after_ticks 2 (after_requests 3
         (Examples.fetched (Examples.world_of Examples.mixed)).2)) - 1) c path
    = Reply rsp
    ∧ status rsp = 200
    ∧ body rsp = Some data
    ∧ of_int 5
      = div (of_int (Z.of_nat (length data)))
            (sub (clock (Examples.world_of Examples.mixed)
                    (S (ticks (Examples.fetched (Examples.world_of Examples.mixed)).2)))
                 (clock (Examples.world_of Examples.mixed)
                    (ticks (Examples.fetched (Examples.world_of Examples.mixed)).2)))
    ∧ is_zero (sub (clock (Examples.world_of Examples.mixed)
                      (S (ticks (Examples.fetched (Examples.world_of Examples.mixed)).2)))
                   (clock (Examples.world_of Examples.mixed)
                      (ticks (Examples.fetched (Examples.world_of Examples.mixed)).2)))
      = false
    ∧ ticks (after_ticks 2 (after_requests 3
         (Examples.fetched (Examples.world_of Examples.mixed)).2))
      = (2 + ticks (Examples.fetched (Examples.world_of Examples.mixed)).2)%nat
    ∧ heap (after_ticks 2 (after_requests 3
         (Examples.fetched (Examples.world_of Examples.mixed)).2))
      = heap (Examples.fetched (Examples.world_of Examples.mixed)).2
    ∧ out (after_ticks 2 (after_requests 3
         (Examples.fetched (Examples.world_of Examples.mixed)).2))
      = out (Examples.fetched (Examples.world_of Examples.mixed)).2.
Proof.
  apply (speed_is_length_over_elapsed (Examples.world_of Examples.mixed) 0%nat
           ("/current/" +:+ PKG)
           (Examples.fetched (Examples.world_of Examples.mixed)).2).
  vm_compute. reflexivity.
Defined.

Section Ties.

Lemma filter_fmap {A B} (f : A → B) (P : B → Prop) `{!∀ b, Decision (P b)} (l : list A) :
  filter P (f <$> l) = f <$> filter (fun a => P (f a)) l.
Proof.
  induction l as [|a l IH]; [done |].
  cbn [fmap list_fmap]. rewrite !filter_cons.
  destruct (decide (P (f a))); cbn [fmap list_fmap]; by rewrite <- IH.
Qed.

(** An entry passes the entries that are less than it, and none of those
    it passes is in its own class [P]. *)
Lemma insert_desc_filter (P : option float * loc → Prop) `{!∀ e, Decision (P e)}
    (x : option float * loc) (l : list (option float * loc)) :
  (∀ y, y ∈ l → P x → P y → key_lt x.1 y.1 = false) →
  filter P (insert_desc x l) = filter P (x :: l).
Proof.
  induction l as [|y l IH]; intros Hclass; [done |].
  cbn [insert_desc]. destruct (key_lt x.1 y.1) eqn:Hlt; [| done].
  rewrite (filter_cons _ y), IH, !filter_cons.
  - destruct (decide (P x)) as [Hx|Hx]; [| done].
    destruct (decide (P y)) as [Hy|Hy]; [| done].
    rewrite (Hclass y) in Hlt; [done | by left | done | done].
  - intros z Hz. apply Hclass. by right.
Qed.

Lemma sorted_desc_filter (P : option float * loc → Prop) `{!∀ e, Decision (P e)}
    (l : list (option float * loc)) :
  (∀ a b, a ∈ l → b ∈ l → P a → P b → key_lt a.1 b.1 = false) →
  filter P (foldr insert_desc [] l) = filter P l.
Proof.
  induction l as [|x l IH]; intros Hclass; [done |].
  cbn [foldr]. rewrite insert_desc_filter, !filter_cons, IH; [done | |].
  - intros a b Ha Hb. apply Hclass; by right.
  - intros y Hy. rewrite sorted_desc_Permutation in Hy.
    apply Hclass; [by left | by right].
Qed.

Lemma ranked_ties (h : gmap loc mirror) (k : float) (results : list loc) :
  is_nan k = false →
  Forall (fun l => ∃ x, measured (h !!! l) = Some x ∧ is_nan x = false) results →
  filter (ties_with h k) (snd <$> foldr insert_desc [] (keyed_of h results))
  = filter (ties_with h k) results.
Proof.
  intros Hk Hall.
  rewrite filter_fmap, sorted_desc_filter, <- filter_fmap, keyed_of_snd; [done |].
  unfold keyed_of. intros a b Ha Hb [_ [Hak _]] [_ [_ Hkb]].
  apply list_elem_of_fmap in Ha as (la & -> & Hla).
  apply list_elem_of_fmap in Hb as (lb & -> & Hlb).
  rewrite Forall_forall in Hall.
  destruct (Hall la Hla) as (x & Hx & Hxn). destruct (Hall lb Hlb) as (y & Hy & Hyn).
  cbn [fst snd] in *.
  apply (key_not_lt_trans _ (Some k)); try done.
  - exists x. by rewrite Hx.
  - by exists k.
  - exists y. by rewrite Hy.
Qed.

End Ties.

Section Output.

Context (w : world).

Lemma benchmark_loop_progress (pkg_path : string) (total : nat) (mirrors : list loc) :
  ∀ (index : nat) (results results' : list loc) (s s' : state),
    NoDup mirrors →
    benchmark_loop w pkg_path total index mirrors results s = (Ret results', s') →
    ∃ chunks, Forall2 (attempt_report (heap s')) mirrors chunks
              ∧ out s' = out s ++ progress_report total index chunks.
Proof.
  induction mirrors as [|mirror rest IH]; intros index results results' s s' Hnd.
  { intros [= <- <-]. exists []. split; [constructor |]. by rewrite app_nil_r. }
  apply NoDup_cons in Hnd as [Hfresh Hnd].
  destruct (rank_mirror w mirror pkg_path s) as [[v|e] s1] eqn:Hrank; cycle 1.
  { by rewrite (benchmark_loop_raise w _ _ _ _ _ _ _ _ _ Hrank). }
  rewrite (benchmark_loop_ret w _ _ _ _ _ _ _ _ _ Hrank). intros Hloop.
  pose proof (benchmark_loop_heap w _ _ _ _ _ _ _ _ Hloop) as (Hother & _ & _).
  specialize (Hother mirror Hfresh). cbn [recorded heap] in Hother.
  rewrite lookup_insert_eq in Hother. apply lookup_total_correct in Hother.
  destruct (IH _ _ _ _ _ Hnd Hloop) as (chunks & Hchunks & Hout).
  cbn [recorded out] in Hout.
  destruct (rank_mirror_outcome w mirror pkg_path s)
    as (s2 & _ & Ho & [[x Hr] | [[c Hr] | [[u Hr] | [Hr _]]]]);
    rewrite Hr in Hrank; simplify_eq.
  - exists ([] :: chunks). split.
    + constructor; [| done]. unfold attempt_report.
      by rewrite Hother, measured_set_speed.
    + rewrite Hout, Ho, <- app_assoc. done.
  - exists ([failed_utterly c] :: chunks). split.
    + constructor; [| done]. unfold attempt_report.
      rewrite Hother, measured_set_speed. by exists c.
    + rewrite Hout. cbn [printed out]. rewrite Ho, <- !app_assoc. done.
Qed.

(** Everything a benchmark that completes has written. *)
Lemma benchmark_output (mirrors : list loc) (s s' : state) :
  NoDup mirrors →
  benchmark_mirrors w mirrors s = (Ret tt, s') →
  ((∀ n, is_finite (clock w n) = true) →
   Forall (fun l => ∃ x, measured (heap s' !!! l) = Some x ∧ is_nan x = false)
     (working (heap s') mirrors))
  ∧ ∃ chunks,
      Forall2 (attempt_report (heap s')) mirrors chunks
      ∧ out s'
        = out s
          ++ line ("Found " +:+ pretty (length mirrors) +:+ " mirrors")
          :: progress_report (length mirrors) 0 chunks
          ++ line ""
          :: table_lines (heap s')
               (snd <$> foldr insert_desc []
                          (keyed_of (heap s') (working (heap s') mirrors))).
Proof.
  intros Hnd. rewrite benchmark_mirrors_unfold.
  destruct (benchmark_loop w _ _ _ _ _ _) as [[results|e] s1] eqn:Hloop; [| done].
  destruct (benchmark_loop_results w _ _ _ _ _ _ _ _ Hnd Hloop) as [Hres Hnan].
  cbn [app] in Hres.
  destruct (benchmark_loop_progress _ _ _ _ _ _ _ _ Hnd Hloop) as (chunks & Hchunks & Hout).
  cbn [printed out] in Hout.
  rewrite ranked_table_printed; cycle 1.
  { rewrite Hres. apply Forall_forall. intros l Hl.
    by apply list_elem_of_filter in Hl as [? _]. }
  intros [= <-]. cbn [printed heap out]. unfold working. rewrite <- Hres. split.
  - intros Hclock. rewrite Hres. apply Forall_forall. intros l Hl.
    apply list_elem_of_filter in Hl as [[x Hx] Hl]. exists x. split; [done |].
    by apply (Hnan Hclock l x).
  - exists chunks. split; [done |]. rewrite Hout, <- !app_assoc. done.
Qed.

End Output.

(** X12. The sort of the results is stable: in the table of a benchmark
    that completes, the mirrors whose speed equals a given number stand in
    the order of the mirror list. The mirrors are distinct objects and
    the clock reads numbers. *)
Theorem equal_speeds_keep_list_order (w : world) (mirrors : list loc) (s s' : state)
    (k : float) :
  NoDup mirrors →
  (∀ n, is_finite (clock w n) = true) →
  is_nan k = false →
  benchmark_mirrors w mirrors s = (Ret tt, s') →
  ∃ ranked before,
    out s' = out s ++ before ++ table_lines (heap s') ranked
    ∧ ranked ≡ₚ working (heap s') mirrors
    ∧ filter (ties_with (heap s') k) ranked = filter (ties_with (heap s') k) mirrors.
Proof.
  intros Hnd Hclock Hk Hrun.
  destruct (benchmark_output w mirrors s s' Hnd Hrun) as (Hnum & chunks & _ & Hout).
  specialize (Hnum Hclock).
  exists (snd <$> foldr insert_desc [] (keyed_of (heap s') (working (heap s') mirrors))),
         (line ("Found " +:+ pretty (length mirrors) +:+ " mirrors")
          :: progress_report (length mirrors) 0 chunks ++ [line ""]).
  split; [| split].
  - rewrite Hout. cbn [app]. by rewrite <- app_assoc.
  - apply ranked_Permutation.
  - rewrite ranked_ties by done. unfold working. rewrite list_filter_filter.
    apply list_filter_iff. intros l. unfold ties_with. tauto.
Qed.

Lemma equal_speeds_keep_list_order_witness :
  ∃ ranked before,
    out (benchmark_mirrors
           (MoreExamples.world_of
              [MoreExamples.mirror_quick; MoreExamples.mirror_big;
               MoreExamples.mirror_twin])
           [0; 1; 2]%nat
           (Examples.fetched
              (MoreExamples.world_of
                 [MoreExamples.mirror_quick; MoreExamples.mirror_big;
                  MoreExamples.mirror_twin])).2).2
    = out (Examples.fetched
             (MoreExamples.world_of
                [MoreExamples.mirror_quick; MoreExamples.mirror_big;
                 MoreExamples.mirror_twin])).2
      ++ before
      ++ table_lines
           (heap (benchmark_mirrors
                    (MoreExamples.world_of
                       [MoreExamples.mirror_quick; MoreExamples.mirror_big;
                        MoreExamples.mirror_twin])
                    [0; 1; 2]%nat
                    (Examples.fetched
                       (MoreExamples.world_of
                          [MoreExamples.mirror_quick; MoreExamples.mirror_big;
                           MoreExamples.mirror_twin])).2).2)
           ranked
    ∧ ranked
      ≡ₚ working
           (heap (benchmark_mirrors
                    (MoreExamples.world_of
                       [MoreExamples.mirror_quick; MoreExamples.mirror_big;
                        MoreExamples.mirror_twin])
                    [0; 1; 2]%nat
                    (Examples.fetched
                       (MoreExamples.world_of
                          [MoreExamples.mirror_quick; MoreExamples.mirror_big;
                           MoreExamples.mirror_twin])).2).2)
           [0; 1; 2]%nat
    ∧ filter (ties_with
                (heap (benchmark_mirrors
                         (MoreExamples.world_of
                            [MoreExamples.mirror_quick; MoreExamples.mirror_big;
                             MoreExamples.mirror_twin])
                         [0; 1; 2]%nat
                         (Examples.fetched
                            (MoreExamples.world_of
                               [MoreExamples.mirror_quick; MoreExamples.mirror_big;
                                MoreExamples.mirror_twin])).2).2)
                (of_int 7)) ranked
      = filter (ties_with
                  (heap (benchmark_mirrors
                           (MoreExamples.world_of
                              [MoreExamples.mirror_quick; MoreExamples.mirror_big;
                               MoreExamples.mirror_twin])
                           [0; 1; 2]%nat
                           (Examples.fetched
                              (MoreExamples.world_of
                                 [MoreExamples.mirror_quick; MoreExamples.mirror_big;
                                  MoreExamples.mirror_twin])).2).2)
                  (of_int 7)) [0; 1; 2]%nat.
Proof.
  apply (equal_speeds_keep_list_order
           (MoreExamples.world_of
              [MoreExamples.mirror_quick; MoreExamples.mirror_big;
               MoreExamples.mirror_twin])
           [0; 1; 2]%nat
           (Examples.fetched
              (MoreExamples.world_of
                 [MoreExamples.mirror_quick; MoreExamples.mirror_big;
                  MoreExamples.mirror_twin])).2).
  - compute_done.
  - apply seconds_finite.
  - reflexivity.
  - vm_compute. reflexivity.
Defined.

Lemma all_failed (h : gmap loc mirror) (mirrors : list loc) (chunks : list (list event)) :
  working h mirrors = [] →
  Forall2 (attempt_report h) mirrors chunks →
  Forall2 (fun _ c => ∃ conn, c = [failed_utterly conn]) mirrors chunks.
Proof.
  intros Hnone Hchunks. induction Hchunks as [|l c ls cs Hc _ IH]; [constructor |].
  unfold working in Hnone. rewrite filter_cons in Hnone.
  destruct (decide (is_Some (measured (h !!! l)))) as [|Hl]; [done |].
  constructor; [| by apply IH].
  unfold attempt_report in Hc. destruct (measured (h !!! l)); [| done].
  destruct Hl. by eexists.
Qed.

(** X13. When a benchmark completes and no mirror of the list has a speed
    afterwards, every mirror has written the line of the exception handler
    before its progress line, and the output ends with an empty line and
    the line [No working mirrors available]: no table header and no row is
    printed. For the empty list the output is these three lines. *)
Theorem no_working_mirrors (w : world) (mirrors : list loc) (s s' : state) :
  NoDup mirrors →
  benchmark_mirrors w mirrors s = (Ret tt, s') →
  working (heap s') mirrors = [] →
  (∃ chunks,
     Forall2 (fun _ c => ∃ conn, c = [failed_utterly conn]) mirrors chunks
     ∧ out s'
       = out s
         ++ line ("Found " +:+ pretty (length mirrors) +:+ " mirrors")
         :: progress_report (length mirrors) 0 chunks
         ++ [line ""; line "No working mirrors available"])
  ∧ (mirrors = [] → out s' = out s ++ nothing_to_rank).
Proof.
  intros Hnd Hrun Hnone.
  destruct (benchmark_output w mirrors s s' Hnd Hrun) as (_ & chunks & Hchunks & Hout).
  rewrite Hnone in Hout. cbn [keyed_of fmap list_fmap foldr table_lines] in Hout.
  split.
  - exists chunks. split; [| done]. by apply (all_failed (heap s')).
  - intros ->. apply Forall2_nil_inv_l in Hchunks as ->. by rewrite Hout.
Qed.

Lemma no_working_mirrors_witness :
  ∃ chunks,
    Forall2 (fun (_ : loc) c => ∃ conn, c = [failed_utterly conn]) [0; 1]%nat chunks
    ∧ out (benchmark_mirrors
             (MoreExamples.world_of [MoreExamples.mirror_gone; MoreExamples.mirror_nowhere])
             [0; 1]%nat
             (Examples.fetched
                (MoreExamples.world_of
                   [MoreExamples.mirror_gone; MoreExamples.mirror_nowhere])).2).2
      = out (Examples.fetched
               (MoreExamples.world_of
                  [MoreExamples.mirror_gone; MoreExamples.mirror_nowhere])).2
        ++ line ("Found " +:+ pretty (length [0; 1]%nat) +:+ " mirrors")
        :: progress_report (length [0; 1]%nat) 0 chunks
        ++ [line ""; line "No working mirrors available"].
Proof.
  apply (no_working_mirrors
           (MoreExamples.world_of [MoreExamples.mirror_gone; MoreExamples.mirror_nowhere])
           [0; 1]%nat
           (Examples.fetched
              (MoreExamples.world_of
                 [MoreExamples.mirror_gone; MoreExamples.mirror_nowhere])).2).
  - compute_done.
  - vm_compute. reflexivity.
  - vm_compute. reflexivity.
Defined.



Section EmptyList.

Lemma split_nonempty (c : ascii) (text : string) : PyStr.split c text ≠ [].
Proof.
  destruct text as [|a text]; [done |]. cbn [PyStr.split].
  destruct (PyStr.eqb_ascii a c); [done |]. by destruct (PyStr.split c text).
Qed.

Lemma first_unsupported_nil (regions : list string) :
  first_unsupported regions [] = head regions.
Proof.
  unfold first_unsupported. f_equal.
  induction regions as [|r rs IH]; [done |].
  rewrite filter_cons, IH. rewrite decide_True; [done |]. apply not_elem_of_nil.
Qed.

Lemma sorted_regions_nil (h : gmap loc mirror) : sorted_regions h [] = [].
Proof. unfold sorted_regions. cbn [fmap list_fmap list_to_set]. by rewrite elements_empty. Qed.

Lemma benchmark_mirrors_nil (w : world) (s : state) :
  benchmark_mirrors w [] s = (Ret tt, printed s nothing_to_rank).
Proof.
  rewrite benchmark_mirrors_unfold. cbn [benchmark_loop length].
  unfold mret, eff_ret. rewrite ranked_table_printed by constructor.
  by rewrite printed_app.
Qed.

(** X15. When the mirror list holds no enabled mirror, [main] lists no
    region; any [--regions] request is fatal and names its first code;
    [--list-mirrors] prints nothing at all, not even the header; and the
    benchmark contacts nobody and prints [Found 0 mirrors], an empty line,
    [No working mirrors available] and the empty line of [main]. *)
Theorem no_enabled_mirror (w : world) (a : args) (s s1 : state) (all : list loc) :
  fetch_mirrorlist w mirrorlist_url s = (Ret all, s1) →
  only_enabled (heap s1) all = [] →
  requested a ≠ []
  ∧ main w a s
    = if arg_list_regions a then (Ret tt, printed s1 [line "No regions available."])
      else if bool_decide (stripped a ≠ "") then
        (Raise (SystemExit (region_error (default "" (head (requested a))))), s1)
      else if arg_list_mirrors a then (Ret tt, s1)
      else (Ret tt, printed s1 (nothing_to_rank ++ [line ""])).
Proof.
  intros Hfetch Hnone. split; [apply split_nonempty |].
  destruct (arg_list_regions a) eqn:Hflag.
  { rewrite (main_list_regions w a s s1 all Hfetch Hflag), Hnone.
    by rewrite sorted_regions_nil. }
  rewrite (main_filters w a s s1 all Hfetch Hflag). cbv zeta.
  rewrite Hnone, sorted_regions_nil, first_unsupported_nil.
  assert (∀ regions, tiered (heap s1) a (in_regions (heap s1) regions []) = []) as Hin.
  { intros regions. unfold tiered, in_regions, of_tier.
    by destruct (tier_given (arg_tier a)). }
  assert (tiered (heap s1) a [] = []) as Htier.
  { unfold tiered, of_tier. by destruct (tier_given (arg_tier a)). }
  assert (dispatch w a [] s1
          = if arg_list_mirrors a then (Ret tt, s1)
            else (Ret tt, printed s1 (nothing_to_rank ++ [line ""]))) as Hdispatch.
  { unfold dispatch. destruct (arg_list_mirrors a); [done |].
    unfold mbind, eff_bind. rewrite benchmark_mirrors_nil, print_printed.
    by rewrite printed_app. }
  case_bool_decide.
  - pose proof (split_nonempty ","%char (stripped a)) as Hne. fold (requested a) in Hne.
    by destruct (requested a).
  - by rewrite Htier, Hdispatch.
Qed.

Lemma no_enabled_mirror_witness :
  requested (Examples.flags false "" None false) ≠ []
  ∧ main (Examples.world_of [Examples.mirror_off])
      (Examples.flags false "" None false) initial
    = (Ret tt,
       printed (Examples.fetched (Examples.world_of [Examples.mirror_off])).2
         (nothing_to_rank ++ [line ""])).
Proof.
  apply (no_enabled_mirror (Examples.world_of [Examples.mirror_off])
           (Examples.flags false "" None false) initial
           (Examples.fetched (Examples.world_of [Examples.mirror_off])).2
           (Examples.fetched (Examples.world_of [Examples.mirror_off])).1).
  - vm_compute. reflexivity.
  - vm_compute. reflexivity.
Defined.

End EmptyList.

(** X16. Neither the order of the region codes given with [--regions] nor
    a repetition among them changes what [main] does: two command lines
    that name the same set of codes and agree otherwise run alike, except
    that, when a code is unsupported, each names the first unsupported
    code of its own list in the fatal error. *)
Theorem region_order_is_irrelevant (w : world) (a a' : args) (s s1 : state)
    (all : list loc) :
  fetch_mirrorlist w mirrorlist_url s = (Ret all, s1) →
  arg_list_regions a = false → arg_list_regions a' = false →
  arg_tier a' = arg_tier a → arg_list_mirrors a' = arg_list_mirrors a →
  stripped a ≠ "" → stripped a' ≠ "" →
  (∀ r, r ∈ requested a ↔ r ∈ requested a') →
  main w a s = main w a' s
  ∨ ∃ r r',
      first_unsupported (requested a)
        (sorted_regions (heap s1) (only_enabled (heap s1) all)) = Some r
      ∧ first_unsupported (requested a')
          (sorted_regions (heap s1) (only_enabled (heap s1) all)) = Some r'
      ∧ r' ∈ requested a
      ∧ main w a s = (Raise (SystemExit (region_error r)), s1)
      ∧ main w a' s = (Raise (SystemExit (region_error r')), s1).
Proof.
  intros Hfetch Hflag Hflag' Htier Hlist Hreq Hreq' Hsame.
  rewrite (main_filters w a s s1 all Hfetch Hflag),
          (main_filters w a' s s1 all Hfetch Hflag'). cbv zeta.
  rewrite !bool_decide_eq_true_2 by done.
  set (h := heap s1). set (mirrors := only_enabled h all).
  destruct (first_unsupported (requested a) (sorted_regions h mirrors)) as [r|] eqn:Hfirst.
  - right. destruct (first_unsupported_Some _ _ _ Hfirst) as [Hin Hnot].
    destruct (first_unsupported_is_Some (requested a') (sorted_regions h mirrors) r)
      as [r' Hfirst']; [by apply Hsame | done |].
    rewrite Hfirst'. destruct (first_unsupported_Some _ _ _ Hfirst') as [Hin' _].
    exists r, r'. split; [done |]. split; [done |]. split; [by apply Hsame | done].
  - left. apply first_unsupported_None in Hfirst.
    assert (first_unsupported (requested a') (sorted_regions h mirrors) = None) as ->.
    { apply first_unsupported_None. rewrite Forall_forall in Hfirst |- *.
      intros r Hr. apply Hfirst. by apply Hsame. }
    assert (in_regions h (requested a') mirrors = in_regions h (requested a) mirrors) as ->.
    { unfold in_regions. apply list_filter_iff. intros l. by rewrite Hsame. }
    unfold tiered, dispatch. by rewrite Htier, Hlist.
Qed.

Lemma region_order_is_irrelevant_witness :
  main (Examples.world_of Examples.mixed)
    (Examples.flags false "EU,AS" None true) initial
  = main (Examples.world_of Examples.mixed)
      (Examples.flags false ",AS,EU,AS, " None true) initial
  ∨ ∃ r r',
      first_unsupported (requested (Examples.flags false "EU,AS" None true))
        (sorted_regions (heap (Examples.fetched (Examples.world_of Examples.mixed)).2)
           (only_enabled (heap (Examples.fetched (Examples.world_of Examples.mixed)).2)
              (Examples.fetched (Examples.world_of Examples.mixed)).1)) = Some r
      ∧ first_unsupported (requested (Examples.flags false ",AS,EU,AS, " None true))
          (sorted_regions (heap (Examples.fetched (Examples.world_of Examples.mixed)).2)
             (only_enabled (heap (Examples.fetched (Examples.world_of Examples.mixed)).2)
                (Examples.fetched (Examples.world_of Examples.mixed)).1)) = Some r'
      ∧ r' ∈ requested (Examples.flags false "EU,AS" None true)
      ∧ main (Examples.world_of Examples.mixed)
          (Examples.flags false "EU,AS" None true) initial
        = (Raise (SystemExit (region_error r)),
           (Examples.fetched (Examples.world_of Examples.mixed)).2)
      ∧ main (Examples.world_of Examples.mixed)
          (Examples.flags false ",AS,EU,AS, " None true) initial
        = (Raise (SystemExit (region_error r')),
           (Examples.fetched (Examples.world_of Examples.mixed)).2).
Proof.
  apply (region_order_is_irrelevant (Examples.world_of Examples.mixed)
           (Examples.flags false "EU,AS" None true)
           (Examples.flags false ",AS,EU,AS, " None true) initial
           (Examples.fetched (Examples.world_of Examples.mixed)).2
           (Examples.fetched (Examples.world_of Examples.mixed)).1).
  - vm_compute. reflexivity.
  - reflexivity.
  - reflexivity.
  - reflexivity.
  - reflexivity.
  - vm_compute. discriminate.
  - vm_compute. discriminate.
  - intros r.
    change (requested (Examples.flags false "EU,AS" None true)) with ["EU"; "AS"].
    change (requested (Examples.flags false ",AS,EU,AS, " None true))
      with ["AS"; "EU"; "AS"].
    rewrite !elem_of_cons, !elem_of_nil. tauto.
Defined.
